(** * A block file system stored in one host file

    Shallow embedding of the file-system engine of the repository
    (tools/block_device.py, superblock.py, block_allocator.py, inode.py,
    directory.py and filesystem.py) and the properties proved about it.

    Conventions of the embedding.
    - Python [int] is [Z]; [bytes] and [bytearray] are [list Z] (one element
      per byte); [str] is a list of Unicode code points.
    - A Python exception is an explicit outcome: read-only code returns a
      [result]; code that mutates the [FileSystem] object runs in the monad
      [M], which keeps the object as it is at the point of the [raise] (the
      object outlives an escaped exception, the front ends do not catch).
    - [None] is [option]'s [None].
    - [int(time.time())] is an argument [now] of the operations that read
      the clock.
    - The UTF-8 codec of the Python runtime is an interface ([Utf8]); every
      general theorem holds for each of its implementations.
    - The host file is its content; failures of the host (I/O errors, the
      recursion limit of the interpreter, memory) are not modelled.
    - A [for] loop over [range(n)] is a recursion on [n]; a [while] loop is
      a recursion on a fuel that the loop provably does not exhaust. *)

From Stdlib Require Import ZArith List Bool Lia Ascii String Sorted.
Import ListNotations.
Open Scope Z_scope.

Set Implicit Arguments.

(** ** Outcomes *)

Inductive exn : Type :=
| TypeError | IndexError | StructError | ValueError
| AttributeError | UnicodeEncodeError.

Inductive result (A : Type) : Type :=
| Ok (a : A)
| Raise (e : exn).

Arguments Ok {A} a.
Arguments Raise {A} e.

Definition rbind {A B} (r : result A) (k : A -> result B) : result B :=
  match r with
  | Ok a => k a
  | Raise e => Raise e
  end.

Declare Scope result_scope.
Delimit Scope result_scope with res.
Notation "x <- r ;; k" := (rbind r (fun x => k))
  (at level 61, r at next level, right associativity) : result_scope.
Notation "' pat <- r ;; k" := (rbind r (fun x => match x with pat => k end))
  (at level 61, pat pattern, r at next level, right associativity) : result_scope.

(** ** Bytes, slices and [struct] *)

Definition bytes := list Z.

Definition len {A} (l : list A) : Z := Z.of_nat (List.length l).

(** [zeros n] is [bytearray(n)] and [bytes(n)] for [0 <= n]. *)
Definition zeros (n : Z) : bytes := repeat 0 (Z.to_nat n).

(** [slice l a b] is [l[a:b]] for [0 <= a]; [slice_from l a] is [l[a:]]. *)
Definition slice {A} (l : list A) (a b : Z) : list A :=
  firstn (Z.to_nat (b - a)) (skipn (Z.to_nat a) l).

Definition slice_from {A} (l : list A) (a : Z) : list A :=
  skipn (Z.to_nat a) l.

(** [set_slice l a b x] is the buffer after [l[a:b] = x], for [0 <= a <= b]. *)
Definition set_slice {A} (l : list A) (a b : Z) (x : list A) : list A :=
  firstn (Z.to_nat a) l ++ x ++ skipn (Z.to_nat b) l.

(** [getitem l i] is [l[i]] for [0 <= i]. *)
Definition getitem (l : bytes) (i : Z) : result Z :=
  match nth_error l (Z.to_nat i) with
  | Some b => Ok b
  | None => Raise IndexError
  end.

(** [struct.unpack('<I', l)[0]] and [struct.unpack('<Q', l)[0]]. *)
Definition unpack_I (l : bytes) : result Z :=
  match l with
  | [b0; b1; b2; b3] => Ok (b0 + 256 * b1 + 65536 * b2 + 16777216 * b3)
  | _ => Raise StructError
  end.

Fixpoint le_value (l : bytes) : Z :=
  match l with
  | [] => 0
  | b :: r => b + 256 * le_value r
  end.

Definition unpack_Q (l : bytes) : result Z :=
  if Nat.eqb (List.length l) 8 then Ok (le_value l) else Raise StructError.

(** [struct.pack('<I', v)] and [struct.pack('<Q', v)]: out of range values
    raise [struct.error]. *)
Fixpoint le_bytes (n : nat) (v : Z) : bytes :=
  match n with
  | O => []
  | S k => v mod 256 :: le_bytes k (v / 256)
  end.

Definition pack_I (v : Z) : result bytes :=
  if (0 <=? v) && (v <? 4294967296) then Ok (le_bytes 4 v) else Raise StructError.

Definition pack_Q (v : Z) : result bytes :=
  if (0 <=? v) && (v <? 18446744073709551616) then Ok (le_bytes 8 v)
  else Raise StructError.

(** [struct.pack_into(fmt, buf, offset, v)]: the packed value replaces
    [buf[offset:offset+n]]; a buffer too short raises [struct.error]. *)
Definition pack_into_I (buf : bytes) (offset v : Z) : result bytes :=
  (b <- pack_I v ;;
   if offset + 4 <=? len buf then Ok (set_slice buf offset (offset + 4) b)
   else Raise StructError)%res.

Definition pack_into_Q (buf : bytes) (offset v : Z) : result bytes :=
  (b <- pack_Q v ;;
   if offset + 8 <=? len buf then Ok (set_slice buf offset (offset + 8) b)
   else Raise StructError)%res.

(** An attribute holding an [int] or [None] (a block number returned by the
    allocator): packing [None] raises [struct.error]. *)
Definition pack_into_I_opt (buf : bytes) (offset : Z) (v : option Z) : result bytes :=
  match v with
  | Some z => pack_into_I buf offset z
  | None => Raise StructError
  end.

(** ** Strings *)

Definition char := N.
Definition pystr := list char.

Definition SLASH : char := 47%N.
Definition TAB : char := 9%N.

(** The string of an ASCII literal. *)
Definition py (s : string) : pystr := map N_of_ascii (list_ascii_of_string s).

Fixpoint str_eqb (a b : pystr) : bool :=
  match a, b with
  | [], [] => true
  | x :: a', y :: b' => N.eqb x y && str_eqb a' b'
  | _, _ => false
  end.

(** [lstrip_slash p] is [p.lstrip('/')], [rstrip_slash p] is [p.rstrip('/')]
    and [strip_slash p] is [p.strip('/')]. *)
Fixpoint lstrip_slash (p : pystr) : pystr :=
  match p with
  | c :: r => if N.eqb c SLASH then lstrip_slash r else p
  | [] => []
  end.

Definition rstrip_slash (p : pystr) : pystr := rev (lstrip_slash (rev p)).

Definition strip_slash (p : pystr) : pystr := rstrip_slash (lstrip_slash p).

(** [rfind_slash p] is [p.rfind('/')]: the highest index of a ['/'], or -1. *)
Fixpoint rfind_from (i : Z) (p : pystr) (found : Z) : Z :=
  match p with
  | [] => found
  | c :: r => rfind_from (i + 1) r (if N.eqb c SLASH then i else found)
  end.

Definition rfind_slash (p : pystr) : Z := rfind_from 0 p (-1).

(** [split_slash p] is [p.split('/')]: the (possibly empty) pieces between
    the separators, always at least one piece. *)
Fixpoint split_slash (p : pystr) : list pystr :=
  match p with
  | [] => [[]]
  | c :: r =>
      if N.eqb c SLASH then [] :: split_slash r
      else match split_slash r with
           | piece :: rest => (c :: piece) :: rest
           | [] => [[c]]
           end
  end.

Definition nonempty (p : pystr) : bool :=
  match p with [] => false | _ => true end.

(** The codec of the runtime: [s.encode('utf-8')], which raises on a lone
    surrogate, and [b.decode('utf-8', errors='replace')]. *)
Class Utf8 : Type := {
  encode_utf8 : pystr -> result bytes;
  decode_utf8 : bytes -> pystr
}.

(** ** tools/block_device.py *)

Definition BLOCK_SIZE : Z := 4096.

Module BlockDevice.

(** The device and the host file it holds open: [file] is the content of
    the host file. *)
Record t : Type := mk {
  file : bytes;
  block_count : Z
}.

(** [BlockDevice.create(path, size_mb)]: a zero-filled file.
    [b'\x00' * total_size] is empty for a negative size. *)
Definition create (size_mb : Z) : t :=
  let total_size := size_mb * 1024 * 1024 in
  let block_count := total_size / BLOCK_SIZE in
  mk (zeros total_size) block_count.

(** [BlockDevice.open(path)] on a host file of content [f]. *)
Definition open (f : bytes) : t :=
  let size := len f in
  mk f (size / BLOCK_SIZE).

(** [seek(offset); read(BLOCK_SIZE)]: short or empty at the end of file. *)
Definition read_block (d : t) (block_num : Z) : bytes :=
  let offset := block_num * BLOCK_SIZE in
  slice (file d) offset (offset + BLOCK_SIZE).

(** The first [n] bytes of a file that is extended with zero bytes when
    it is shorter. *)
Fixpoint head_padded (n : nat) (f : bytes) : bytes :=
  match n with
  | O => []
  | S k =>
      match f with
      | [] => 0 :: head_padded k []
      | b :: r => b :: head_padded k r
      end
  end.

(** [seek(offset); write(data)]: a write past the end of the file fills
    the gap with zero bytes. *)
Definition write_block (d : t) (block_num : Z) (data : bytes) : t :=
  let offset := block_num * BLOCK_SIZE in
  mk (head_padded (Z.to_nat offset) (file d)
        ++ data
        ++ skipn (Z.to_nat offset + List.length data) (file d))
     (block_count d).

End BlockDevice.

(** ** tools/superblock.py *)

Definition MAGIC_NUMBER : Z := 3735928559.  (* 0xDEADBEEF *)

Module Superblock.

Record t : Type := mk {
  magic : Z;
  block_size : Z;
  total_blocks : Z;
  inode_count : Z;
  free_blocks : Z;
  root_inode : Z
}.

(** [Superblock.__init__(total_blocks, inode_count)]. *)
Definition init (total_blocks inode_count : Z) : t :=
  mk MAGIC_NUMBER BLOCK_SIZE total_blocks inode_count (total_blocks - 10) 1.

Definition set_free_blocks (sb : t) (v : Z) : t :=
  mk (magic sb) (block_size sb) (total_blocks sb) (inode_count sb) v (root_inode sb).

(** [Superblock.from_bytes(data)]: the magic is unpacked and dropped. *)
Definition from_bytes (data : bytes) : result t :=
  (magic <- unpack_I (slice data 0 4) ;;
   block_size <- unpack_I (slice data 4 8) ;;
   total_blocks <- unpack_I (slice data 8 12) ;;
   inode_count <- unpack_I (slice data 12 16) ;;
   free_blocks <- unpack_I (slice data 16 20) ;;
   root_inode <- unpack_I (slice data 20 24) ;;
   let sb := init total_blocks inode_count in
   Ok (mk (Superblock.magic sb) block_size (Superblock.total_blocks sb)
          (Superblock.inode_count sb) free_blocks root_inode))%res.

(** [Superblock.to_bytes()]. *)
Definition to_bytes (sb : t) : result bytes :=
  (let data := zeros BLOCK_SIZE in
   data <- pack_into_I data 0 (magic sb) ;;
   data <- pack_into_I data 4 (block_size sb) ;;
   data <- pack_into_I data 8 (total_blocks sb) ;;
   data <- pack_into_I data 12 (inode_count sb) ;;
   data <- pack_into_I data 16 (free_blocks sb) ;;
   data <- pack_into_I data 20 (root_inode sb) ;;
   Ok data)%res.

End Superblock.

(** ** tools/block_allocator.py *)

(** [l[i] = v] for [0 <= i < len(l)]. *)
Definition setitem {A} (l : list A) (i : Z) (v : A) : list A :=
  firstn (Z.to_nat i) l ++ v :: skipn (S (Z.to_nat i)) l.

Module BlockAllocator.

(** Block numbers are unsigned: they are indices of [range(total_blocks)]
    or fields unpacked with ['<I']. *)
Record t : Type := mk {
  total_blocks : Z;
  bitmap : bytes
}.

Definition is_allocated (a : t) (block_num : Z) : bool :=
  let byte_idx := block_num / 8 in
  let bit_idx := block_num mod 8 in
  if len (bitmap a) <=? byte_idx then false
  else negb (Z.land (nth (Z.to_nat byte_idx) (bitmap a) 0) (Z.shiftl 1 bit_idx) =? 0).

Definition set_allocated (a : t) (block_num : Z) (allocated : bool) : t :=
  let byte_idx := block_num / 8 in
  let bit_idx := block_num mod 8 in
  if len (bitmap a) <=? byte_idx then a
  else
    let old := nth (Z.to_nat byte_idx) (bitmap a) 0 in
    let new := if allocated then Z.lor old (Z.shiftl 1 bit_idx)
               else Z.land old (Z.lnot (Z.shiftl 1 bit_idx)) in
    mk (total_blocks a) (setitem (bitmap a) byte_idx new).

(** [for i in range(n): self._set_bit(start + i, True)]. *)
Fixpoint reserve (a : t) (n : nat) (start : Z) : t :=
  match n with
  | O => a
  | S k => reserve (set_allocated a start true) k (start + 1)
  end.

(** [BlockAllocator(total_blocks)]; [bytearray] of a negative size raises
    [ValueError]. *)
Definition init (total_blocks : Z) : result t :=
  let bitmap_size := (total_blocks + 7) / 8 in
  if bitmap_size <? 0 then Raise ValueError
  else
    let reserved_blocks := 10 in
    Ok (reserve (mk total_blocks (zeros bitmap_size))
                (Z.to_nat (Z.min reserved_blocks total_blocks)) 0).

Definition from_bytes (data : bytes) (total_blocks : Z) : t :=
  mk total_blocks data.

(** The scan of [allocate_block]: the first index of
    [range(i, i + n)] that is not allocated. *)
Fixpoint first_free (a : t) (n : nat) (i : Z) : option Z :=
  match n with
  | O => None
  | S k => if is_allocated a i then first_free a k (i + 1) else Some i
  end.

Definition allocate_block (a : t) : option Z * t :=
  match first_free a (Z.to_nat (total_blocks a)) 0 with
  | Some i => (Some i, set_allocated a i true)
  | None => (None, a)
  end.

Definition free_block (a : t) (block_num : Z) : t :=
  if block_num <? total_blocks a then set_allocated a block_num false else a.

Definition to_bytes (a : t) : bytes := bitmap a.

Fixpoint count_free (a : t) (n : nat) (i : Z) : Z :=
  match n with
  | O => 0
  | S k => (if is_allocated a i then 0 else 1) + count_free a k (i + 1)
  end.

Definition free_blocks (a : t) : Z :=
  count_free a (Z.to_nat (total_blocks a)) 0.

End BlockAllocator.

(** ** tools/inode.py *)

Definition INODE_SIZE : Z := 128.
Definition DIRECT_BLOCKS : Z := 12.

Inductive FileType : Type := REGULAR | DIRECTORY.

Definition FileType_value (t : FileType) : Z :=
  match t with REGULAR => 1 | DIRECTORY => 2 end.

Definition FileType_eqb (a b : FileType) : bool :=
  match a, b with
  | REGULAR, REGULAR | DIRECTORY, DIRECTORY => true
  | _, _ => false
  end.

Module Inode.

(** A slot of [direct_blocks] holds a block number, or [None] when the
    value the allocator returned was stored unchecked. *)
Record t : Type := mk {
  file_type : FileType;
  size : Z;
  block_count : Z;
  direct_blocks : list (option Z);
  indirect_block : Z;
  double_indirect_block : Z;
  created : Z;
  modified : Z;
  accessed : Z
}.

(** [Inode(file_type)] at clock value [now]. *)
Definition init (file_type : FileType) (now : Z) : t :=
  mk file_type 0 0 (repeat (Some 0) (Z.to_nat DIRECT_BLOCKS)) 0 0 now now now.

Definition set_direct_block (ino : t) (i : Z) (b : option Z) : t :=
  mk (file_type ino) (size ino) (block_count ino)
     (setitem (direct_blocks ino) i b)
     (indirect_block ino) (double_indirect_block ino)
     (created ino) (modified ino) (accessed ino).

Definition set_block_count (ino : t) (n : Z) : t :=
  mk (file_type ino) (size ino) n (direct_blocks ino)
     (indirect_block ino) (double_indirect_block ino)
     (created ino) (modified ino) (accessed ino).

(** [direct_blocks[i]] for [0 <= i]. *)
Definition direct_block (ino : t) (i : Z) : result (option Z) :=
  match nth_error (direct_blocks ino) (Z.to_nat i) with
  | Some b => Ok b
  | None => Raise IndexError
  end.

(** The loop of [from_bytes] over [range(i, i + n)]. *)
Fixpoint read_direct (data : bytes) (n : nat) (i : Z) : result (list (option Z)) :=
  match n with
  | O => Ok []
  | S k =>
      (let offset := 12 + i * 4 in
       b <- unpack_I (slice data offset (offset + 4)) ;;
       r <- read_direct data k (i + 1) ;;
       Ok (Some b :: r))%res
  end.

(** [Inode.from_bytes(data)]; the clock read by the constructor is
    overwritten by the three stored time stamps. *)
Definition from_bytes (data : bytes) : result t :=
  (file_type_val <- getitem data 0 ;;
   let file_type :=
     if file_type_val =? 1 then REGULAR
     else if file_type_val =? 2 then DIRECTORY
     else REGULAR in
   size <- unpack_I (slice data 4 8) ;;
   block_count <- unpack_I (slice data 8 12) ;;
   direct_blocks <- read_direct data (Z.to_nat DIRECT_BLOCKS) 0 ;;
   indirect_block <- unpack_I (slice data 60 64) ;;
   double_indirect_block <- unpack_I (slice data 64 68) ;;
   created <- unpack_Q (slice data 68 76) ;;
   modified <- unpack_Q (slice data 76 84) ;;
   accessed <- unpack_Q (slice data 84 92) ;;
   Ok (mk file_type size block_count direct_blocks indirect_block
          double_indirect_block created modified accessed))%res.

(** The loop of [to_bytes] over [range(i, i + n)]. *)
Fixpoint write_direct (ino : t) (data : bytes) (n : nat) (i : Z) : result bytes :=
  match n with
  | O => Ok data
  | S k =>
      (let offset := 12 + i * 4 in
       b <- direct_block ino i ;;
       data <- pack_into_I_opt data offset b ;;
       write_direct ino data k (i + 1))%res
  end.

(** [Inode.to_bytes()]. *)
Definition to_bytes (ino : t) : result bytes :=
  (let data := zeros INODE_SIZE in
   let data := setitem data 0 (FileType_value (file_type ino)) in
   data <- pack_into_I data 4 (size ino) ;;
   data <- pack_into_I data 8 (block_count ino) ;;
   data <- write_direct ino data (Z.to_nat DIRECT_BLOCKS) 0 ;;
   data <- pack_into_I data 60 (indirect_block ino) ;;
   data <- pack_into_I data 64 (double_indirect_block ino) ;;
   data <- pack_into_Q data 68 (created ino) ;;
   data <- pack_into_Q data 76 (modified ino) ;;
   data <- pack_into_Q data 84 (accessed ino) ;;
   Ok data)%res.

End Inode.

(** ** tools/directory.py *)

Module DirEntry.

Record t : Type := mk {
  inode_num : Z;
  name : pystr
}.

Section Codec.
Context {codec : Utf8}.

(** [DirEntry.from_bytes(data)]: the entry and the bytes consumed. *)
Definition from_bytes (data : bytes) : result (t * Z) :=
  (inode_num <- unpack_I (slice data 0 4) ;;
   name_len <- unpack_I (slice data 4 8) ;;
   let name := decode_utf8 (slice data 8 (8 + name_len)) in
   let total_size := 8 + name_len in
   Ok (mk inode_num name, total_size))%res.

(** [DirEntry.to_bytes()]. *)
Definition to_bytes (e : t) : result bytes :=
  (name_bytes <- encode_utf8 (name e) ;;
   i <- pack_I (inode_num e) ;;
   l <- pack_I (len name_bytes) ;;
   Ok (i ++ l ++ name_bytes))%res.
End Codec.

End DirEntry.

(** ** tools/filesystem.py *)

(** The inode table is a [dict]: insertion ordered, keys unique. *)
Definition table := list (Z * Inode.t).

Fixpoint table_get (k : Z) (t : table) : option Inode.t :=
  match t with
  | [] => None
  | (k', v) :: r => if k =? k' then Some v else table_get k r
  end.

(** [t.get(k)] where [k] may be [None]. *)
Definition table_get_opt (k : option Z) (t : table) : option Inode.t :=
  match k with
  | Some k => table_get k t
  | None => None
  end.

(** [t[k] = v]: in place for a key already present, at the end otherwise. *)
Fixpoint table_set (k : Z) (v : Inode.t) (t : table) : table :=
  match t with
  | [] => [(k, v)]
  | (k', v') :: r => if k =? k' then (k, v) :: r else (k', v') :: table_set k v r
  end.

(** [del t[k]]. *)
Definition table_del (k : Z) (t : table) : table :=
  filter (fun kv => negb (fst kv =? k)) t.

Definition table_keys (t : table) : list Z := map fst t.

(** The literals of [tree], by the code points stored in filesystem.py. *)
Definition CONNECTOR_LAST : pystr :=
  [0xe2; 0x201d; 0x201d; 0xe2; 0x201d; 0x20ac; 0xe2; 0x201d; 0x20ac; 0x20]%N.
Definition CONNECTOR_MIDDLE : pystr :=
  [0xe2; 0x201d; 0x153; 0xe2; 0x201d; 0x20ac; 0xe2; 0x201d; 0x20ac; 0x20]%N.
Definition CYCLE_MARKER : pystr :=
  ([0xe2; 0x161; 0xa0; 0xef; 0xb8; 0x20; 0x20]%N ++ py "[CYCLE DETECTED]")%list.
Definition ICON_DIRECTORY : pystr := [0xf0; 0x178; 0x201c; 0x20]%N.
Definition ICON_FILE : pystr := [0xf0; 0x178; 0x201c; 0x201e; 0x20]%N.

(** Every pass of a directory scan advances [offset] by at least 8, so a
    block is scanned in at most [BLOCK_SIZE / 8] passes; every pass over
    the inode table advances by 132, so 32 passes cover a block. *)
Definition SCAN_FUEL : nat := 512.
Definition TABLE_FUEL : nat := 32.

(** [FileInfo] and [FsStats]: the values [get_file_info] and [get_stats]
    return. *)
Module FileInfo.

Record t : Type := mk {
  file_type : FileType;
  size : Z;
  created : Z;
  modified : Z;
  accessed : Z
}.

End FileInfo.

Module FsStats.

Record t : Type := mk {
  total_blocks : Z;
  free_blocks : Z;
  total_inodes : Z;
  used_inodes : Z
}.

End FsStats.

Module FileSystem.

Record t : Type := mk {
  device : BlockDevice.t;
  allocator : BlockAllocator.t;
  superblock : Superblock.t;
  inode_table : table;
  next_inode : Z
}.

Definition set_device (fs : t) (d : BlockDevice.t) : t :=
  mk d (allocator fs) (superblock fs) (inode_table fs) (next_inode fs).
Definition set_allocator (fs : t) (a : BlockAllocator.t) : t :=
  mk (device fs) a (superblock fs) (inode_table fs) (next_inode fs).
Definition set_superblock (fs : t) (sb : Superblock.t) : t :=
  mk (device fs) (allocator fs) sb (inode_table fs) (next_inode fs).
Definition set_inode_table (fs : t) (tb : table) : t :=
  mk (device fs) (allocator fs) (superblock fs) tb (next_inode fs).
Definition set_next_inode (fs : t) (n : Z) : t :=
  mk (device fs) (allocator fs) (superblock fs) (inode_table fs) n.

(** *** The monad of the mutating methods *)

Definition M (A : Type) : Type := t -> result A * t.

Definition ret {A} (a : A) : M A := fun fs => (Ok a, fs).
Definition raise {A} (e : exn) : M A := fun fs => (Raise e, fs).
Definition bind {A B} (m : M A) (k : A -> M B) : M B :=
  fun fs =>
    match m fs with
    | (Ok a, fs') => k a fs'
    | (Raise e, fs') => (Raise e, fs')
    end.
(** A read-only computation on the object. *)
Definition read {A} (f : t -> result A) : M A := fun fs => (f fs, fs).
Definition lift {A} (r : result A) : M A := fun fs => (r, fs).
Definition modify (f : t -> t) : M unit := fun fs => (Ok tt, f fs).

Declare Scope fs_scope.
Delimit Scope fs_scope with fs.
Notation "x <- m ;; k" := (bind m (fun x => k))
  (at level 61, m at next level, right associativity) : fs_scope.
Notation "m ;;; k" := (bind m (fun _ => k))
  (at level 61, right associativity) : fs_scope.

(** [self.allocator.allocate_block()]. *)
Definition allocate_block : M (option Z) :=
  fun fs =>
    let (b, a) := BlockAllocator.allocate_block (allocator fs) in
    (Ok b, set_allocator fs a).

(** [self.allocator.free_block(b)]: [None < total_blocks] is a
    [TypeError]. *)
Definition free_block (b : option Z) : M unit :=
  match b with
  | Some n => modify (fun fs => set_allocator fs (BlockAllocator.free_block (allocator fs) n))
  | None => raise TypeError
  end.

(** [self.device.write_block(b, data)]: [None * BLOCK_SIZE] is a
    [TypeError]. *)
Definition write_block (b : option Z) (data : bytes) : M unit :=
  match b with
  | Some n => modify (fun fs => set_device fs (BlockDevice.write_block (device fs) n data))
  | None => raise TypeError
  end.

(** [self.device.read_block(b)]. *)
Definition read_block (fs : t) (b : option Z) : result bytes :=
  match b with
  | Some n => Ok (BlockDevice.read_block (device fs) n)
  | None => Raise TypeError
  end.

(** An assignment to attributes of the inode object stored under key
    [k]: the object is shared with the table. *)
Definition update_inode (k : Z) (f : Inode.t -> Inode.t) : M unit :=
  modify (fun fs =>
    match table_get k (inode_table fs) with
    | Some ino => set_inode_table fs (table_set k (f ino) (inode_table fs))
    | None => fs
    end).

(** [x == 0] for a block slot: [None == 0] is false. *)
Definition is_zero (b : option Z) : bool :=
  match b with
  | Some n => n =? 0
  | None => false
  end.

Section Engine.
Context {codec : Utf8}.

(** *** Path resolution *)

(** The [while] loop of [_lookup_in_directory] on one block: the inode
    number of the first entry named [name], if any. *)
Fixpoint lookup_entries (fuel : nat) (block_data : bytes) (name : pystr)
         (offset : Z) : result (option Z) :=
  match fuel with
  | O => Ok None
  | S k =>
      if offset <? BLOCK_SIZE then
        (b <- getitem block_data offset ;;
         if b =? 0 then Ok None
         else if offset + 8 <=? BLOCK_SIZE then
           ' (entry, size) <- DirEntry.from_bytes (slice_from block_data offset) ;;
           if str_eqb (DirEntry.name entry) name
           then Ok (Some (DirEntry.inode_num entry))
           else lookup_entries k block_data name (offset + size)
         else Ok None)%res
      else Ok None
  end.

(** The [for] loop of [_lookup_in_directory] over
    [range(i, i + n)]. *)
Fixpoint lookup_blocks (fs : t) (inode : Inode.t) (name : pystr)
         (n : nat) (i : Z) : result (option Z) :=
  match n with
  | O => Ok None
  | S k =>
      if DIRECT_BLOCKS <=? i then Ok None
      else
        (block_num <- Inode.direct_block inode i ;;
         if is_zero block_num then lookup_blocks fs inode name k (i + 1)
         else
           block_data <- read_block fs block_num ;;
           found <- lookup_entries SCAN_FUEL block_data name 0 ;;
           match found with
           | Some e => Ok (Some e)
           | None => lookup_blocks fs inode name k (i + 1)
           end)%res
  end.

Definition _lookup_in_directory (fs : t) (dir_inode_num : option Z)
           (name : pystr) : result (option Z) :=
  match table_get_opt dir_inode_num (inode_table fs) with
  | None => Ok None
  | Some inode =>
      if negb (FileType_eqb (Inode.file_type inode) DIRECTORY) then Ok None
      else lookup_blocks fs inode name (Z.to_nat (Inode.block_count inode)) 0
  end.

(** The [for part in parts] loop of [_find_inode]. *)
Fixpoint walk (fs : t) (parts : list pystr) (current_inode : option Z)
  : result (option Z) :=
  match parts with
  | [] => Ok current_inode
  | part :: rest =>
      (current_inode <- _lookup_in_directory fs current_inode part ;;
       match current_inode with
       | None => Ok None
       | Some _ => walk fs rest current_inode
       end)%res
  end.

Definition _find_inode (fs : t) (path : pystr) : result (option Z) :=
  if str_eqb path (py "/") then Ok (Some (Superblock.root_inode (superblock fs)))
  else
    let parts := filter nonempty (split_slash (strip_slash path)) in
    walk fs parts (Some (Superblock.root_inode (superblock fs))).

(** [_split_path(path)]; the pair [(None, None)] is [None]. *)
Definition _split_path (path : pystr) : option (pystr * pystr) :=
  let path := rstrip_slash path in
  if str_eqb path (py "/") then None
  else
    let pos := rfind_slash path in
    if pos =? -1 then Some (py "/", path)
    else if pos =? 0 then Some (py "/", slice_from path 1)
    else Some (slice path 0 pos, slice_from path (pos + 1)).

(** *** Reading *)

(** The [for] loop of [read_file] over [range(i, i + n)]. *)
Fixpoint read_blocks (fs : t) (inode : Inode.t) (n : nat) (i : Z)
         (data : bytes) (remaining : Z) : result bytes :=
  match n with
  | O => Ok data
  | S k =>
      if DIRECT_BLOCKS <=? i then Ok data
      else
        (block_num <- Inode.direct_block inode i ;;
         if is_zero block_num then Ok data
         else
           block_data <- read_block fs block_num ;;
           let to_read := Z.min remaining BLOCK_SIZE in
           let data := (data ++ slice block_data 0 to_read)%list in
           let remaining := remaining - to_read in
           if remaining =? 0 then Ok data
           else read_blocks fs inode k (i + 1) data remaining)%res
  end.

Definition read_file (fs : t) (path : pystr) : result bytes :=
  (inode_num <- _find_inode fs path ;;
   match table_get_opt inode_num (inode_table fs) with
   | None => Ok []
   | Some inode =>
       if negb (FileType_eqb (Inode.file_type inode) REGULAR) then Ok []
       else read_blocks fs inode (Z.to_nat (Inode.block_count inode)) 0
                        [] (Inode.size inode)
   end)%res.

(** The [while] loop of [list_directory] on one block. *)
Fixpoint list_entries (fuel : nat) (block_data : bytes) (offset : Z)
         (entries : list pystr) : result (list pystr) :=
  match fuel with
  | O => Ok entries
  | S k =>
      if offset <? BLOCK_SIZE then
        (b <- getitem block_data offset ;;
         if b =? 0 then Ok entries
         else if offset + 8 <=? BLOCK_SIZE then
           ' (entry, size) <- DirEntry.from_bytes (slice_from block_data offset) ;;
           list_entries k block_data (offset + size)
                        (entries ++ [DirEntry.name entry])%list
         else Ok entries)%res
      else Ok entries
  end.

(** The [for] loop of [list_directory] over [range(i, i + n)]. *)
Fixpoint list_blocks (fs : t) (inode : Inode.t) (n : nat) (i : Z)
         (entries : list pystr) : result (list pystr) :=
  match n with
  | O => Ok entries
  | S k =>
      if DIRECT_BLOCKS <=? i then Ok entries
      else
        (block_num <- Inode.direct_block inode i ;;
         if is_zero block_num then Ok entries
         else
           block_data <- read_block fs block_num ;;
           entries <- list_entries SCAN_FUEL block_data 0 entries ;;
           list_blocks fs inode k (i + 1) entries)%res
  end.

Definition list_directory (fs : t) (path : pystr) : result (list pystr) :=
  (inode_num <- _find_inode fs path ;;
   match table_get_opt inode_num (inode_table fs) with
   | None => Ok []
   | Some inode =>
       if negb (FileType_eqb (Inode.file_type inode) DIRECTORY) then Ok []
       else list_blocks fs inode (Z.to_nat (Inode.block_count inode)) 0 []
   end)%res.

(** *** Writing the metadata *)

(** The loop of [_write_inode_table]: [block_data] and [offset] are its
    local variables. *)
Fixpoint write_inodes (device : BlockDevice.t) (items : table)
         (block_data : bytes) (offset : Z)
  : result (bytes * Z) * BlockDevice.t :=
  match items with
  | [] => (Ok (block_data, offset), device)
  | (inode_num, inode) :: rest =>
      match Inode.to_bytes inode with
      | Raise e => (Raise e, device)
      | Ok inode_data =>
          let '(device, block_data, offset) :=
            if offset + 4 + INODE_SIZE >? BLOCK_SIZE
            then (BlockDevice.write_block device 2 block_data, zeros BLOCK_SIZE, 0)
            else (device, block_data, offset) in
          match pack_into_I block_data offset inode_num with
          | Raise e => (Raise e, device)
          | Ok block_data =>
              let block_data :=
                set_slice block_data (offset + 4) (offset + 4 + INODE_SIZE)
                          inode_data in
              write_inodes device rest block_data (offset + 4 + INODE_SIZE)
          end
      end
  end.

(** [FileSystem._write_inode_table(device, inode_table)]. *)
Definition _write_inode_table (device : BlockDevice.t) (inode_table : table)
  : result unit * BlockDevice.t :=
  match write_inodes device inode_table (zeros BLOCK_SIZE) 0 with
  | (Raise e, device) => (Raise e, device)
  | (Ok (block_data, offset), device) =>
      if offset >? 0 then (Ok tt, BlockDevice.write_block device 2 block_data)
      else (Ok tt, device)
  end.

(** The bitmap copied into a block: [bitmap_block[:copy_len] =
    bitmap_data[:copy_len]]. *)
Definition bitmap_block (a : BlockAllocator.t) : bytes :=
  let bitmap_data := BlockAllocator.to_bytes a in
  let bitmap_block := zeros BLOCK_SIZE in
  let copy_len := Z.min (len bitmap_data) BLOCK_SIZE in
  set_slice bitmap_block 0 copy_len (slice bitmap_data 0 copy_len).

Definition _sync : M unit :=
  (modify (fun fs =>
     set_superblock fs
       (Superblock.set_free_blocks (superblock fs)
          (BlockAllocator.free_blocks (allocator fs)))) ;;;
   sb <- read (fun fs => Superblock.to_bytes (superblock fs)) ;;
   write_block (Some 0) sb ;;;
   bm <- read (fun fs => Ok (bitmap_block (allocator fs))) ;;
   write_block (Some 1) bm ;;;
   (fun fs =>
      let (r, d) := _write_inode_table (device fs) (inode_table fs) in
      (r, set_device fs d)))%fs.

(** *** Directory blocks *)

(** The [while] loop of [_add_dir_entry]: the offset of the end of the
    entries. *)
Fixpoint end_of_entries (fuel : nat) (block_data : bytes) (offset : Z)
  : result Z :=
  match fuel with
  | O => Ok offset
  | S k =>
      if offset <? BLOCK_SIZE then
        (b <- getitem block_data offset ;;
         if b =? 0 then Ok offset
         else if offset + 8 <=? BLOCK_SIZE then
           ' (_, size) <- DirEntry.from_bytes (slice_from block_data offset) ;;
           end_of_entries k block_data (offset + size)
         else Ok offset)%res
      else Ok offset
  end.

Definition _add_dir_entry (dir_inode_num : option Z) (name : pystr)
           (inode_num : Z) : M unit :=
  (entry_bytes <- lift (DirEntry.to_bytes (DirEntry.mk inode_num name)) ;;
   inode <- read (fun fs => Ok (table_get_opt dir_inode_num (inode_table fs))) ;;
   match dir_inode_num, inode with
   | Some dir, Some inode =>
       block_num <-
         (if Inode.block_count inode =? 0 then
            new_block <- allocate_block ;;
            update_inode dir (fun ino =>
              Inode.set_block_count (Inode.set_direct_block ino 0 new_block) 1) ;;;
            ret new_block
          else lift (Inode.direct_block inode 0)) ;;
       block_data <- read (fun fs => read_block fs block_num) ;;
       offset <- lift (end_of_entries SCAN_FUEL block_data 0) ;;
       if offset + len entry_bytes >? BLOCK_SIZE then ret tt
       else
         let block_data :=
           set_slice block_data offset (offset + len entry_bytes) entry_bytes in
         write_block block_num block_data
   | _, _ => ret tt
   end)%fs.

(** The [while] loop of [_remove_dir_entry]: the entries kept. *)
Fixpoint kept_entries (fuel : nat) (block_data : bytes) (name : pystr)
         (offset : Z) (entries : list DirEntry.t) : result (list DirEntry.t) :=
  match fuel with
  | O => Ok entries
  | S k =>
      if offset <? BLOCK_SIZE then
        (b <- getitem block_data offset ;;
         if b =? 0 then Ok entries
         else if offset + 8 <=? BLOCK_SIZE then
           ' (entry, size) <- DirEntry.from_bytes (slice_from block_data offset) ;;
           kept_entries k block_data name (offset + size)
             (if negb (str_eqb (DirEntry.name entry) name)
              then (entries ++ [entry])%list else entries)
         else Ok entries)%res
      else Ok entries
  end.

(** The [for entry in entries] loop of [_remove_dir_entry]. *)
Fixpoint repack (entries : list DirEntry.t) (block_data : bytes)
         (write_offset : Z) : result bytes :=
  match entries with
  | [] => Ok block_data
  | entry :: rest =>
      (entry_bytes <- DirEntry.to_bytes entry ;;
       if write_offset + len entry_bytes <=? BLOCK_SIZE then
         repack rest
           (set_slice block_data write_offset
                      (write_offset + len entry_bytes) entry_bytes)
           (write_offset + len entry_bytes)
       else repack rest block_data write_offset)%res
  end.

(** The [for] loop of [_remove_dir_entry] over [range(i, i + n)]: it
    returns after the first block rewritten. *)
Fixpoint remove_blocks (inode : Inode.t) (name : pystr) (n : nat) (i : Z)
  : M unit :=
  match n with
  | O => ret tt
  | S k =>
      if DIRECT_BLOCKS <=? i then ret tt
      else
        (block_num <- lift (Inode.direct_block inode i) ;;
         if is_zero block_num then remove_blocks inode name k (i + 1)
         else
           block_data <- read (fun fs => read_block fs block_num) ;;
           entries <- lift (kept_entries SCAN_FUEL block_data name 0 []) ;;
           block_data <- lift (repack entries (zeros BLOCK_SIZE) 0) ;;
           write_block block_num block_data)%fs
  end.

Definition _remove_dir_entry (dir_inode_num : option Z) (name : pystr)
  : M unit :=
  (inode <- read (fun fs => Ok (table_get_opt dir_inode_num (inode_table fs))) ;;
   match inode with
   | None => ret tt
   | Some inode =>
       remove_blocks inode name (Z.to_nat (Inode.block_count inode)) 0
   end)%fs.

(** *** The public operations *)

(** [self.inode_table[k] = inode], and every later write to an
    attribute of the object [inode] stored under [k]. *)
Definition store_inode (k : Z) (inode : Inode.t) : M unit :=
  modify (fun fs => set_inode_table fs (table_set k inode (inode_table fs))).

(** [inode_num = self.next_inode; self.next_inode += 1]. *)
Definition take_inode_num : M Z :=
  fun fs => (Ok (next_inode fs), set_next_inode fs (next_inode fs + 1)).

(** [create_file(path)]; with [_split_path] returning [(None, None)]
    the call [_find_inode(None)] is an [AttributeError]. *)
Definition create_file (path : pystr) (now : Z) : M unit :=
  match _split_path path with
  | None => raise AttributeError
  | Some (parent_path, filename) =>
      (parent_inode_num <- read (fun fs => _find_inode fs parent_path) ;;
       existing <- read (fun fs =>
                     _lookup_in_directory fs parent_inode_num filename) ;;
       match existing with
       | Some _ => ret tt
       | None =>
           inode_num <- take_inode_num ;;
           let new_inode := Inode.init REGULAR now in
           store_inode inode_num new_inode ;;;
           _add_dir_entry parent_inode_num filename inode_num ;;;
           _sync
       end)%fs
  end.

Definition create_directory (path : pystr) (now : Z) : M unit :=
  match _split_path path with
  | None => raise AttributeError
  | Some (parent_path, dirname) =>
      (parent_inode_num <- read (fun fs => _find_inode fs parent_path) ;;
       existing <- read (fun fs =>
                     _lookup_in_directory fs parent_inode_num dirname) ;;
       match existing with
       | Some _ => ret tt
       | None =>
           dir_block <- allocate_block ;;
           inode_num <- take_inode_num ;;
           let new_inode := Inode.init DIRECTORY now in
           let new_inode :=
             Inode.set_block_count
               (Inode.set_direct_block new_inode 0 dir_block) 1 in
           store_inode inode_num new_inode ;;;
           let empty_block := zeros BLOCK_SIZE in
           write_block dir_block empty_block ;;;
           _add_dir_entry parent_inode_num dirname inode_num ;;;
           _sync
       end)%fs
  end.

(** The first loop of [write_file] over [range(i, i + n)]; [inode] is
    the object stored under [k]. *)
Fixpoint free_existing (k : Z) (inode : Inode.t) (n : nat) (i : Z)
  : M Inode.t :=
  match n with
  | O => ret inode
  | S m =>
      if i <? DIRECT_BLOCKS then
        (b <- lift (Inode.direct_block inode i) ;;
         if negb (is_zero b) then
           free_block b ;;;
           let inode := Inode.set_direct_block inode i (Some 0) in
           store_inode k inode ;;;
           free_existing k inode m (i + 1)
         else free_existing k inode m (i + 1))%fs
      else free_existing k inode m (i + 1)
  end.

(** The second loop of [write_file] over [range(i, i + n)]. *)
Fixpoint write_blocks (k : Z) (inode : Inode.t) (data : bytes) (n : nat)
         (i : Z) (written : Z) : M Inode.t :=
  match n with
  | O => ret inode
  | S m =>
      (block <- allocate_block ;;
       let inode := Inode.set_direct_block inode i block in
       store_inode k inode ;;;
       let block_data := zeros BLOCK_SIZE in
       let to_write := Z.min (len data - written) BLOCK_SIZE in
       let block_data :=
         set_slice block_data 0 to_write
                   (slice data written (written + to_write)) in
       write_block block block_data ;;;
       write_blocks k inode data m (i + 1) (written + to_write))%fs
  end.

Definition write_file (path : pystr) (data : bytes) (now : Z) : M unit :=
  (inode_num <- read (fun fs => _find_inode fs path) ;;
   inode <- read (fun fs => Ok (table_get_opt inode_num (inode_table fs))) ;;
   match inode_num, inode with
   | Some k, Some inode =>
       if negb (FileType_eqb (Inode.file_type inode) REGULAR) then ret tt
       else
         inode <- free_existing k inode (Z.to_nat (Inode.block_count inode)) 0 ;;
         let blocks_needed := (len data + BLOCK_SIZE - 1) / BLOCK_SIZE in
         inode <- write_blocks k inode data
                    (Z.to_nat (Z.min blocks_needed DIRECT_BLOCKS)) 0 0 ;;
         store_inode k
           (Inode.mk (Inode.file_type inode) (len data) blocks_needed
                     (Inode.direct_blocks inode) (Inode.indirect_block inode)
                     (Inode.double_indirect_block inode)
                     (Inode.created inode) now (Inode.accessed inode)) ;;;
         _sync
   | _, _ => ret tt
   end)%fs.

(** The loop of [delete_file] over [range(i, i + n)]. *)
Fixpoint free_blocks_of (inode : Inode.t) (n : nat) (i : Z) : M unit :=
  match n with
  | O => ret tt
  | S m =>
      if i <? DIRECT_BLOCKS then
        (b <- lift (Inode.direct_block inode i) ;;
         if negb (is_zero b) then
           free_block b ;;; free_blocks_of inode m (i + 1)
         else free_blocks_of inode m (i + 1))%fs
      else free_blocks_of inode m (i + 1)
  end.

Definition delete_file (path : pystr) : M unit :=
  match _split_path path with
  | None => raise AttributeError
  | Some (parent_path, filename) =>
      (parent_inode_num <- read (fun fs => _find_inode fs parent_path) ;;
       file_inode_num <- read (fun fs =>
                           _lookup_in_directory fs parent_inode_num filename) ;;
       inode <- read (fun fs =>
                  Ok (table_get_opt file_inode_num (inode_table fs))) ;;
       match file_inode_num, inode with
       | Some k, Some inode =>
           free_blocks_of inode (Z.to_nat (Inode.block_count inode)) 0 ;;;
           modify (fun fs => set_inode_table fs (table_del k (inode_table fs))) ;;;
           _remove_dir_entry parent_inode_num filename ;;;
           _sync
       | _, _ => ret tt
       end)%fs
  end.

(** *** Mounting *)

(** [FileSystem.create(path, size_mb)] at clock value [now]. *)
Definition create (size_mb now : Z) : result t :=
  (let device := BlockDevice.create size_mb in
   let total_blocks := BlockDevice.block_count device in
   allocator <- BlockAllocator.init total_blocks ;;
   let inode_count := 1000 in
   let superblock := Superblock.init total_blocks inode_count in
   sb <- Superblock.to_bytes superblock ;;
   let device := BlockDevice.write_block device 0 sb in
   let device := BlockDevice.write_block device 1 (bitmap_block allocator) in
   let root_inode := Inode.init DIRECTORY now in
   let (root_block, allocator) := BlockAllocator.allocate_block allocator in
   let root_inode :=
     Inode.set_block_count (Inode.set_direct_block root_inode 0 root_block) 1 in
   let inode_table := [(1, root_inode)] in
   match root_block with
   | None => Raise TypeError
   | Some b =>
       let empty_block := zeros BLOCK_SIZE in
       let device := BlockDevice.write_block device b empty_block in
       match _write_inode_table device inode_table with
       | (Raise e, _) => Raise e
       | (Ok _, device) => Ok (mk device allocator superblock inode_table 2)
       end
   end)%res.

(** The [while] loop of [_read_inode_table]. *)
Fixpoint read_inodes (fuel : nat) (block_data : bytes) (offset : Z)
         (inode_table : table) : result table :=
  match fuel with
  | O => Ok inode_table
  | S k =>
      if offset + 4 + INODE_SIZE <=? BLOCK_SIZE then
        (inode_num <- unpack_I (slice block_data offset (offset + 4)) ;;
         if inode_num =? 0 then Ok inode_table
         else
           let inode_data :=
             slice block_data (offset + 4) (offset + 4 + INODE_SIZE) in
           inode <- Inode.from_bytes inode_data ;;
           read_inodes k block_data (offset + 4 + INODE_SIZE)
                       (table_set inode_num inode inode_table))%res
      else Ok inode_table
  end.

Definition _read_inode_table (device : BlockDevice.t) : result table :=
  read_inodes TABLE_FUEL (BlockDevice.read_block device 2) 0 [].

(** [max(inode_table.keys(), default=1)]. *)
Definition max_key (tb : table) : Z :=
  match table_keys tb with
  | [] => 1
  | k :: ks => fold_left Z.max ks k
  end.

(** [FileSystem.open(path)] on a host file of content [f]. *)
Definition open (f : bytes) : result t :=
  (let device := BlockDevice.open f in
   let superblock_data := BlockDevice.read_block device 0 in
   superblock <- Superblock.from_bytes superblock_data ;;
   let bitmap_data := BlockDevice.read_block device 1 in
   let allocator :=
     BlockAllocator.from_bytes bitmap_data (Superblock.total_blocks superblock) in
   inode_table <- _read_inode_table device ;;
   let next_inode := max_key inode_table + 1 in
   Ok (mk device allocator superblock inode_table next_inode))%res.

(** [fs.close()] followed by [FileSystem.open] on the same host file. *)
Definition reopen (fs : t) : result t :=
  open (BlockDevice.file (device fs)).

(** *** [tree] *)

Definition connector (is_last : bool) : pystr :=
  if is_last then CONNECTOR_LAST else CONNECTOR_MIDDLE.

(** The [for i, entry in enumerate(entries)] loop of [tree], from index
    [i] on; [rec] is the recursive call [self.tree] with its copy of
    [visited]. *)
Fixpoint tree_children
         (rec : pystr -> pystr -> bool -> option (result (list pystr)))
         (path prefix : pystr) (count : Z) (rest : list pystr) (i : Z)
         (lines : list pystr) : option (result (list pystr)) :=
  match rest with
  | [] => Some (Ok lines)
  | entry :: rest' =>
      let is_last_entry := i =? count - 1 in
      let child_path :=
        if str_eqb path (py "/") then py "/" ++ entry
        else path ++ py "/" ++ entry in
      let new_prefix :=
        if str_eqb prefix [] then [TAB] else prefix ++ [TAB] in
      match rec child_path new_prefix is_last_entry with
      | None => None
      | Some (Raise e) => Some (Raise e)
      | Some (Ok child_lines) =>
          tree_children rec path prefix count rest' (i + 1)
                        (lines ++ child_lines)
      end
  end%list.

(** [tree(path, prefix, is_last, visited)]: [visited] is the set of
    inode numbers; [fuel] bounds the depth of the recursion and [None]
    is the outcome of running out of it. *)
Fixpoint tree_rec (fuel : nat) (fs : t) (path prefix : pystr)
         (is_last : bool) (visited : list Z) : option (result (list pystr)) :=
  match fuel with
  | O => None
  | S fuel' =>
      match _find_inode fs path with
      | Raise e => Some (Raise e)
      | Ok None => Some (Ok [])
      | Ok (Some inode_num) =>
          if existsb (Z.eqb inode_num) visited then
            Some (Ok [prefix ++ connector is_last ++ CYCLE_MARKER])
          else
            let visited := inode_num :: visited in
            match table_get inode_num (inode_table fs) with
            | None => Some (Ok [])
            | Some inode =>
                let name :=
                  if str_eqb path (py "/") then py "/"
                  else last (split_slash path) [] in
                let icon :=
                  match Inode.file_type inode with
                  | DIRECTORY => ICON_DIRECTORY
                  | REGULAR => ICON_FILE
                  end in
                let lines :=
                  if str_eqb prefix [] then [icon ++ name]
                  else [prefix ++ connector is_last ++ icon ++ name] in
                match Inode.file_type inode with
                | REGULAR => Some (Ok lines)
                | DIRECTORY =>
                    match list_directory fs path with
                    | Raise e => Some (Raise e)
                    | Ok entries =>
                        tree_children
                          (fun child_path new_prefix is_last_entry =>
                             tree_rec fuel' fs child_path new_prefix
                                      is_last_entry visited)
                          path prefix (len entries) entries 0 lines
                    end
                end
            end
      end
  end%list.

(** The recursion descends only into inodes of the table that are not
    yet visited, so its depth is at most the size of the table. *)
Definition tree (fs : t) (path prefix : pystr) (is_last : bool)
           (visited : list Z) : option (result (list pystr)) :=
  tree_rec (S (List.length (inode_table fs))) fs path prefix is_last visited.

(** *** Information *)

(** [get_file_info(path)]. *)
Definition get_file_info (fs : t) (path : pystr) : result (option FileInfo.t) :=
  (inode_num <- _find_inode fs path ;;
   match table_get_opt inode_num (inode_table fs) with
   | None => Ok None
   | Some inode =>
       Ok (Some (FileInfo.mk (Inode.file_type inode) (Inode.size inode)
                             (Inode.created inode) (Inode.modified inode)
                             (Inode.accessed inode)))
   end)%res.

(** [get_stats()]. *)
Definition get_stats (fs : t) : FsStats.t :=
  FsStats.mk (Superblock.total_blocks (superblock fs))
             (BlockAllocator.free_blocks (allocator fs))
             (Superblock.inode_count (superblock fs))
             (len (inode_table fs)).
End Engine.
End FileSystem.

(** The scans and the buffers are unfolded on demand only. *)
Arguments zeros : simpl never.
Arguments FileSystem.lookup_entries : simpl never.
Arguments FileSystem.list_entries : simpl never.
Arguments FileSystem.end_of_entries : simpl never.
Arguments FileSystem.kept_entries : simpl never.
Arguments FileSystem.read_inodes : simpl never.

(** ** tools/shell.py *)

Module Shell.
Import FileSystem.

(** The values of the dictionaries [execute_command] returns. *)
Inductive value : Type :=
| Str (s : pystr)
| Int (n : Z)
| StrList (l : list pystr)
| Dict (d : list (pystr * pystr)).

(** A returned dictionary, in the order of its keys. *)
Definition response := list (pystr * value).

Section Commands.
Context {codec : Utf8}.

(** [create_filesystem(img_path, size_mb)]: the dictionary returned and
    the host file left by [FileSystem.create] and [close]. *)
Definition create_filesystem (img_path : pystr) (size_mb now : Z)
  : result (response * bytes) :=
  (fs <- FileSystem.create size_mb now ;;
   Ok ([(py "status", Str (py "success"));
        (py "message", Str (py "Filesystem created at " ++ img_path))],
       BlockDevice.file (device fs)))%res.

(** [open_filesystem(img_path)] on a host file of content [f]. *)
Definition open_filesystem (f : bytes) : result FileSystem.t :=
  FileSystem.open f.

Definition type_name (file_type : FileType) : pystr :=
  if FileType_eqb file_type REGULAR then py "REGULAR" else py "DIRECTORY".

(** [fs.tree(path)]; [tree] returns on every object, its [None] is not
    an outcome. *)
Definition tree_lines (fs : FileSystem.t) (path : pystr) : result (list pystr) :=
  match tree fs path [] true [] with
  | Some r => r
  | None => Ok []
  end.

Definition usage (text : string) : M response :=
  ret [(py "error", Str (py text))].

Definition success (message : pystr) : M response :=
  ret [(py "status", Str (py "success")); (py "message", Str message)].

(** [execute_command(fs, command, args)] at clock value [now];
    [args[i]] is read only where [len(args)] has been checked. *)
Definition execute_command (command : pystr) (args : option (list pystr))
           (now : Z) : M response :=
  let args := match args with Some a => a | None => [] end in
  let arg := fun i => nth i args [] in
  if str_eqb command (py "help") then
    ret [(py "commands",
          Dict [(py "ls", py "List directory");
                (py "tree", py "Show directory tree");
                (py "mkdir", py "Create directory");
                (py "touch", py "Create empty file");
                (py "write", py "Write text to file");
                (py "read", py "Read file content");
                (py "rm", py "Delete file");
                (py "info", py "Show file info");
                (py "stats", py "Show filesystem statistics")])]
  else if str_eqb command (py "ls") then
    let path := if len args >? 0 then arg 0%nat else py "/" in
    (entries <- read (fun fs => list_directory fs path) ;;
     ret [(py "path", Str path); (py "entries", StrList entries)])%fs
  else if str_eqb command (py "tree") then
    let path := if len args >? 0 then arg 0%nat else py "/" in
    (tree_lines <- read (fun fs => tree_lines fs path) ;;
     ret [(py "path", Str path); (py "tree", StrList tree_lines)])%fs
  else if str_eqb command (py "mkdir") then
    if len args <? 1 then usage "Usage: mkdir <path>"
    else
      (create_directory (arg 0%nat) now ;;;
       success (py "Created directory: " ++ arg 0%nat))%fs
  else if str_eqb command (py "touch") then
    if len args <? 1 then usage "Usage: touch <path>"
    else
      (create_file (arg 0%nat) now ;;;
       success (py "Created file: " ++ arg 0%nat))%fs
  else if str_eqb command (py "write") then
    if len args <? 2 then usage "Usage: write <path> <text>"
    else
      (data <- lift (encode_utf8 (arg 1%nat)) ;;
       write_file (arg 0%nat) data now ;;;
       success (py "Wrote to file: " ++ arg 0%nat))%fs
  else if str_eqb command (py "read") then
    if len args <? 1 then usage "Usage: read <path>"
    else
      (data <- read (fun fs => read_file fs (arg 0%nat)) ;;
       let text := decode_utf8 data in
       ret [(py "path", Str (arg 0%nat)); (py "content", Str text)])%fs
  else if str_eqb command (py "rm") then
    if len args <? 1 then usage "Usage: rm <path>"
    else
      (delete_file (arg 0%nat) ;;;
       success (py "Deleted: " ++ arg 0%nat))%fs
  else if str_eqb command (py "info") then
    if len args <? 1 then usage "Usage: info <path>"
    else
      (info <- read (fun fs => get_file_info fs (arg 0%nat)) ;;
       match info with
       | Some info =>
           ret [(py "path", Str (arg 0%nat));
                (py "type", Str (type_name (FileInfo.file_type info)));
                (py "size", Int (FileInfo.size info));
                (py "created", Int (FileInfo.created info));
                (py "modified", Int (FileInfo.modified info));
                (py "accessed", Int (FileInfo.accessed info))]
       | None =>
           ret [(py "error", Str (py "File not found: " ++ arg 0%nat))]
       end)%fs
  else if str_eqb command (py "stats") then
    (stats <- read (fun fs => Ok (get_stats fs)) ;;
     ret [(py "total_blocks", Int (FsStats.total_blocks stats));
          (py "free_blocks", Int (FsStats.free_blocks stats));
          (py "used_blocks",
           Int (FsStats.total_blocks stats - FsStats.free_blocks stats));
          (py "total_inodes", Int (FsStats.total_inodes stats));
          (py "used_inodes", Int (FsStats.used_inodes stats));
          (py "free_inodes",
           Int (FsStats.total_inodes stats - FsStats.used_inodes stats))])%fs
  else
    ret [(py "error", Str (py "Unknown command: " ++ command))].
End Commands.

End Shell.

(** ** tools/tools.py *)

Module Tools.

(** The binary digits of a positive number, most significant first. *)
Fixpoint bin_digits (p : positive) (acc : pystr) : pystr :=
  match p with
  | xH => 49%N :: acc
  | xO q => bin_digits q (48%N :: acc)
  | xI q => bin_digits q (49%N :: acc)
  end.

(** [bin(n)]. *)
Definition bin (n : Z) : pystr :=
  match n with
  | Z0 => py "0b0"
  | Zpos p => py "0b" ++ bin_digits p []
  | Zneg p => py "-0b" ++ bin_digits p []
  end.

(** [read_bin_file(path)] on a host file of content [content]:
    [int.from_bytes(content, byteorder='little')] in binary. *)
Definition read_bin_file (content : bytes) : pystr :=
  let number := le_value content in
  bin number.

End Tools.

(** ** Runs of the public operations *)

Inductive op : Type :=
| CreateFile (path : pystr) (now : Z)
| CreateDirectory (path : pystr) (now : Z)
| WriteFile (path : pystr) (data : bytes) (now : Z)
| DeleteFile (path : pystr).

(** A step of the life of an image: a call on the mounted object, or
    [close()] followed by [FileSystem.open]. *)
Inductive event : Type :=
| Call (o : op)
| Reopen.

Section Runs.
Context {codec : Utf8}.

Definition call (o : op) : FileSystem.M unit :=
  match o with
  | CreateFile path now => FileSystem.create_file path now
  | CreateDirectory path now => FileSystem.create_directory path now
  | WriteFile path data now => FileSystem.write_file path data now
  | DeleteFile path => FileSystem.delete_file path
  end.

(** The object after the call, whether it returned or raised. *)
Definition exec (fs : FileSystem.t) (o : op) : FileSystem.t := snd (call o fs).

Definition run (fs : FileSystem.t) (ops : list op) : FileSystem.t :=
  fold_left exec ops fs.

(** The states reached from a freshly created image. *)
Definition reachable (fs : FileSystem.t) : Prop :=
  exists size_mb now fs0 ops,
    FileSystem.create size_mb now = Ok fs0 /\ fs = run fs0 ops.

(** The inode numbers present after a call and absent before it: the
    numbers the call assigned. *)
Definition new_inode_numbers (before after : FileSystem.t) : list Z :=
  filter (fun k => negb (existsb (Z.eqb k)
                           (table_keys (FileSystem.inode_table before))))
         (table_keys (FileSystem.inode_table after)).

(** The inode numbers assigned along a run, in order. *)
Fixpoint assigned (fs : FileSystem.t) (ops : list op) : list Z :=
  match ops with
  | [] => []
  | o :: rest => new_inode_numbers fs (exec fs o) ++ assigned (exec fs o) rest
  end.

(** The same along a run with remounts; a failed mount ends the run. *)
Fixpoint assigned_events (fs : FileSystem.t) (evs : list event) : list Z :=
  match evs with
  | [] => []
  | Call o :: rest =>
      new_inode_numbers fs (exec fs o) ++ assigned_events (exec fs o) rest
  | Reopen :: rest =>
      match FileSystem.reopen fs with
      | Ok fs' => assigned_events fs' rest
      | Raise _ => []
      end
  end.
End Runs.

(** Every inode number of the table is below the next number to assign. *)
Definition keys_below_next (fs : FileSystem.t) : Prop :=
  Forall (fun k => k < FileSystem.next_inode fs)
         (table_keys (FileSystem.inode_table fs)).

(** The bounds of an inode as the specification states them, and as the
    code keeps them. *)
Definition inode_bounds_spec (i : Inode.t) : Prop :=
  0 <= Inode.block_count i <= DIRECT_BLOCKS /\
  Inode.size i <= Inode.block_count i * BLOCK_SIZE.

Definition inode_bounds (i : Inode.t) : Prop :=
  0 <= Inode.block_count i /\
  Inode.size i <= Inode.block_count i * BLOCK_SIZE /\
  (Inode.size i <= DIRECT_BLOCKS * BLOCK_SIZE ->
   Inode.block_count i <= DIRECT_BLOCKS).

(** The changes the operations make to an inode of the table. *)
Inductive inode_step (old : Inode.t) : Inode.t -> Prop :=
| step_slot i b : inode_step old (Inode.set_direct_block old i b)
| step_first_block b :
    Inode.block_count old = 0 ->
    inode_step old (Inode.set_block_count (Inode.set_direct_block old 0 b) 1)
| step_resize (data : bytes) now :
    inode_step old
      (Inode.mk (Inode.file_type old) (len data)
                ((len data + BLOCK_SIZE - 1) / BLOCK_SIZE)
                (Inode.direct_blocks old) (Inode.indirect_block old)
                (Inode.double_indirect_block old)
                (Inode.created old) now (Inode.accessed old)).

(** The inodes the operations add to the table. *)
Inductive inode_fresh : Inode.t -> Prop :=
| fresh_file now : inode_fresh (Inode.init REGULAR now)
| fresh_directory now b :
    inode_fresh
      (Inode.set_block_count
         (Inode.set_direct_block (Inode.init DIRECTORY now) 0 b) 1).

(** The little-endian 32-bit value stored at offset [i] of [b]. *)
Definition u32_at (b : bytes) (i : nat) : Z :=
  nth i b 0 + 256 * nth (i + 1) b 0 + 65536 * nth (i + 2) b 0
  + 16777216 * nth (i + 3) b 0.

(** ** Specifications of the mutating methods *)

(** [triple E P m Q]: from an object satisfying [P], the method [m] returns
    a value and an object satisfying [Q], or raises and leaves an object
    satisfying [E]. *)
Definition triple {A} (E P : FileSystem.t -> Prop) (m : FileSystem.M A)
           (Q : A -> FileSystem.t -> Prop) : Prop :=
  forall fs, P fs ->
    match m fs with
    | (Ok a, fs') => Q a fs'
    | (Raise _, fs') => E fs'
    end.

(** [m] changes neither the inode table nor [next_inode], whatever its
    outcome. *)
Definition frames {A} (m : FileSystem.M A) : Prop :=
  forall fs,
    FileSystem.inode_table (snd (m fs)) = FileSystem.inode_table fs /\
    FileSystem.next_inode (snd (m fs)) = FileSystem.next_inode fs.

(** A property [T] of the inode table and of the counter, as a property of
    the object; and the same with [inode] the object stored under [k]. *)
Definition Inv (T : table -> Z -> Prop) (fs : FileSystem.t) : Prop :=
  T (FileSystem.inode_table fs) (FileSystem.next_inode fs).

Definition Inv_at (T : table -> Z -> Prop) (k : Z) (inode : Inode.t)
           (fs : FileSystem.t) : Prop :=
  Inv T fs /\ table_get k (FileSystem.inode_table fs) = Some inode.

Definition all_bounded (tb : table) (nx : Z) : Prop :=
  forall i, In i (map snd tb) -> inode_bounds i.

(** Relative to the keys [K0] and the counter [n0] of an earlier table,
    with [K0] below [n0]: the counter has not decreased, every key is below
    it, the keys below [n0] are keys of [K0], and the keys from [n0] on sit
    in the table in increasing order. *)
Definition numbered (K0 : list Z) (n0 : Z) (tb : table) (nx : Z) : Prop :=
  n0 <= nx /\
  Forall (fun k => k < nx) (table_keys tb) /\
  (forall k, In k (table_keys tb) -> k < n0 -> In k K0) /\
  StronglySorted Z.lt (filter (fun k => n0 <=? k) (table_keys tb)).

(** The file system object of a mount: made by [create] or by [open]. *)
Definition mounted_by (fs : FileSystem.t) : Prop :=
  (exists size_mb now, FileSystem.create size_mb now = Ok fs) \/
  (exists f, FileSystem.open f = Ok fs).

(** The number of inodes of the table that a [tree] call with the set
    [visited] has not visited. *)
Definition unvisited (fs : FileSystem.t) (visited : list Z) : nat :=
  List.length
    (filter (fun k => negb (existsb (Z.eqb k) visited))
            (table_keys (FileSystem.inode_table fs))).

(** Lists whose elements can be bytes. *)
Definition is_bytes (l : bytes) : Prop := Forall (fun b => 0 <= b) l.

(** ** A concrete runtime and concrete images *)

(** The codec on ASCII, where UTF-8 is the identity on the code points
    below 128; the examples use ASCII names only. *)
Definition ascii_encode (s : pystr) : result bytes :=
  if forallb (fun c => N.ltb c 128) s then Ok (map Z.of_N s)
  else Raise UnicodeEncodeError.

Definition ascii_decode (b : bytes) : pystr :=
  map (fun x => if (0 <=? x) && (x <? 128) then Z.to_N x else 0xFFFD%N) b.

Definition ascii_codec : Utf8 :=
  {| encode_utf8 := ascii_encode; decode_utf8 := ascii_decode |}.

Definition ascii_bytes (s : string) : bytes := map Z.of_N (py s).

Section Examples.
#[local] Existing Instance ascii_codec.

Definition unmounted : FileSystem.t :=
  FileSystem.mk (BlockDevice.mk [] 0) (BlockAllocator.mk 0 [])
                (Superblock.init 0 0) [] 1.

(** The object of a mount that succeeded. *)
Definition mounted (r : result FileSystem.t) : FileSystem.t :=
  match r with
  | Ok fs => fs
  | Raise _ => unmounted
  end.

Definition is_ok {A} (r : result A) : bool :=
  match r with Ok _ => true | Raise _ => false end.

(** [FileSystem.create("a.img", 1)] at clock value 1000. *)
Definition fresh_fs : FileSystem.t := mounted (FileSystem.create 1 1000).

(** The same image closed and mounted again, as the front ends do. *)
Definition remounted_fs : FileSystem.t := mounted (FileSystem.reopen fresh_fs).

(** What a read-only call returns after [close()] and [FileSystem.open]. *)
Definition after_reopen {A} (fs : FileSystem.t)
           (f : FileSystem.t -> result A) : result A :=
  match FileSystem.reopen fs with
  | Ok fs' => f fs'
  | Raise e => Raise e
  end.

(** A file written with one byte more than twelve blocks hold. *)
Definition oversized : list op :=
  [CreateFile (py "/f") 1001; WriteFile (py "/f") (zeros 49153) 1002].

Definition oversized_fs : FileSystem.t := run fresh_fs oversized.

Definition oversized_inode : Inode.t :=
  Inode.mk REGULAR 49153 13
    [Some 11; Some 12; Some 13; Some 14; Some 15; Some 16;
     Some 17; Some 18; Some 19; Some 20; Some 21; Some 22]
    0 0 1001 1002 1001.

(** A file created and deleted, then a second file created: within one
    mount, and with a remount before the second creation. *)
Definition create_delete_create : list op :=
  [CreateFile (py "/a") 1001; DeleteFile (py "/a"); CreateFile (py "/b") 1002].

Definition create_delete_reopen_create : list event :=
  [Call (CreateFile (py "/a") 1001); Call (DeleteFile (py "/a")); Reopen;
   Call (CreateFile (py "/b") 1002)].

(** A file created on the remounted image, and five bytes written to it. *)
Definition hello : bytes := ascii_bytes "hello".

Definition remounted_with_file : FileSystem.t :=
  exec remounted_fs (CreateFile (py "/f") 1001).

Definition remounted_written : FileSystem.t :=
  exec remounted_with_file (WriteFile (py "/f") hello 1002).

(** Thirty-one files in the root directory: thirty-two inodes. *)
Definition names : list pystr :=
  map (fun c => [c]) (py "abcdefghijklmnopqrstuvwxyzABCDE").

Definition many_files : list op :=
  map (fun name => CreateFile (SLASH :: name) 1001) names.

Definition crowded_fs : FileSystem.t := run fresh_fs many_files.

(** A 44 KiB image laid out as [create] lays one out: a superblock with
    [total_blocks = 11], a bitmap with the blocks 0 to 10 in use, the root
    directory as inode 1 with its block 10; no block is free. *)
Definition full_image : bytes :=
  ([239; 190; 173; 222;  0; 16; 0; 0;  11; 0; 0; 0;  232; 3; 0; 0;
    0; 0; 0; 0;  1; 0; 0; 0] ++ zeros 4072)
  ++ ([255; 7] ++ zeros 4094)
  ++ ([1; 0; 0; 0;  2; 0; 0; 0;  0; 0; 0; 0;  1; 0; 0; 0;  10; 0; 0; 0]
        ++ zeros 4076)
  ++ zeros (8 * 4096).

Definition full_fs : FileSystem.t := mounted (FileSystem.open full_image).

Definition full_with_file : FileSystem.t :=
  exec full_fs (CreateFile (py "/f") 1001).

(** A directory made on the remounted image: it shares block 10 with the
    root directory and so contains itself. *)
Definition cyclic_fs : FileSystem.t :=
  exec remounted_fs (CreateDirectory (py "/d") 1001).

(** A file in the root directory of the fresh image. *)
Definition fresh_with_file : FileSystem.t :=
  exec fresh_fs (CreateFile (py "/f") 1001).
End Examples.

(** ** Predicates and closed forms of the properties *)

Section Vocabulary.
Import FileSystem.

Definition u32 (v : Z) : Prop := 0 <= v < 4294967296.

Definition u64 (v : Z) : Prop := 0 <= v < 18446744073709551616.

Definition slot_values (slots : list (option Z)) (vs : list Z) : Prop :=
  slots = map Some vs /\ Forall u32 vs.

(** [d'] is [d] after writes of whole blocks at block numbers in [P]:
    the blocks of [d] outside [P] read the same, and the file has not
    shrunk. *)
Definition differs_only (P : Z -> Prop) (d d' : BlockDevice.t) : Prop :=
  len (BlockDevice.file d) <= len (BlockDevice.file d') /\
  BlockDevice.block_count d' = BlockDevice.block_count d /\
  forall m, 0 <= m -> ~ P m ->
    (m + 1) * BLOCK_SIZE <= len (BlockDevice.file d) ->
    BlockDevice.read_block d' m = BlockDevice.read_block d m.

Definition components (p : pystr) : list pystr := filter nonempty (split_slash p).

(** An inode that [Inode.to_bytes] serialises, and a table of such inodes
    under keys that [struct.pack('<I', ...)] takes and that do not end the
    scan of [_read_inode_table]. *)
Definition serialisable (ino : Inode.t) : Prop :=
  List.length (Inode.direct_blocks ino) = 12%nat /\
  exists b, Inode.to_bytes ino = Ok b.

Definition on_disk_entry (kv : Z * Inode.t) : Prop :=
  0 < fst kv < 4294967296 /\ serialisable (snd kv).

Definition table_on_disk (tb : table) : Prop :=
  NoDup (table_keys tb) /\ Forall on_disk_entry tb.

(** The entries that are in the block buffer of [_write_inode_table] after
    the entries [items], when it held [batch]: a full buffer is written
    out and started again. *)
Fixpoint last_batch (batch items : table) : table :=
  match items with
  | [] => batch
  | kv :: rest =>
      if (31 <=? List.length batch)%nat then last_batch [kv] rest
      else last_batch (batch ++ [kv]) rest
  end.

Definition inode_bytes (ino : Inode.t) : bytes :=
  match Inode.to_bytes ino with Ok b => b | Raise _ => [] end.

Definition record_bytes (kv : Z * Inode.t) : bytes :=
  le_bytes 4 (fst kv) ++ inode_bytes (snd kv).

(** The block buffer holding the records of [batch]. *)
Definition table_block (batch : table) : bytes :=
  List.concat (map record_bytes batch)
  ++ zeros (BLOCK_SIZE - 132 * len batch).

(** Two objects with the same host file, inode table and root inode. *)
Definition same_content (fs fs' : t) : Prop :=
  BlockDevice.file (device fs) = BlockDevice.file (device fs') /\
  inode_table fs = inode_table fs' /\
  Superblock.root_inode (superblock fs) = Superblock.root_inode (superblock fs').

(** A superblock whose fields [struct.pack('<I', ...)] takes. *)
Definition superblock_fits (sb : Superblock.t) : Prop :=
  u32 (Superblock.magic sb) /\ u32 (Superblock.block_size sb) /\
  u32 (Superblock.total_blocks sb) /\ u32 (Superblock.inode_count sb) /\
  u32 (Superblock.root_inode sb).

(** The root directory [create] makes at clock value [now]. *)
Definition root_directory (now : Z) : Inode.t :=
  Inode.set_block_count
    (Inode.set_direct_block (Inode.init DIRECTORY now) 0 (Some 10)) 1.

(** The geometry of the mounted image: the superblock but for its free
    count, the number of blocks the allocator manages and the number of
    blocks of the device. *)
Definition geometry (fs : t) : Superblock.t * Z * Z :=
  (Superblock.set_free_blocks (superblock fs) 0,
   BlockAllocator.total_blocks (allocator fs),
   BlockDevice.block_count (device fs)).

Definition keeps_geometry {A} (m : M A) : Prop :=
  forall fs, geometry (snd (m fs)) = geometry fs.

Definition keeps_allocator {A} (m : M A) : Prop :=
  forall fs, allocator (snd (m fs)) = allocator fs.

(** The blocks [delete_file] and [write_file] free: the non-zero slots
    below [block_count] and [DIRECT_BLOCKS]. *)
Definition blocks_in_use (block_count : Z) (vs : list Z) : list Z :=
  filter (fun v => negb (v =? 0))
         (firstn (Z.to_nat (Z.min block_count DIRECT_BLOCKS)) vs).

(** The number that a string of binary digits writes. *)
Definition bits_value (digits : pystr) : Z :=
  fold_left (fun acc c => 2 * acc + (Z.of_N c - 48)) digits 0.

(** The names of the commands. *)
Definition command_names : list pystr :=
  [py "help"; py "ls"; py "tree"; py "mkdir"; py "touch"; py "write";
   py "read"; py "rm"; py "info"; py "stats"].
End Vocabulary.

(** ** More concrete states *)

(** A bitmap of two bytes over twelve blocks, its first ten blocks in use. *)
Definition small_allocator : BlockAllocator.t := BlockAllocator.mk 12 [255; 3].

(** An allocator whose bitmap is shorter than its block count. *)
Definition short_allocator : BlockAllocator.t := BlockAllocator.mk 16 [255].

(** A device of two blocks. *)
Definition small_device : BlockDevice.t := BlockDevice.mk (zeros 8192) 2.

(** The full image after a write that found no free block. *)
Definition poisoned_fs : FileSystem.t :=
  exec (codec := ascii_codec) full_with_file (WriteFile (py "/f") [120] 1002).

Definition poisoned_inode : Inode.t :=
  Inode.mk REGULAR 0 0
    [None; Some 0; Some 0; Some 0; Some 0; Some 0;
     Some 0; Some 0; Some 0; Some 0; Some 0; Some 0]
    0 0 1001 1001 1001.

(** * Properties *)

Unset Implicit Arguments.

(** ** Path splitting *)

Lemma str_eqb_eq (a b : pystr) : str_eqb a b = true <-> a = b.
Proof.
  revert b; induction a as [|x a IH]; intros [|y b]; simpl; split;
    try congruence; try discriminate.
  - rewrite andb_true_iff, N.eqb_eq, IH. intros [-> ->]; reflexivity.
  - intros E; injection E as -> ->. now rewrite N.eqb_refl, (proj2 (IH b)).
Qed.

Lemma lstrip_slash_head (p : pystr) c r :
  lstrip_slash p = c :: r -> c <> SLASH.
Proof.
  induction p as [|x p IH]; simpl; [discriminate|].
  destruct (N.eqb x SLASH) eqn:E; [exact IH|].
  intros H; injection H as -> _. now apply N.eqb_neq.
Qed.

Lemma rstrip_slash_not_root (p : pystr) : rstrip_slash p <> py "/".
Proof.
  unfold rstrip_slash. intros H.
  assert (L : lstrip_slash (rev p) = [SLASH]).
  { rewrite <- (rev_involutive (lstrip_slash (rev p))), H. reflexivity. }
  now apply lstrip_slash_head in L.
Qed.

(** The guard [path == "/"] of [_split_path] follows the [rstrip] and is
    never taken. *)
Lemma split_path_never_none (p : pystr) : FileSystem._split_path p <> None.
Proof.
  unfold FileSystem._split_path.
  destruct (str_eqb (rstrip_slash p) (py "/")) eqn:E.
  - apply str_eqb_eq in E. now apply rstrip_slash_not_root in E.
  - destruct (rfind_slash (rstrip_slash p) =? -1); [discriminate|].
    destruct (rfind_slash (rstrip_slash p) =? 0); discriminate.
Qed.

Lemma rfind_from_spec (p : pystr) : forall i found,
  found < i ->
  let r := rfind_from i p found in
  (~ In SLASH p -> r = found) /\
  (In SLASH p ->
   i <= r < i + len p /\ nth (Z.to_nat (r - i)) p 0%N = SLASH /\
   ~ In SLASH (skipn (S (Z.to_nat (r - i))) p)).
Proof.
  induction p as [|c p IH]; intros i found Hlt; simpl.
  - split; [reflexivity|intros []].
  - destruct (N.eqb c SLASH) eqn:E.
    + apply N.eqb_eq in E. subst c.
      destruct (IH (i + 1) i ltac:(lia)) as [IH1 IH2].
      split; [intros H; exfalso; apply H; now left|].
      intros _. unfold len in *. simpl List.length.
      destruct (in_dec N.eq_dec SLASH p) as [Hin|Hnin].
      * destruct (IH2 Hin) as (Hr & Hn & Hs).
        replace (Z.to_nat (rfind_from (i + 1) p i - i))
          with (S (Z.to_nat (rfind_from (i + 1) p i - (i + 1)))) by lia.
        split; [lia|]. split; assumption.
      * rewrite (IH1 Hnin). replace (Z.to_nat (i - i)) with O by lia.
        split; [lia|]. split; [reflexivity|exact Hnin].
    + apply N.eqb_neq in E.
      destruct (IH (i + 1) found ltac:(lia)) as [IH1 IH2].
      split.
      * intros H. apply IH1. intros Hin. apply H. now right.
      * intros [Hc|Hin]; [congruence|].
        destruct (IH2 Hin) as (Hr & Hn & Hs).
        unfold len in *. simpl List.length.
        replace (Z.to_nat (rfind_from (i + 1) p found - i))
          with (S (Z.to_nat (rfind_from (i + 1) p found - (i + 1)))) by lia.
        split; [lia|]. split; assumption.
Qed.

(** [rfind_slash] is the index of the last ['/'], or -1 without one. *)
Lemma rfind_slash_spec (p : pystr) :
  (~ In SLASH p -> rfind_slash p = -1) /\
  (In SLASH p ->
   0 <= rfind_slash p < len p /\
   nth (Z.to_nat (rfind_slash p)) p 0%N = SLASH /\
   ~ In SLASH (skipn (S (Z.to_nat (rfind_slash p))) p)).
Proof.
  unfold rfind_slash.
  destruct (rfind_from_spec p 0 (-1) ltac:(lia)) as [H1 H2].
  split; [exact H1|]. intros Hin. destruct (H2 Hin) as (Hr & Hn & Hs).
  rewrite Z.sub_0_r in *. repeat split; try lia; assumption.
Qed.

(** The clauses of the path split that the code implements, on the
    stripped path [s]. *)
Lemma split_path_cases (p : pystr) :
  let s := rstrip_slash p in
  (~ In SLASH s -> FileSystem._split_path p = Some (py "/", s)) /\
  (In SLASH s -> rfind_slash s = 0 ->
   FileSystem._split_path p = Some (py "/", slice_from s 1)) /\
  (In SLASH s -> 0 < rfind_slash s ->
   FileSystem._split_path p =
   Some (slice s 0 (rfind_slash s), slice_from s (rfind_slash s + 1))).
Proof.
  intros s. unfold FileSystem._split_path. fold s.
  assert (E : str_eqb s (py "/") = false).
  { destruct (str_eqb s (py "/")) eqn:E; [|reflexivity].
    apply str_eqb_eq in E. now apply rstrip_slash_not_root in E. }
  rewrite E. destruct (rfind_slash_spec s) as [H1 H2].
  split; [|split].
  - intros H. now rewrite (H1 H).
  - intros _ H0. now rewrite H0.
  - intros _ Hpos.
    destruct (rfind_slash s =? -1) eqn:A; [lia|].
    destruct (rfind_slash s =? 0) eqn:B; [lia|]. reflexivity.
Qed.

(** C8: on the input ["/"] the split is [("/", "")], not [(None, None)]:
    the trailing slash is stripped before the comparison with ["/"]. *)
Theorem split_path_root :
  FileSystem._split_path (py "/") = Some (py "/", []).
Proof. reflexivity. Qed.

(** ** The superblock codec *)

(** C10: a superblock decoded from a 4096-byte block has the constant magic
    whatever the block starts with, and its other five fields are the
    little-endian words at offsets 4 to 20. *)
Theorem superblock_from_bytes_magic (b : bytes) :
  len b = BLOCK_SIZE ->
  exists sb,
    Superblock.from_bytes b = Ok sb /\
    Superblock.magic sb = MAGIC_NUMBER /\
    Superblock.block_size sb = u32_at b 4 /\
    Superblock.total_blocks sb = u32_at b 8 /\
    Superblock.inode_count sb = u32_at b 12 /\
    Superblock.free_blocks sb = u32_at b 16 /\
    Superblock.root_inode sb = u32_at b 20.
Proof.
  intros H. unfold len, BLOCK_SIZE in H.
  do 24 (destruct b as [|? b]; [simpl in H; lia|]).
  eexists. split; [reflexivity|].
  repeat split.
Qed.

Lemma superblock_from_bytes_magic_witness :
  len (zeros BLOCK_SIZE) = BLOCK_SIZE /\
  exists sb,
    Superblock.from_bytes (zeros BLOCK_SIZE) = Ok sb /\
    Superblock.magic sb = MAGIC_NUMBER /\
    Superblock.block_size sb = u32_at (zeros BLOCK_SIZE) 4 /\
    Superblock.total_blocks sb = u32_at (zeros BLOCK_SIZE) 8 /\
    Superblock.inode_count sb = u32_at (zeros BLOCK_SIZE) 12 /\
    Superblock.free_blocks sb = u32_at (zeros BLOCK_SIZE) 16 /\
    Superblock.root_inode sb = u32_at (zeros BLOCK_SIZE) 20.
Proof.
  split; [reflexivity|].
  apply (superblock_from_bytes_magic (zeros BLOCK_SIZE)). reflexivity.
Defined.

(** ** The inode table *)

Import FileSystem.

Lemma table_get_set_same k v tb : table_get k (table_set k v tb) = Some v.
Proof.
  induction tb as [|[k' v'] tb IH]; simpl.
  - now rewrite Z.eqb_refl.
  - destruct (k =? k') eqn:E; simpl; rewrite ?Z.eqb_refl, ?E; auto.
Qed.

Lemma table_get_set_other k k' v tb :
  k' <> k -> table_get k' (table_set k v tb) = table_get k' tb.
Proof.
  intros N. induction tb as [|[k2 v2] tb IH]; simpl.
  - destruct (k' =? k) eqn:E; [apply Z.eqb_eq in E; congruence|reflexivity].
  - destruct (k =? k2) eqn:E; simpl.
    + apply Z.eqb_eq in E. subst k2.
      destruct (k' =? k) eqn:E2; [apply Z.eqb_eq in E2; congruence|reflexivity].
    + destruct (k' =? k2); [reflexivity|exact IH].
Qed.

Lemma table_keys_set_present k v old tb :
  table_get k tb = Some old -> table_keys (table_set k v tb) = table_keys tb.
Proof.
  unfold table_keys. induction tb as [|[k' v'] tb IH]; simpl; [discriminate|].
  destruct (k =? k') eqn:E; simpl.
  - apply Z.eqb_eq in E. now subst.
  - intros H. now rewrite IH.
Qed.

Lemma table_get_none_keys k tb : table_get k tb = None -> ~ In k (table_keys tb).
Proof.
  unfold table_keys. induction tb as [|[k' v'] tb IH]; simpl; [tauto|].
  destruct (k =? k') eqn:E; [discriminate|]. apply Z.eqb_neq in E.
  intros H [A|B]; [congruence|now apply IH].
Qed.

Lemma table_get_some_keys k v tb : table_get k tb = Some v -> In k (table_keys tb).
Proof.
  unfold table_keys. induction tb as [|[k' v'] tb IH]; simpl; [discriminate|].
  destruct (k =? k') eqn:E.
  - apply Z.eqb_eq in E. now left.
  - intros H. right. now apply IH.
Qed.

Lemma table_keys_set_absent k v tb :
  table_get k tb = None -> table_keys (table_set k v tb) = table_keys tb ++ [k].
Proof.
  unfold table_keys. induction tb as [|[k' v'] tb IH]; simpl; [reflexivity|].
  destruct (k =? k') eqn:E; [discriminate|]. simpl. intros H. now rewrite IH.
Qed.

Lemma table_keys_set_incl k v tb x :
  In x (table_keys (table_set k v tb)) -> x = k \/ In x (table_keys tb).
Proof.
  destruct (table_get k tb) eqn:E.
  - rewrite (table_keys_set_present _ _ _ _ E). now right.
  - rewrite (table_keys_set_absent _ _ _ E), in_app_iff. simpl. intuition.
Qed.

Lemma table_keys_del_incl k tb x :
  In x (table_keys (table_del k tb)) -> In x (table_keys tb).
Proof.
  unfold table_keys, table_del. rewrite !in_map_iff.
  intros [kv [E H]]. apply filter_In in H. exists kv. tauto.
Qed.

Lemma table_get_in k v tb : table_get k tb = Some v -> In v (map snd tb).
Proof.
  induction tb as [|[k' v'] tb IH]; simpl; [discriminate|].
  destruct (k =? k'); [intros H; injection H as ->; now left|auto].
Qed.

Lemma table_set_values k v tb x :
  In x (map snd (table_set k v tb)) -> x = v \/ In x (map snd tb).
Proof.
  induction tb as [|[k' v'] tb IH]; simpl.
  - intuition.
  - destruct (k =? k'); simpl; intuition.
Qed.

Lemma table_del_values k tb x :
  In x (map snd (table_del k tb)) -> In x (map snd tb).
Proof.
  unfold table_del. rewrite !in_map_iff.
  intros [kv [E H]]. apply filter_In in H. exists kv. tauto.
Qed.

(** ** A program logic for the mutating methods *)

Section Logic.

Variable E : t -> Prop.

Lemma triple_bind {A B} P (m : M A) Q (k : A -> M B) R :
  triple E P m Q -> (forall a, triple E (Q a) (k a) R) -> triple E P (bind m k) R.
Proof.
  intros Hm Hk fs HP. unfold bind. specialize (Hm fs HP).
  destruct (m fs) as [[a|e] fs']; [exact (Hk a fs' Hm)|exact Hm].
Qed.

Lemma triple_ret {A} (P : t -> Prop) (a : A) (Q : A -> t -> Prop) :
  (forall fs, P fs -> Q a fs) -> triple E P (ret a) Q.
Proof. intros H fs HP. exact (H fs HP). Qed.

Lemma triple_raise {A} (P : t -> Prop) e (Q : A -> t -> Prop) :
  (forall fs, P fs -> E fs) -> triple E P (raise e) Q.
Proof. intros H fs HP. exact (H fs HP). Qed.

Lemma triple_read {A} (P : t -> Prop) (f : t -> result A) (Q : A -> t -> Prop) :
  (forall fs, P fs -> E fs) ->
  (forall fs a, P fs -> f fs = Ok a -> Q a fs) -> triple E P (read f) Q.
Proof.
  intros HE HQ fs HP. unfold read.
  destruct (f fs) eqn:F; [exact (HQ fs a HP F)|exact (HE fs HP)].
Qed.

Lemma triple_lift {A} (P : t -> Prop) (r : result A) (Q : A -> t -> Prop) :
  (forall fs, P fs -> E fs) ->
  (forall fs a, P fs -> r = Ok a -> Q a fs) -> triple E P (lift r) Q.
Proof.
  intros HE HQ fs HP. unfold lift.
  destruct r eqn:F; [exact (HQ fs a HP eq_refl)|exact (HE fs HP)].
Qed.

Lemma triple_modify (P : t -> Prop) (f : t -> t) (Q : unit -> t -> Prop) :
  (forall fs, P fs -> Q tt (f fs)) -> triple E P (modify f) Q.
Proof. intros H fs HP. exact (H fs HP). Qed.

Lemma triple_pre {A} (P P' : t -> Prop) (m : M A) Q :
  (forall fs, P' fs -> P fs) -> triple E P m Q -> triple E P' m Q.
Proof. intros H Hm fs HP. exact (Hm fs (H fs HP)). Qed.

Lemma triple_post {A} (P : t -> Prop) (m : M A) (Q Q' : A -> t -> Prop) :
  (forall a fs, Q a fs -> Q' a fs) -> triple E P m Q -> triple E P m Q'.
Proof.
  intros H Hm fs HP. specialize (Hm fs HP).
  destruct (m fs) as [[a|e] fs']; [exact (H a fs' Hm)|exact Hm].
Qed.

Lemma triple_snd {A} (P : t -> Prop) (m : M A) :
  (forall fs, P fs -> E fs) ->
  triple E P m (fun _ => E) -> forall fs, P fs -> E (snd (m fs)).
Proof.
  intros _ Hm fs HP. specialize (Hm fs HP).
  destruct (m fs) as [[a|e] fs']; exact Hm.
Qed.
End Logic.

(** ** Methods that leave the inode table and the counter alone *)

Lemma frames_bind {A B} (m : M A) (k : A -> M B) :
  frames m -> (forall a, frames (k a)) -> frames (bind m k).
Proof.
  intros Hm Hk fs. unfold bind. specialize (Hm fs).
  destruct (m fs) as [[a|e] fs']; simpl in Hm.
  - destruct (Hk a fs') as [H1 H2]. destruct Hm. split; congruence.
  - exact Hm.
Qed.

Lemma frames_ret {A} (a : A) : frames (ret a).
Proof. intros fs; split; reflexivity. Qed.

Lemma frames_raise {A} e : frames (@raise A e).
Proof. intros fs; split; reflexivity. Qed.

Lemma frames_read {A} (f : t -> result A) : frames (read f).
Proof. intros fs; split; reflexivity. Qed.

Lemma frames_lift {A} (r : result A) : frames (lift r).
Proof. intros fs; split; reflexivity. Qed.

Lemma frames_write_block b data : frames (write_block b data).
Proof. destruct b; intros fs; split; reflexivity. Qed.

Lemma frames_free_block b : frames (free_block b).
Proof. destruct b; intros fs; split; reflexivity. Qed.

Lemma frames_allocate_block : frames allocate_block.
Proof.
  intros fs. unfold allocate_block.
  destruct (BlockAllocator.allocate_block (allocator fs)). split; reflexivity.
Qed.

Create HintDb frames.
#[local] Hint Resolve frames_ret frames_raise frames_read frames_lift
  frames_write_block frames_free_block frames_allocate_block : frames.

Section Frames.
Context {codec : Utf8}.

Lemma frames_sync : frames _sync.
Proof.
  unfold _sync.
  apply frames_bind; [intros fs; split; reflexivity|intros _].
  apply frames_bind; [auto with frames|intros sb].
  apply frames_bind; [auto with frames|intros _].
  apply frames_bind; [auto with frames|intros bm].
  apply frames_bind; [auto with frames|intros _].
  intros fs. destruct (_write_inode_table (device fs) (inode_table fs)).
  split; reflexivity.
Qed.

Lemma frames_remove_blocks inode name n : forall i,
  frames (remove_blocks inode name n i).
Proof.
  induction n as [|n IH]; intros i; simpl; [auto with frames|].
  destruct (DIRECT_BLOCKS <=? i); [auto with frames|].
  apply frames_bind; [auto with frames|intros b].
  destruct (is_zero b); [apply IH|].
  repeat (apply frames_bind; [auto with frames|intros ?]).
  auto with frames.
Qed.

Lemma frames_remove_dir_entry d name : frames (_remove_dir_entry d name).
Proof.
  unfold _remove_dir_entry.
  apply frames_bind; [auto with frames|intros [inode|]];
    [apply frames_remove_blocks|auto with frames].
Qed.

Lemma frames_free_blocks_of inode n : forall i,
  frames (free_blocks_of inode n i).
Proof.
  induction n as [|n IH]; intros i; simpl; [auto with frames|].
  destruct (i <? DIRECT_BLOCKS); [|apply IH].
  apply frames_bind; [auto with frames|intros b].
  destruct (negb (is_zero b)); [|apply IH].
  apply frames_bind; [auto with frames|intros _; apply IH].
Qed.
End Frames.

(** ** Invariants of the inode table *)

Section TableInvariant.
Context {codec : Utf8}.

(** A property of the inode table and of the counter that the three
    kinds of change keep. *)
Variable T : table -> Z -> Prop.
Hypothesis T_update : forall tb nx k old new,
  T tb nx -> table_get k tb = Some old -> inode_step old new ->
  T (table_set k new tb) nx.
Hypothesis T_create : forall tb nx new,
  T tb nx -> inode_fresh new -> T (table_set nx new tb) (nx + 1).
Hypothesis T_delete : forall tb nx k, T tb nx -> T (table_del k tb) nx.

Lemma frames_Inv {A} (m : M A) :
  frames m -> triple (Inv T) (Inv T) m (fun _ => (Inv T)).
Proof.
  intros Hf fs HP. destruct (Hf fs) as [E1 E2].
  destruct (m fs) as [[a|e] fs']; simpl in *; unfold Inv; now rewrite E1, E2.
Qed.

Lemma frames_Inv_at {A} (m : M A) k inode :
  frames m -> triple (Inv T) (Inv_at T k inode) m (fun _ => Inv_at T k inode).
Proof.
  intros Hf fs [HP HG]. destruct (Hf fs) as [E1 E2].
  destruct (m fs) as [[a|e] fs']; simpl in *; unfold Inv_at, Inv;
    rewrite E1, E2; auto.
Qed.

Lemma store_inode_step k inode new :
  inode_step inode new ->
  triple (Inv T) (Inv_at T k inode) (store_inode k new) (fun _ => Inv_at T k new).
Proof.
  intros Hs. apply triple_modify. intros fs [HI HG]. split.
  - exact (T_update _ _ _ _ _ HI HG Hs).
  - apply table_get_set_same.
Qed.

Lemma Inv_at_Inv k inode fs : Inv_at T k inode fs -> (Inv T) fs.
Proof. intros [H _]; exact H. Qed.

Lemma free_existing_keeps n : forall k inode i,
  triple (Inv T) (Inv_at T k inode) (free_existing k inode n i)
         (fun inode' => Inv_at T k inode').
Proof.
  induction n as [|n IH]; intros k inode i; simpl.
  - apply triple_ret. auto.
  - destruct (i <? DIRECT_BLOCKS); [|apply IH].
    eapply triple_bind.
    + apply triple_lift with (Q := fun _ => Inv_at T k inode);
        [apply Inv_at_Inv|auto].
    + intros b. destruct (negb (is_zero b)); [|apply IH].
      eapply triple_bind;
        [apply frames_Inv_at, frames_free_block|intros ?; cbv beta].
      eapply triple_bind;
        [apply store_inode_step, step_slot|intros ?; cbv beta; apply IH].
Qed.

Lemma write_blocks_keeps n : forall k inode data i written,
  triple (Inv T) (Inv_at T k inode) (write_blocks k inode data n i written)
         (fun inode' => Inv_at T k inode').
Proof.
  induction n as [|n IH]; intros k inode data i written; simpl.
  - apply triple_ret. auto.
  - eapply triple_bind;
      [apply frames_Inv_at, frames_allocate_block|intros block].
    eapply triple_bind;
      [apply store_inode_step, step_slot|intros ?; cbv beta].
    eapply triple_bind;
      [apply frames_Inv_at, frames_write_block|intros ?; cbv beta; apply IH].
Qed.

Lemma sync_keeps : triple (Inv T) (Inv T) _sync (fun _ => (Inv T)).
Proof. apply frames_Inv, frames_sync. Qed.

Lemma read_keeps {A} (f : t -> result A) : triple (Inv T) (Inv T) (read f) (fun _ => (Inv T)).
Proof. apply frames_Inv, frames_read. Qed.

(** The entry of the table read by [self.inode_table.get(k)]. *)
Lemma get_keeps (k : option Z) :
  triple (Inv T) (Inv T) (read (fun fs => Ok (table_get_opt k (inode_table fs))))
         (fun inode fs => (Inv T) fs /\ inode = table_get_opt k (inode_table fs)).
Proof.
  apply triple_read; [auto|]. intros fs a HI H. injection H as <-. auto.
Qed.

Lemma write_file_keeps path data now :
  triple (Inv T) (Inv T) (write_file path data now) (fun _ => (Inv T)).
Proof.
  unfold write_file.
  eapply triple_bind; [apply read_keeps|intros inode_num].
  eapply triple_bind; [apply get_keeps|intros inode].
  destruct inode_num as [k|], inode as [inode|];
    try (apply triple_ret; tauto).
  destruct (negb (FileType_eqb (Inode.file_type inode) REGULAR));
    [apply triple_ret; tauto|].
  eapply triple_bind.
  { eapply triple_pre; [|apply free_existing_keeps].
    intros fs [HI HG]. split; [exact HI|now rewrite HG]. }
  intros inode1.
  eapply triple_bind; [apply write_blocks_keeps|intros inode2].
  eapply triple_bind.
  { eapply triple_post; [|apply store_inode_step, step_resize].
    intros a fs H. exact (Inv_at_Inv _ _ _ H). }
  intros ?; cbv beta. apply sync_keeps.
Qed.

Lemma add_dir_entry_keeps d name n :
  triple (Inv T) (Inv T) (_add_dir_entry d name n) (fun _ => (Inv T)).
Proof.
  unfold _add_dir_entry.
  eapply triple_bind; [apply frames_Inv, frames_lift|intros entry_bytes].
  eapply triple_bind; [apply get_keeps|intros inode].
  destruct d as [dir|], inode as [inode|]; try (apply triple_ret; tauto).
  eapply triple_bind with (Q := fun _ => (Inv T)).
  - destruct (Inode.block_count inode =? 0) eqn:B.
    + apply Z.eqb_eq in B.
      eapply triple_bind.
      { eapply triple_pre; [|apply (frames_Inv_at _ dir inode), frames_allocate_block].
        intros fs [HI HG]. split; [exact HI|now rewrite HG]. }
      intros new_block.
      eapply triple_bind with (Q := fun _ => (Inv T));
        [|intros ?; cbv beta; apply triple_ret; auto].
      apply triple_modify. intros fs [HI HG]. rewrite HG.
      exact (T_update _ _ _ _ _ HI HG (step_first_block _ _ B)).
    + eapply triple_pre; [|apply frames_Inv, frames_lift]. tauto.
  - intros block_num.
    eapply triple_bind; [apply read_keeps|intros block_data].
    eapply triple_bind; [apply frames_Inv, frames_lift|intros offset].
    destruct (offset + len entry_bytes >? BLOCK_SIZE);
      [apply triple_ret; auto|apply frames_Inv, frames_write_block].
Qed.

Lemma take_inode_num_spec :
  triple (Inv T) (Inv T) take_inode_num
         (fun n fs => T (inode_table fs) n /\ next_inode fs = n + 1).
Proof. intros fs HI. simpl. split; [exact HI|reflexivity]. Qed.

Lemma store_new_inode n new :
  inode_fresh new ->
  triple (Inv T) (fun fs => T (inode_table fs) n /\ next_inode fs = n + 1)
         (store_inode n new) (fun _ => (Inv T)).
Proof.
  intros Hn. apply triple_modify. intros fs [HT HN].
  unfold Inv. simpl. rewrite HN. now apply T_create.
Qed.

Lemma create_file_keeps path now :
  triple (Inv T) (Inv T) (create_file path now) (fun _ => (Inv T)).
Proof.
  unfold create_file.
  destruct (_split_path path) as [[parent_path filename]|];
    [|apply triple_raise; auto].
  eapply triple_bind; [apply read_keeps|intros parent].
  eapply triple_bind; [apply read_keeps|intros existing].
  destruct existing; [apply triple_ret; auto|].
  eapply triple_bind; [apply take_inode_num_spec|intros n].
  eapply triple_bind; [apply store_new_inode, fresh_file|intros ?; cbv beta].
  eapply triple_bind; [apply add_dir_entry_keeps|intros ?; cbv beta].
  apply sync_keeps.
Qed.

Lemma create_directory_keeps path now :
  triple (Inv T) (Inv T) (create_directory path now) (fun _ => (Inv T)).
Proof.
  unfold create_directory.
  destruct (_split_path path) as [[parent_path dirname]|];
    [|apply triple_raise; auto].
  eapply triple_bind; [apply read_keeps|intros parent].
  eapply triple_bind; [apply read_keeps|intros existing].
  destruct existing; [apply triple_ret; auto|].
  eapply triple_bind; [apply frames_Inv, frames_allocate_block|intros b].
  eapply triple_bind; [apply take_inode_num_spec|intros n].
  eapply triple_bind; [apply store_new_inode, fresh_directory|intros ?; cbv beta].
  eapply triple_bind; [apply frames_Inv, frames_write_block|intros ?; cbv beta].
  eapply triple_bind; [apply add_dir_entry_keeps|intros ?; cbv beta].
  apply sync_keeps.
Qed.

Lemma delete_file_keeps path :
  triple (Inv T) (Inv T) (delete_file path) (fun _ => (Inv T)).
Proof.
  unfold delete_file.
  destruct (_split_path path) as [[parent_path filename]|];
    [|apply triple_raise; auto].
  eapply triple_bind; [apply read_keeps|intros parent].
  eapply triple_bind; [apply read_keeps|intros file].
  eapply triple_bind; [apply read_keeps|intros inode].
  destruct file as [k|], inode as [inode|]; try (apply triple_ret; auto).
  eapply triple_bind; [apply frames_Inv, frames_free_blocks_of|intros ?; cbv beta].
  eapply triple_bind with (Q := fun _ => (Inv T)).
  { apply triple_modify. intros fs HI. now apply T_delete. }
  intros ?; cbv beta.
  eapply triple_bind; [apply frames_Inv, frames_remove_dir_entry|intros ?; cbv beta].
  apply sync_keeps.
Qed.

(** Every call keeps the invariant, whether it returns or raises. *)
Lemma exec_keeps fs o : (Inv T) fs -> (Inv T) (exec fs o).
Proof.
  intros HI. unfold exec.
  assert (H : triple (Inv T) (Inv T) (call o) (fun _ => (Inv T))).
  { destruct o; simpl.
    - apply create_file_keeps.
    - apply create_directory_keeps.
    - apply write_file_keeps.
    - apply delete_file_keeps. }
  specialize (H fs HI). destruct (call o fs) as [[a|e] fs']; exact H.
Qed.

Lemma run_keeps ops : forall fs, (Inv T) fs -> (Inv T) (run fs ops).
Proof.
  induction ops as [|o ops IH]; intros fs HI; simpl; [exact HI|].
  apply IH, exec_keeps, HI.
Qed.
End TableInvariant.

(** ** A freshly created image *)

Lemma create_table size_mb now fs0 :
  create size_mb now = Ok fs0 ->
  next_inode fs0 = 2 /\
  exists b,
    inode_table fs0 =
    [(1, Inode.set_block_count
           (Inode.set_direct_block (Inode.init DIRECTORY now) 0 b) 1)].
Proof.
  unfold create, rbind.
  destruct (BlockAllocator.init _) as [a|]; [|discriminate].
  destruct (Superblock.to_bytes _) as [sb|]; [|discriminate].
  destruct (BlockAllocator.allocate_block a) as [[b|] a']; [|discriminate].
  destruct (_write_inode_table _ _) as [[u|e] d]; [|discriminate].
  intros H. injection H as <-. split; [reflexivity|eexists; reflexivity].
Qed.

(** ** Bounds of the inodes *)

Lemma inode_bounds_step old new :
  inode_bounds old -> inode_step old new -> inode_bounds new.
Proof.
  unfold inode_bounds, BLOCK_SIZE, DIRECT_BLOCKS.
  intros (H1 & H2 & H3) [i b|b Hz|data now]; simpl.
  - auto.
  - lia.
  - unfold len, BLOCK_SIZE. Z.div_mod_to_equations. lia.
Qed.

Lemma inode_bounds_fresh new : inode_fresh new -> inode_bounds new.
Proof.
  unfold inode_bounds, BLOCK_SIZE, DIRECT_BLOCKS.
  intros [now|now b]; simpl; lia.
Qed.

Lemma all_bounded_update tb nx k old new :
  all_bounded tb nx -> table_get k tb = Some old -> inode_step old new ->
  all_bounded (table_set k new tb) nx.
Proof.
  intros H G S i Hi. apply table_set_values in Hi. destruct Hi as [->|Hi].
  - apply (inode_bounds_step old); [|exact S]. apply H. exact (table_get_in _ _ _ G).
  - exact (H i Hi).
Qed.

Lemma all_bounded_create tb nx new :
  all_bounded tb nx -> inode_fresh new -> all_bounded (table_set nx new tb) (nx + 1).
Proof.
  intros H F i Hi. apply table_set_values in Hi. destruct Hi as [->|Hi].
  - exact (inode_bounds_fresh _ F).
  - exact (H i Hi).
Qed.

Lemma all_bounded_delete tb nx k :
  all_bounded tb nx -> all_bounded (table_del k tb) nx.
Proof. intros H i Hi. apply H. exact (table_del_values _ _ _ Hi). Qed.

(** C3, as the code keeps it: in every state reached from a freshly created
    image every inode has [0 <= block_count] and
    [size <= block_count * 4096], and [block_count <= DIRECT_BLOCKS] as long
    as [size] is at most 48 KiB. *)
Theorem inode_bounds_reachable {codec : Utf8} (fs : t) :
  reachable fs ->
  forall k i, table_get k (inode_table fs) = Some i -> inode_bounds i.
Proof.
  intros (size_mb & now & fs0 & ops & Hc & ->) k i G.
  assert (H : Inv all_bounded (run fs0 ops)).
  { apply (run_keeps all_bounded all_bounded_update all_bounded_create
             all_bounded_delete).
    destruct (create_table _ _ _ Hc) as [_ [b Ht]].
    unfold Inv, all_bounded. rewrite Ht. simpl.
    intros j [<-|[]]. apply inode_bounds_fresh, fresh_directory. }
  apply H. exact (table_get_in _ _ _ G).
Qed.

(** ** Inode numbers *)

Lemma sorted_app (l1 l2 : list Z) :
  StronglySorted Z.lt l1 -> StronglySorted Z.lt l2 ->
  (forall x y, In x l1 -> In y l2 -> x < y) ->
  StronglySorted Z.lt (l1 ++ l2).
Proof.
  intros H1 H2 H. induction H1 as [|a l1 Hs IH Ha]; simpl; [exact H2|].
  constructor.
  - apply IH. intros x y Hx Hy. apply H; [now right|exact Hy].
  - apply Forall_app. split; [exact Ha|].
    apply Forall_forall. intros y Hy. apply H; [now left|exact Hy].
Qed.

Lemma numbered_update K0 n0 tb nx k old new :
  numbered K0 n0 tb nx -> table_get k tb = Some old -> inode_step old new ->
  numbered K0 n0 (table_set k new tb) nx.
Proof.
  intros H G _. unfold numbered.
  now rewrite (table_keys_set_present _ _ _ _ G).
Qed.

Lemma numbered_create K0 n0 tb nx new :
  numbered K0 n0 tb nx -> inode_fresh new ->
  numbered K0 n0 (table_set nx new tb) (nx + 1).
Proof.
  intros (H1 & H2 & H3 & H4) _.
  assert (G : table_get nx tb = None).
  { destruct (table_get nx tb) eqn:G; [|reflexivity].
    apply table_get_some_keys in G. rewrite Forall_forall in H2.
    specialize (H2 nx G). lia. }
  unfold numbered. rewrite (table_keys_set_absent _ _ _ G).
  split; [lia|]. split; [|split].
  - apply Forall_app. split.
    + eapply Forall_impl; [|exact H2]. simpl. intros; lia.
    + constructor; [lia|constructor].
  - intros k Hk Hlt. apply in_app_iff in Hk. destruct Hk as [Hk|[<-|[]]];
      [now apply H3|lia].
  - rewrite filter_app. apply sorted_app; [exact H4| |].
    + simpl. destruct (n0 <=? nx); repeat constructor.
    + intros x y Hx Hy. apply filter_In in Hx. destruct Hx as [Hx _].
      rewrite Forall_forall in H2. specialize (H2 x Hx).
      simpl in Hy. destruct (n0 <=? nx); simpl in Hy; [|tauto].
      destruct Hy as [<-|[]]. exact H2.
Qed.

Lemma sorted_sublist (f g : Z -> bool) (l : list Z) :
  StronglySorted Z.lt (filter f l) ->
  StronglySorted Z.lt (filter f (filter g l)).
Proof.
  induction l as [|a l IH]; simpl; [auto|].
  destruct (g a) eqn:Eg; simpl; destruct (f a) eqn:Ef; intros H.
  - inversion H as [|? ? Hs Ha]; subst. constructor; [auto|].
    rewrite Forall_forall in *. intros x Hx. apply Ha.
    apply filter_In in Hx. destruct Hx as [Hx Hf].
    apply filter_In in Hx. apply filter_In. tauto.
  - auto.
  - inversion H; subst. auto.
  - auto.
Qed.

Lemma table_keys_del k tb :
  table_keys (table_del k tb) = filter (fun x => negb (x =? k)) (table_keys tb).
Proof.
  unfold table_keys, table_del. induction tb as [|[k' v] tb IH]; simpl; [reflexivity|].
  destruct (negb (k' =? k)); simpl; now rewrite IH.
Qed.

Lemma numbered_delete K0 n0 tb nx k :
  numbered K0 n0 tb nx -> numbered K0 n0 (table_del k tb) nx.
Proof.
  intros (H1 & H2 & H3 & H4). unfold numbered.
  split; [exact H1|]. split; [|split].
  - rewrite Forall_forall in *. intros x Hx. apply H2.
    exact (table_keys_del_incl k tb x Hx).
  - intros x Hx. apply H3. exact (table_keys_del_incl k tb x Hx).
  - rewrite table_keys_del. now apply sorted_sublist.
Qed.

Lemma fold_max_le (l : list Z) : forall a x,
  x = a \/ In x l -> x <= fold_left Z.max l a.
Proof.
  induction l as [|b l IH]; simpl; intros a x H.
  - destruct H as [->|[]]. lia.
  - destruct H as [->|[<-|H]].
    + transitivity (Z.max a b); [lia|]. apply IH. now left.
    + transitivity (Z.max a b); [lia|]. apply IH. now left.
    + apply IH. now right.
Qed.

Lemma max_key_bound tb k : In k (table_keys tb) -> k <= max_key tb.
Proof.
  unfold max_key. destruct (table_keys tb) as [|a l]; [intros []|].
  intros H. apply fold_max_le. simpl in H. intuition.
Qed.

Lemma open_next_inode f fs :
  open f = Ok fs -> next_inode fs = max_key (inode_table fs) + 1.
Proof.
  unfold open, rbind.
  destruct (Superblock.from_bytes _); [|discriminate].
  destruct (_read_inode_table _); [|discriminate].
  intros H. injection H as <-. reflexivity.
Qed.

(** Both ways of mounting leave every inode number below the counter. *)
Lemma mounted_keys_below fs : mounted_by fs -> keys_below_next fs.
Proof.
  unfold keys_below_next. intros [(size_mb & now & H)|(f & H)].
  - destruct (create_table _ _ _ H) as [Hn [b Ht]]. rewrite Hn, Ht.
    cbn [table_keys map fst]. constructor; [lia|constructor].
  - rewrite (open_next_inode _ _ H). apply Forall_forall. intros k Hk.
    apply max_key_bound in Hk. lia.
Qed.

Section InodeNumbers.
Context {codec : Utf8}.

Lemma numbered_start fs :
keys_below_next fs ->
numbered (table_keys (inode_table fs)) (next_inode fs)
         (inode_table fs) (next_inode fs).
Proof.
intros H. split; [lia|]. split; [exact H|]. split; [auto|].
unfold keys_below_next in H.
induction H as [|a l Ha Hl IH]; simpl; [constructor|].
destruct (next_inode fs <=? a) eqn:E; [apply Z.leb_le in E; lia|exact IH].
Qed.

Lemma exec_numbered fs o :
keys_below_next fs ->
numbered (table_keys (inode_table fs)) (next_inode fs)
         (inode_table (exec fs o)) (next_inode (exec fs o)).
Proof.
intros H.
apply (exec_keeps (numbered (table_keys (inode_table fs)) (next_inode fs))
         (numbered_update _ _) (numbered_create _ _) (numbered_delete _ _)).
exact (numbered_start fs H).
Qed.

Lemma exec_keys_below fs o : keys_below_next fs -> keys_below_next (exec fs o).
Proof. intros H. exact (proj1 (proj2 (exec_numbered fs o H))). Qed.

Lemma exec_next_inode fs o :
keys_below_next fs -> next_inode fs <= next_inode (exec fs o).
Proof. intros H. exact (proj1 (exec_numbered fs o H)). Qed.

(** The numbers a call assigns are the keys from the old counter on. *)
Lemma new_inode_numbers_filter fs o :
keys_below_next fs ->
new_inode_numbers fs (exec fs o) =
filter (fun k => next_inode fs <=? k) (table_keys (inode_table (exec fs o))).
Proof.
intros H. destruct (exec_numbered fs o H) as (_ & _ & H3 & _).
unfold new_inode_numbers. apply filter_ext_in. intros k Hk.
destruct (next_inode fs <=? k) eqn:E.
- apply Z.leb_le in E. apply negb_true_iff.
  destruct (existsb _ _) eqn:X; [|reflexivity].
  apply existsb_exists in X. destruct X as [x [Hx Ex]].
  apply Z.eqb_eq in Ex. subst x.
  unfold keys_below_next in H. rewrite Forall_forall in H.
  specialize (H k Hx). lia.
- apply Z.leb_gt in E. apply negb_false_iff, existsb_exists.
  exists k. split; [|apply Z.eqb_refl]. now apply H3.
Qed.

Lemma new_inode_numbers_sorted fs o :
keys_below_next fs -> StronglySorted Z.lt (new_inode_numbers fs (exec fs o)).
Proof.
intros H. rewrite (new_inode_numbers_filter fs o H).
exact (proj2 (proj2 (proj2 (exec_numbered fs o H)))).
Qed.

Lemma new_inode_numbers_range fs o k :
keys_below_next fs -> In k (new_inode_numbers fs (exec fs o)) ->
next_inode fs <= k < next_inode (exec fs o).
Proof.
intros H. rewrite (new_inode_numbers_filter fs o H), filter_In, Z.leb_le.
intros [Hk Hle]. split; [exact Hle|].
pose proof (exec_keys_below fs o H) as B. unfold keys_below_next in B.
rewrite Forall_forall in B. exact (B k Hk).
Qed.

Lemma assigned_lower ops : forall fs k,
keys_below_next fs -> In k (assigned fs ops) -> next_inode fs <= k.
Proof.
induction ops as [|o ops IH]; simpl; intros fs k H Hk; [destruct Hk|].
apply in_app_iff in Hk. destruct Hk as [Hk|Hk].
- exact (proj1 (new_inode_numbers_range fs o k H Hk)).
- pose proof (exec_next_inode fs o H).
  specialize (IH _ _ (exec_keys_below fs o H) Hk). lia.
Qed.

(** C7, as the code keeps it: within one mount the inode numbers assigned
  by the calls of a run strictly increase, and none is the number of an
  inode that the table held when the run began. *)
Theorem inode_numbers_increase_within_mount (fs : t) (ops : list op) :
mounted_by fs ->
StronglySorted Z.lt (assigned fs ops) /\
Forall (fun k => forall k0, In k0 (table_keys (inode_table fs)) -> k0 < k)
       (assigned fs ops).
Proof.
intros Hm. pose proof (mounted_keys_below fs Hm) as H. clear Hm. split.
- revert fs H. induction ops as [|o ops IH]; simpl; intros fs H; [constructor|].
  apply sorted_app.
  + exact (new_inode_numbers_sorted fs o H).
  + exact (IH _ (exec_keys_below fs o H)).
  + intros x y Hx Hy.
    pose proof (new_inode_numbers_range fs o x H Hx).
    pose proof (assigned_lower ops _ y (exec_keys_below fs o H) Hy). lia.
- apply Forall_forall. intros k Hk k0 Hk0.
  pose proof (assigned_lower ops fs k H Hk).
  unfold keys_below_next in H. rewrite Forall_forall in H.
  specialize (H k0 Hk0). lia.
Qed.
End InodeNumbers.

(** ** Calls that do nothing, and calls that should *)

Lemma bind_read_ok {A B} (f : t -> result A) (k : A -> M B) fs a :
  f fs = Ok a -> bind (read f) k fs = k a fs.
Proof. intros H. unfold bind, read. now rewrite H. Qed.

Lemma bind_read_raise {A B} (f : t -> result A) (k : A -> M B) fs e :
  f fs = Raise e -> bind (read f) k fs = (Raise e, fs).
Proof. intros H. unfold bind, read. now rewrite H. Qed.

Lemma frames_snd {A} (m : M A) fs :
  frames m ->
  inode_table (snd (m fs)) = inode_table fs /\
  next_inode (snd (m fs)) = next_inode fs.
Proof. intros H. exact (H fs). Qed.

Section NoOps.
Context {codec : Utf8}.

Lemma lookup_in_none fs name : _lookup_in_directory fs None name = Ok None.
Proof. reflexivity. Qed.

Lemma frames_add_dir_entry_none name n : frames (_add_dir_entry None name n).
Proof.
unfold _add_dir_entry.
apply frames_bind; [apply frames_lift|intros entry_bytes].
apply frames_bind; [apply frames_read|intros inode]. apply frames_ret.
Qed.

(** C6: when the name exists in the resolved parent directory,
  [create_file] and [create_directory] return and leave the whole object
  (inode table, allocator, counter, superblock and device) as it was. *)
Theorem create_existing_is_noop fs path now parent name parent_inode existing :
_split_path path = Some (parent, name) ->
_find_inode fs parent = Ok parent_inode ->
_lookup_in_directory fs parent_inode name = Ok (Some existing) ->
create_file path now fs = (Ok tt, fs) /\
create_directory path now fs = (Ok tt, fs).
Proof.
intros Hs Hp He. unfold create_file, create_directory. rewrite Hs.
rewrite !(bind_read_ok _ _ fs parent_inode Hp).
rewrite !(bind_read_ok _ _ fs (Some existing) He).
split; reflexivity.
Qed.

(** The calls on a path that does not resolve which leave the object as it
  was: [write_file], [read_file] and [list_directory] return at once, and
  [delete_file] does when the parent or the name is not found. *)
Lemma unresolved_path_no_mutation fs path data now :
_find_inode fs path = Ok None ->
write_file path data now fs = (Ok tt, fs) /\
read_file fs path = Ok [] /\
list_directory fs path = Ok [].
Proof.
intros H. unfold write_file, read_file, list_directory.
rewrite (bind_read_ok _ _ fs None H). rewrite H. repeat split.
Qed.

Lemma delete_unresolved_no_mutation fs path parent name parent_inode :
_split_path path = Some (parent, name) ->
_find_inode fs parent = Ok parent_inode ->
_lookup_in_directory fs parent_inode name = Ok None ->
delete_file path fs = (Ok tt, fs).
Proof.
intros Hs Hp Hn. unfold delete_file. rewrite Hs.
rewrite (bind_read_ok _ _ fs parent_inode Hp).
rewrite (bind_read_ok _ _ fs None Hn). reflexivity.
Qed.

(** C5 fails for the two creating calls: when the parent path does not
  resolve, [create_file] and [create_directory] still take an inode
  number and store an inode that no directory names. *)
Theorem create_on_missing_parent_mutates fs path now parent name :
_split_path path = Some (parent, name) ->
_find_inode fs parent = Ok None ->
let fs1 := snd (create_file path now fs) in
let fs2 := snd (create_directory path now fs) in
next_inode fs1 = next_inode fs + 1 /\
table_get (next_inode fs) (inode_table fs1) = Some (Inode.init REGULAR now) /\
next_inode fs2 = next_inode fs + 1 /\
exists inode,
  table_get (next_inode fs) (inode_table fs2) = Some inode /\
  Inode.file_type inode = DIRECTORY.
Proof.
intros Hs Hp. unfold create_file, create_directory. rewrite Hs.
rewrite !(bind_read_ok _ _ fs None Hp).
rewrite !(bind_read_ok _ _ fs None (lookup_in_none fs name)).
cbv zeta. split; [|split; [|split]].
- unfold bind at 1. cbn [take_inode_num]. unfold bind at 1, store_inode at 1, modify at 1.
  match goal with |- next_inode (snd (?m ?s)) = _ =>
    assert (F : frames m) end.
  { apply frames_bind; [apply frames_add_dir_entry_none|intros _; apply frames_sync]. }
  rewrite (proj2 (F _)). reflexivity.
- unfold bind at 1. cbn [take_inode_num]. unfold bind at 1, store_inode at 1, modify at 1.
  match goal with |- table_get _ (inode_table (snd (?m ?s))) = _ =>
    assert (F : frames m) end.
  { apply frames_bind; [apply frames_add_dir_entry_none|intros _; apply frames_sync]. }
  rewrite (proj1 (F _)). cbn [inode_table set_inode_table set_next_inode next_inode].
  apply table_get_set_same.
- unfold bind at 1, allocate_block at 1.
  destruct (BlockAllocator.allocate_block (allocator fs)) as [b a].
  unfold bind at 1. cbn [take_inode_num]. unfold bind at 1, store_inode at 1, modify at 1.
  match goal with |- next_inode (snd (?m ?s)) = _ =>
    assert (F : frames m) end.
  { apply frames_bind; [apply frames_write_block|intros _].
    apply frames_bind; [apply frames_add_dir_entry_none|intros _; apply frames_sync]. }
  rewrite (proj2 (F _)). reflexivity.
- unfold bind at 1, allocate_block at 1.
  destruct (BlockAllocator.allocate_block (allocator fs)) as [b a].
  unfold bind at 1. cbn [take_inode_num]. unfold bind at 1, store_inode at 1, modify at 1.
  match goal with |- exists _, table_get _ (inode_table (snd (?m ?s))) = _ /\ _ =>
    assert (F : frames m) end.
  { apply frames_bind; [apply frames_write_block|intros _].
    apply frames_bind; [apply frames_add_dir_entry_none|intros _; apply frames_sync]. }
  rewrite (proj1 (F _)). cbn [inode_table set_inode_table set_next_inode next_inode set_allocator].
  eexists. split; [apply table_get_set_same|reflexivity].
Qed.
End NoOps.

(** ** Running out of blocks *)

Lemma count_free_nonneg a n : forall i, 0 <= BlockAllocator.count_free a n i.
Proof.
  induction n as [|n IH]; intros i; simpl; [lia|].
  specialize (IH (i + 1)). destruct (BlockAllocator.is_allocated a i); lia.
Qed.

Lemma no_free_block a n : forall i,
  BlockAllocator.count_free a n i = 0 -> BlockAllocator.first_free a n i = None.
Proof.
  induction n as [|n IH]; intros i; simpl; [reflexivity|].
  pose proof (count_free_nonneg a n (i + 1)).
  destruct (BlockAllocator.is_allocated a i); [intros H0; apply IH; lia|lia].
Qed.

Lemma allocate_block_full a :
  BlockAllocator.free_blocks a = 0 ->
  BlockAllocator.allocate_block a = (None, a).
Proof.
  unfold BlockAllocator.free_blocks, BlockAllocator.allocate_block.
  intros H. now rewrite (no_free_block _ _ _ H).
Qed.

Section OutOfSpace.
Context {codec : Utf8}.

(** C4 fails: with no free block left, [write_file] of at least one byte to
  an empty regular file stores the [None] of the allocator in the inode
  and raises [TypeError] when it writes the block. *)
Theorem write_file_out_of_space fs path data now k inode :
_find_inode fs path = Ok (Some k) ->
table_get k (inode_table fs) = Some inode ->
Inode.file_type inode = REGULAR ->
Inode.block_count inode = 0 ->
BlockAllocator.free_blocks (allocator fs) = 0 ->
data <> [] ->
fst (write_file path data now fs) = Raise TypeError /\
table_get k (inode_table (snd (write_file path data now fs))) =
Some (Inode.set_direct_block inode 0 None).
Proof.
intros Hp Hg Ht Hb Hf Hd.
assert (E : write_file path data now fs =
            (Raise TypeError,
             set_inode_table fs
               (table_set k (Inode.set_direct_block inode 0 None)
                          (inode_table fs)))).
{ unfold write_file.
  rewrite (bind_read_ok _ _ fs (Some k) Hp).
  rewrite (bind_read_ok (fun fs => Ok (table_get_opt (Some k) (inode_table fs)))
             _ fs (Some inode)) by (simpl; now rewrite Hg).
  rewrite Ht, Hb. cbn [FileType_eqb negb Z.to_nat free_existing].
  assert (Hn : exists m,
    Z.to_nat (Z.min ((len data + BLOCK_SIZE - 1) / BLOCK_SIZE) DIRECT_BLOCKS) = S m).
  { destruct data as [|x data]; [congruence|].
    assert (1 <= (len (x :: data) + BLOCK_SIZE - 1) / BLOCK_SIZE).
    { unfold len, BLOCK_SIZE. simpl List.length.
      apply Z.div_le_lower_bound; lia. }
    unfold DIRECT_BLOCKS.
    exists (Nat.pred (Z.to_nat (Z.min ((len (x :: data) + BLOCK_SIZE - 1) / BLOCK_SIZE) 12))).
    lia. }
  destruct Hn as [m Hm]. rewrite Hm. cbn [write_blocks].
  cbv beta iota zeta delta [bind ret allocate_block store_inode modify
                             write_block raise].
  rewrite (allocate_block_full _ Hf). reflexivity. }
rewrite E. cbn [fst snd inode_table set_inode_table].
split; [reflexivity|apply table_get_set_same].
Qed.
End OutOfSpace.

(** ** Termination of [tree] *)

Lemma filter_length_lt {A} (f g : A -> bool) (l : list A) x :
  In x l -> f x = true -> g x = false ->
  (forall y, g y = true -> f y = true) ->
  (List.length (filter g l) < List.length (filter f l))%nat.
Proof.
  intros Hin Hf Hg Himp.
  assert (Hle : forall l', (List.length (filter g l') <= List.length (filter f l'))%nat).
  { induction l' as [|a l' IH]; simpl; [lia|].
    destruct (g a) eqn:Ga.
    - rewrite (Himp a Ga). simpl. lia.
    - destruct (f a); simpl; lia. }
  induction l as [|a l IH]; [destruct Hin|].
  simpl. destruct Hin as [->|Hin].
  - rewrite Hf, Hg. simpl. specialize (Hle l). lia.
  - specialize (IH Hin). destruct (g a) eqn:Ga.
    + rewrite (Himp a Ga). simpl. lia.
    + destruct (f a); simpl; lia.
Qed.

Lemma unvisited_decreases fs visited n inode :
  table_get n (inode_table fs) = Some inode ->
  existsb (Z.eqb n) visited = false ->
  (unvisited fs (n :: visited) < unvisited fs visited)%nat.
Proof.
  intros Hg Hv. unfold unvisited.
  apply (filter_length_lt _ _ _ n).
  - exact (table_get_some_keys _ _ _ Hg).
  - now rewrite Hv.
  - simpl. now rewrite Z.eqb_refl.
  - intros y. simpl. rewrite !negb_true_iff, orb_false_iff. tauto.
Qed.

Section Tree.
Context {codec : Utf8}.

Lemma tree_children_returns rec path prefix count rest :
(forall child_path new_prefix is_last,
   rec child_path new_prefix is_last <> None) ->
forall i lines, tree_children rec path prefix count rest i lines <> None.
Proof.
intros Hrec. induction rest as [|entry rest IH]; intros i lines; simpl.
- discriminate.
- match goal with |- context [rec ?a ?b ?c] =>
    pose proof (Hrec a b c) as H; destruct (rec a b c) as [[child|e]|] end.
  + apply IH.
  + discriminate.
  + congruence.
Qed.

(** Fuel above the number of unvisited inodes of the table is enough. *)
Lemma tree_rec_returns fuel fs : forall visited path prefix is_last,
(unvisited fs visited < fuel)%nat ->
tree_rec fuel fs path prefix is_last visited <> None.
Proof.
induction fuel as [|fuel IH]; intros visited path prefix is_last Hlt; [lia|].
simpl.
destruct (_find_inode fs path) as [[inode_num|]|e]; try discriminate.
destruct (existsb (Z.eqb inode_num) visited) eqn:Hv; [discriminate|].
destruct (table_get inode_num (inode_table fs)) as [inode|] eqn:Hg;
  [|discriminate].
destruct (Inode.file_type inode); [discriminate|].
destruct (list_directory fs path) as [entries|e]; [|discriminate].
apply tree_children_returns. intros child_path new_prefix is_last_entry.
apply IH. pose proof (unvisited_decreases fs visited inode_num inode Hg Hv). lia.
Qed.

Lemma tree_children_more rec1 rec2 path prefix count rest :
(forall child_path new_prefix is_last r,
   rec1 child_path new_prefix is_last = Some r ->
   rec2 child_path new_prefix is_last = Some r) ->
forall i lines r,
  tree_children rec1 path prefix count rest i lines = Some r ->
  tree_children rec2 path prefix count rest i lines = Some r.
Proof.
intros Hrec. induction rest as [|entry rest IH]; intros i lines r; simpl.
- auto.
- match goal with |- context [rec1 ?a ?b ?c] =>
    pose proof (Hrec a b c) as H; destruct (rec1 a b c) as [[child|e]|] end.
  + rewrite (H _ eq_refl). apply IH.
  + now rewrite (H _ eq_refl).
  + discriminate.
Qed.

(** More fuel does not change a result. *)
Lemma tree_rec_more fuel fs : forall visited path prefix is_last r,
tree_rec fuel fs path prefix is_last visited = Some r ->
forall fuel', (fuel <= fuel')%nat ->
tree_rec fuel' fs path prefix is_last visited = Some r.
Proof.
induction fuel as [|fuel IH]; intros visited path prefix is_last r H fuel' Hle;
  [discriminate|].
destruct fuel' as [|fuel']; [lia|]. revert H. simpl.
destruct (_find_inode fs path) as [[inode_num|]|e]; try (intros H; exact H).
destruct (existsb (Z.eqb inode_num) visited); [intros H; exact H|].
destruct (table_get inode_num (inode_table fs)) as [inode|];
  [|intros H; exact H].
destruct (Inode.file_type inode); [intros H; exact H|].
destruct (list_directory fs path) as [entries|e]; [|intros H; exact H].
apply tree_children_more. intros child_path new_prefix is_last_entry r' H'.
apply (IH _ _ _ _ _ H'). lia.
Qed.

Lemma unvisited_le fs visited :
(unvisited fs visited <= List.length (inode_table fs))%nat.
Proof.
unfold unvisited, table_keys.
rewrite <- (length_map fst (inode_table fs)). apply filter_length_le.
Qed.

(** C9: [tree] returns on every state of the object and every argument (the
  recursion of the code never runs deeper than the table is long, and no
  amount of fuel beyond that changes the result); and on a path that
  resolves to an inode already in [visited] it returns the single line of
  the cycle marker under the connector, without descending. *)
Theorem tree_terminates_and_marks_cycles fs path prefix is_last visited :
(exists r,
   tree fs path prefix is_last visited = Some r /\
   forall fuel, (List.length (inode_table fs) < fuel)%nat ->
                tree_rec fuel fs path prefix is_last visited = Some r) /\
(forall inode_num,
   _find_inode fs path = Ok (Some inode_num) ->
   In inode_num visited ->
   tree fs path prefix is_last visited =
   Some (Ok [prefix ++ connector is_last ++ CYCLE_MARKER]%list)).
Proof.
split.
- unfold tree.
  destruct (tree_rec (S (List.length (inode_table fs))) fs path prefix is_last visited)
    as [r|] eqn:E.
  + exists r. split; [reflexivity|]. intros fuel Hf.
    apply (tree_rec_more _ _ _ _ _ _ _ E). lia.
  + exfalso. revert E. apply tree_rec_returns.
    pose proof (unvisited_le fs visited). lia.
- intros inode_num Hp Hin. unfold tree. simpl. rewrite Hp.
  assert (Hv : existsb (Z.eqb inode_num) visited = true).
  { apply existsb_exists. exists inode_num. split; [exact Hin|apply Z.eqb_refl]. }
  now rewrite Hv.
Qed.
End Tree.

(** ** The fuel of the loops *)

Lemma is_bytes_skipn n l : is_bytes l -> is_bytes (skipn n l).
Proof.
  unfold is_bytes. rewrite !Forall_forall. intros H x Hx.
  apply H. rewrite <- (firstn_skipn n l). apply in_or_app. now right.
Qed.

Lemma is_bytes_firstn n l : is_bytes l -> is_bytes (firstn n l).
Proof.
  unfold is_bytes. rewrite !Forall_forall. intros H x Hx.
  apply H. rewrite <- (firstn_skipn n l). apply in_or_app. now left.
Qed.

Lemma unpack_I_nonneg l v : is_bytes l -> unpack_I l = Ok v -> 0 <= v.
Proof.
  unfold unpack_I.
  destruct l as [|b0 [|b1 [|b2 [|b3 [|b4 l]]]]]; try discriminate.
  unfold is_bytes. intros H E.
  assert (Ev : v = b0 + 256 * b1 + 65536 * b2 + 16777216 * b3) by congruence.
  clear E.
  repeat match goal with
         | F : Forall _ (_ :: _) |- _ =>
             apply Forall_cons_iff in F; destruct F
         end.
  cbv beta in *. lia.
Qed.

Section Fuel.
Context {codec : Utf8}.

(** An entry decoded from bytes consumes at least its 8 bytes of header. *)
Lemma from_bytes_consumed data entry size :
is_bytes data -> DirEntry.from_bytes data = Ok (entry, size) -> 8 <= size.
Proof.
intros Hb. unfold DirEntry.from_bytes, rbind.
destruct (unpack_I (slice data 0 4)) as [inode_num|]; [|discriminate].
destruct (unpack_I (slice data 4 8)) as [name_len|] eqn:E; [|discriminate].
intros H. assert (Es : size = 8 + name_len) by congruence.
apply unpack_I_nonneg in E; [lia|].
unfold slice. now apply is_bytes_firstn, is_bytes_skipn.
Qed.

(** On a block of bytes, a scan that may still run [fuel] passes from
  [offset], where [offset + 8 * fuel] is past the block, ends before its
  fuel does: more fuel gives the same result. *)
Lemma lookup_entries_fuel fuel : forall block_data name offset fuel',
is_bytes block_data -> BLOCK_SIZE <= offset + 8 * Z.of_nat fuel ->
(fuel <= fuel')%nat ->
lookup_entries fuel' block_data name offset =
lookup_entries fuel block_data name offset.
Proof.
induction fuel as [|fuel IH]; intros block_data name offset fuel' Hb Hf Hle.
- destruct fuel' as [|fuel']; [reflexivity|]. unfold lookup_entries; fold lookup_entries.
  destruct (offset <? BLOCK_SIZE) eqn:E; [apply Z.ltb_lt in E; lia|reflexivity].
- destruct fuel' as [|fuel']; [lia|]. unfold lookup_entries; fold lookup_entries.
  destruct (offset <? BLOCK_SIZE); [|reflexivity].
  destruct (getitem block_data offset) as [b|]; [|reflexivity]. cbn [rbind].
  destruct (b =? 0); [reflexivity|].
  destruct (offset + 8 <=? BLOCK_SIZE); [|reflexivity].
  destruct (DirEntry.from_bytes (slice_from block_data offset))
    as [[entry size]|] eqn:E; [|reflexivity]. cbn [rbind].
  destruct (str_eqb (DirEntry.name entry) name); [reflexivity|].
  apply from_bytes_consumed in E; [|now apply is_bytes_skipn].
  apply IH; [exact Hb|lia|lia].
Qed.

Lemma list_entries_fuel fuel : forall block_data offset entries fuel',
is_bytes block_data -> BLOCK_SIZE <= offset + 8 * Z.of_nat fuel ->
(fuel <= fuel')%nat ->
list_entries fuel' block_data offset entries =
list_entries fuel block_data offset entries.
Proof.
induction fuel as [|fuel IH]; intros block_data offset entries fuel' Hb Hf Hle.
- destruct fuel' as [|fuel']; [reflexivity|]. unfold list_entries; fold list_entries.
  destruct (offset <? BLOCK_SIZE) eqn:E; [apply Z.ltb_lt in E; lia|reflexivity].
- destruct fuel' as [|fuel']; [lia|]. unfold list_entries; fold list_entries.
  destruct (offset <? BLOCK_SIZE); [|reflexivity].
  destruct (getitem block_data offset) as [b|]; [|reflexivity]. cbn [rbind].
  destruct (b =? 0); [reflexivity|].
  destruct (offset + 8 <=? BLOCK_SIZE); [|reflexivity].
  destruct (DirEntry.from_bytes (slice_from block_data offset))
    as [[entry size]|] eqn:E; [|reflexivity]. cbn [rbind].
  apply from_bytes_consumed in E; [|now apply is_bytes_skipn].
  apply IH; [exact Hb|lia|lia].
Qed.

Lemma end_of_entries_fuel fuel : forall block_data offset fuel',
is_bytes block_data -> BLOCK_SIZE <= offset + 8 * Z.of_nat fuel ->
(fuel <= fuel')%nat ->
end_of_entries fuel' block_data offset = end_of_entries fuel block_data offset.
Proof.
induction fuel as [|fuel IH]; intros block_data offset fuel' Hb Hf Hle.
- destruct fuel' as [|fuel']; [reflexivity|]. unfold end_of_entries; fold end_of_entries.
  destruct (offset <? BLOCK_SIZE) eqn:E; [apply Z.ltb_lt in E; lia|reflexivity].
- destruct fuel' as [|fuel']; [lia|]. unfold end_of_entries; fold end_of_entries.
  destruct (offset <? BLOCK_SIZE); [|reflexivity].
  destruct (getitem block_data offset) as [b|]; [|reflexivity]. cbn [rbind].
  destruct (b =? 0); [reflexivity|].
  destruct (offset + 8 <=? BLOCK_SIZE); [|reflexivity].
  destruct (DirEntry.from_bytes (slice_from block_data offset))
    as [[entry size]|] eqn:E; [|reflexivity]. cbn [rbind].
  apply from_bytes_consumed in E; [|now apply is_bytes_skipn].
  apply IH; [exact Hb|lia|lia].
Qed.

Lemma kept_entries_fuel fuel : forall block_data name offset entries fuel',
is_bytes block_data -> BLOCK_SIZE <= offset + 8 * Z.of_nat fuel ->
(fuel <= fuel')%nat ->
kept_entries fuel' block_data name offset entries =
kept_entries fuel block_data name offset entries.
Proof.
induction fuel as [|fuel IH];
  intros block_data name offset entries fuel' Hb Hf Hle.
- destruct fuel' as [|fuel']; [reflexivity|]. unfold kept_entries; fold kept_entries.
  destruct (offset <? BLOCK_SIZE) eqn:E; [apply Z.ltb_lt in E; lia|reflexivity].
- destruct fuel' as [|fuel']; [lia|]. unfold kept_entries; fold kept_entries.
  destruct (offset <? BLOCK_SIZE); [|reflexivity].
  destruct (getitem block_data offset) as [b|]; [|reflexivity]. cbn [rbind].
  destruct (b =? 0); [reflexivity|].
  destruct (offset + 8 <=? BLOCK_SIZE); [|reflexivity].
  destruct (DirEntry.from_bytes (slice_from block_data offset))
    as [[entry size]|] eqn:E; [|reflexivity]. cbn [rbind].
  apply from_bytes_consumed in E; [|now apply is_bytes_skipn].
  apply IH; [exact Hb|lia|lia].
Qed.

(** [SCAN_FUEL] passes cover a block from its start. *)
Lemma scan_fuel_covers : BLOCK_SIZE <= 0 + 8 * Z.of_nat SCAN_FUEL.
Proof. unfold BLOCK_SIZE, SCAN_FUEL. lia. Qed.
End Fuel.

(** The loop of [_read_inode_table] advances by 132 bytes a pass: with
    [offset + 132 * (fuel + 1)] past the block it ends before its fuel
    does, and 32 passes cover a block from its start. *)
Lemma read_inodes_fuel fuel : forall block_data offset tb fuel',
  BLOCK_SIZE < offset + (4 + INODE_SIZE) * (Z.of_nat fuel + 1) ->
  (fuel <= fuel')%nat ->
  read_inodes fuel' block_data offset tb = read_inodes fuel block_data offset tb.
Proof.
  unfold INODE_SIZE, BLOCK_SIZE.
  induction fuel as [|fuel IH]; intros block_data offset tb fuel' Hf Hle.
  - destruct fuel' as [|fuel']; [reflexivity|]. unfold read_inodes; fold read_inodes.
    unfold INODE_SIZE, BLOCK_SIZE.
    destruct (offset + 4 + 128 <=? 4096) eqn:E; [|reflexivity].
    apply Z.leb_le in E. lia.
  - destruct fuel' as [|fuel']; [lia|]. unfold read_inodes; fold read_inodes.
    unfold INODE_SIZE, BLOCK_SIZE.
    destruct (offset + 4 + 128 <=? 4096); [|reflexivity].
    destruct (unpack_I _) as [inode_num|]; [|reflexivity]. cbn [rbind].
    destruct (inode_num =? 0); [reflexivity|].
    destruct (Inode.from_bytes _) as [inode|]; [|reflexivity]. cbn [rbind].
    apply IH; lia.
Qed.

Lemma read_inode_table_fuel device fuel :
  (TABLE_FUEL <= fuel)%nat ->
  read_inodes fuel (BlockDevice.read_block device 2) 0 [] =
  _read_inode_table device.
Proof.
  intros H. unfold _read_inode_table. apply read_inodes_fuel; [|exact H].
  unfold BLOCK_SIZE, INODE_SIZE, TABLE_FUEL. lia.
Qed.

(** ** The host file *)

(** A write at [offset] keeps the first [offset] bytes of the file, and
    reads a file that ends before [offset] as followed by zero bytes. *)
Lemma head_padded_spec n : forall f,
  BlockDevice.head_padded n f = firstn n f ++ repeat 0 (n - List.length f).
Proof.
  induction n as [|n IH]; intros f; [reflexivity|].
  destruct f as [|b f]; simpl.
  - rewrite (IH []), firstn_nil. simpl. now rewrite Nat.sub_0_r.
  - now rewrite IH.
Qed.

(** ** Concrete runs *)

Section ConcreteRuns.
#[local] Existing Instance ascii_codec.

Lemma fresh_fs_created : create 1 1000 = Ok fresh_fs.
Proof.
unfold fresh_fs, mounted.
assert (H : is_ok (create 1 1000) = true) by (lazy; reflexivity).
destruct (create 1 1000); [reflexivity|discriminate].
Qed.

Lemma remounted_fs_opened : reopen fresh_fs = Ok remounted_fs.
Proof.
unfold remounted_fs, mounted.
assert (H : is_ok (reopen fresh_fs) = true) by (lazy; reflexivity).
destruct (reopen fresh_fs); [reflexivity|discriminate].
Qed.

Lemma full_fs_opened : open full_image = Ok full_fs.
Proof.
unfold full_fs, mounted.
assert (H : is_ok (open full_image) = true) by (lazy; reflexivity).
destruct (open full_image); [reflexivity|discriminate].
Qed.

Lemma fresh_fs_mounted : mounted_by fresh_fs.
Proof. left. exists 1, 1000. exact fresh_fs_created. Qed.

(** *** An oversized write *)

Lemma oversized_reachable : reachable oversized_fs.
Proof.
exists 1, 1000, fresh_fs, oversized. split; [exact fresh_fs_created|reflexivity].
Qed.

Lemma oversized_table :
table_get 2 (inode_table oversized_fs) = Some oversized_inode.
Proof. lazy. reflexivity. Qed.

(** C3 as stated fails: after [create_file("/f")] and a [write_file] of
  49153 bytes on a fresh image, inode 2 has [block_count = 13]. *)
Lemma inode_bounds_spec_violated :
~ (forall fs, reachable fs ->
   forall k i, table_get k (inode_table fs) = Some i -> inode_bounds_spec i).
Proof.
intros H.
destruct (H _ oversized_reachable 2 _ oversized_table) as [[_ Hle] _].
revert Hle. unfold oversized_inode, DIRECT_BLOCKS. simpl. lia.
Qed.

Lemma inode_bounds_reachable_witness :
reachable oversized_fs /\
table_get 2 (inode_table oversized_fs) = Some oversized_inode /\
inode_bounds oversized_inode.
Proof.
split; [exact oversized_reachable|]. split; [exact oversized_table|].
exact (inode_bounds_reachable oversized_fs oversized_reachable 2
         oversized_inode oversized_table).
Defined.

(** *** Inode numbers across a remount *)

Lemma reused_numbers :
assigned_events fresh_fs create_delete_reopen_create = [2; 2].
Proof. lazy. reflexivity. Qed.

(** C7 as stated fails: [create_file("/a")] takes number 2, and after
  [delete_file("/a")], [close] and [open], [create_file("/b")] takes
  number 2 again. *)
Lemma inode_number_reused_after_reopen :
~ (forall fs evs, mounted_by fs ->
   StronglySorted Z.lt (assigned_events fs evs)).
Proof.
intros H.
specialize (H fresh_fs create_delete_reopen_create fresh_fs_mounted).
rewrite reused_numbers in H.
inversion H as [|a l _ F]. inversion F as [|b l' Hlt _]. lia.
Qed.

Lemma inode_numbers_increase_within_mount_witness :
mounted_by fresh_fs /\
StronglySorted Z.lt (assigned fresh_fs create_delete_create) /\
Forall (fun k => forall k0,
          In k0 (table_keys (inode_table fresh_fs)) -> k0 < k)
       (assigned fresh_fs create_delete_create).
Proof.
split; [exact fresh_fs_mounted|].
exact (inode_numbers_increase_within_mount fresh_fs create_delete_create
         fresh_fs_mounted).
Defined.

Lemma within_mount_numbers : assigned fresh_fs create_delete_create = [2; 3].
Proof. lazy. reflexivity. Qed.

(** *** Write then read on a remounted image *)

(** C1 fails on the image [create] leaves behind: [create] writes the
  bitmap to the disk before it allocates the block of the root directory,
  so after [close] and [open] block 10 is free in the bitmap.  On that
  mount ["/f"] resolves to a regular file and 246 blocks are free, yet
  [write_file("/f", b"hello")] puts the data in block 10, over the root
  directory, and [read_file("/f")] returns [b""]. *)
Theorem write_then_read_after_remount :
let fs := remounted_with_file in
create 1 1000 = Ok fresh_fs /\
reopen fresh_fs = Ok remounted_fs /\
_find_inode fs (py "/f") = Ok (Some 2) /\
option_map Inode.file_type (table_get 2 (inode_table fs)) = Some REGULAR /\
BlockAllocator.free_blocks (allocator fs) = 246 /\
fst (write_file (py "/f") hello 1002 fs) = Ok tt /\
option_map Inode.direct_blocks
  (table_get 2 (inode_table (snd (write_file (py "/f") hello 1002 fs)))) =
option_map Inode.direct_blocks (table_get 1 (inode_table fs)) /\
read_file (snd (write_file (py "/f") hello 1002 fs)) (py "/f") = Ok [].
Proof.
split; [exact fresh_fs_created|]. split; [exact remounted_fs_opened|].
lazy. repeat split.
Qed.

(** In the mount that created the image the same calls round-trip. *)
Lemma write_then_read_same_mount :
  read_file (run fresh_fs [CreateFile (py "/f") 1001;
                           WriteFile (py "/f") hello 1002]) (py "/f") = Ok hello.
Proof. lazy. reflexivity. Qed.

(** *** Thirty-two inodes *)

(** C2 fails once the table holds more than 31 inodes: after 31
  [create_file] calls on a fresh image, [list_directory("/")] returns the
  31 names; [_write_inode_table] writes the first 31 records to block 2
  and then the 32nd over them, so after [close] and [open] the table holds
  inode 32 alone and [list_directory("/")] returns []. *)
Theorem listing_lost_after_reopen :
let fs := crowded_fs in
list_directory fs (py "/") = Ok names /\
after_reopen fs (fun fs' => list_directory fs' (py "/")) = Ok [] /\
after_reopen fs (fun fs' => Ok (table_keys (inode_table fs'))) = Ok [32].
Proof. lazy. repeat split. Qed.

(** *** Existing names and missing parents *)

Lemma create_existing_is_noop_witness :
_split_path (py "/f") = Some (py "/", py "f") /\
_find_inode fresh_with_file (py "/") = Ok (Some 1) /\
_lookup_in_directory fresh_with_file (Some 1) (py "f") = Ok (Some 2) /\
create_file (py "/f") 1002 fresh_with_file = (Ok tt, fresh_with_file) /\
create_directory (py "/f") 1002 fresh_with_file = (Ok tt, fresh_with_file).
Proof.
assert (Hs : _split_path (py "/f") = Some (py "/", py "f")) by reflexivity.
assert (Hp : _find_inode fresh_with_file (py "/") = Ok (Some 1))
  by (lazy; reflexivity).
assert (He : _lookup_in_directory fresh_with_file (Some 1) (py "f") = Ok (Some 2))
  by (lazy; reflexivity).
split; [exact Hs|]. split; [exact Hp|]. split; [exact He|].
exact (create_existing_is_noop fresh_with_file (py "/f") 1002 (py "/") (py "f")
         (Some 1) 2 Hs Hp He).
Defined.

Lemma create_on_missing_parent_mutates_witness :
_split_path (py "/x/y") = Some (py "/x", py "y") /\
_find_inode fresh_fs (py "/x") = Ok None /\
next_inode fresh_fs = 2 /\
next_inode (snd (create_file (py "/x/y") 1001 fresh_fs)) = 2 + 1 /\
table_get 2 (inode_table (snd (create_file (py "/x/y") 1001 fresh_fs))) =
Some (Inode.init REGULAR 1001).
Proof.
assert (Hs : _split_path (py "/x/y") = Some (py "/x", py "y")) by reflexivity.
assert (Hp : _find_inode fresh_fs (py "/x") = Ok None) by (lazy; reflexivity).
assert (Hn : next_inode fresh_fs = 2) by (lazy; reflexivity).
split; [exact Hs|]. split; [exact Hp|]. split; [exact Hn|].
destruct (create_on_missing_parent_mutates fresh_fs (py "/x/y") 1001
            (py "/x") (py "y") Hs Hp) as (H1 & H2 & _).
rewrite Hn in H1, H2. split; [exact H1|exact H2].
Defined.

(** *** A full disk *)

Lemma write_file_out_of_space_witness :
_find_inode full_with_file (py "/f") = Ok (Some 2) /\
table_get 2 (inode_table full_with_file) = Some (Inode.init REGULAR 1001) /\
BlockAllocator.free_blocks (allocator full_with_file) = 0 /\
fst (write_file (py "/f") [120] 1002 full_with_file) = Raise TypeError /\
table_get 2 (inode_table (snd (write_file (py "/f") [120] 1002 full_with_file))) =
Some (Inode.set_direct_block (Inode.init REGULAR 1001) 0 None).
Proof.
assert (Hp : _find_inode full_with_file (py "/f") = Ok (Some 2))
  by (lazy; reflexivity).
assert (Hg : table_get 2 (inode_table full_with_file) =
             Some (Inode.init REGULAR 1001)) by (lazy; reflexivity).
assert (Hf : BlockAllocator.free_blocks (allocator full_with_file) = 0)
  by (lazy; reflexivity).
split; [exact Hp|]. split; [exact Hg|]. split; [exact Hf|].
apply (write_file_out_of_space full_with_file (py "/f") [120] 1002 2
         (Inode.init REGULAR 1001) Hp Hg eq_refl eq_refl Hf).
discriminate.
Defined.

(** *** A directory that contains itself *)

Lemma cyclic_tree :
tree cyclic_fs (py "/") [] true [] =
Some (Ok [ICON_DIRECTORY ++ py "/";
          [TAB] ++ CONNECTOR_LAST ++ ICON_DIRECTORY ++ py "d";
          [TAB; TAB] ++ CONNECTOR_LAST ++ CYCLE_MARKER]%list).
Proof. lazy. reflexivity. Qed.

Lemma tree_terminates_and_marks_cycles_witness :
_find_inode cyclic_fs (py "/d/d") = Ok (Some 2) /\
In 2 [2; 1] /\
tree cyclic_fs (py "/d/d") [TAB; TAB] true [2; 1] =
Some (Ok [[TAB; TAB] ++ connector true ++ CYCLE_MARKER]%list).
Proof.
assert (Hp : _find_inode cyclic_fs (py "/d/d") = Ok (Some 2))
  by (lazy; reflexivity).
assert (Hin : In 2 [2; 1]) by (left; reflexivity).
split; [exact Hp|]. split; [exact Hin|].
exact (proj2 (tree_terminates_and_marks_cycles cyclic_fs (py "/d/d")
                [TAB; TAB] true [2; 1]) 2 Hp Hin).
Defined.
End ConcreteRuns.

(** ** Buffers *)

Lemma len_nonneg {A} (l : list A) : 0 <= len l.
Proof. unfold len. lia. Qed.

Lemma len_app {A} (l1 l2 : list A) : len (l1 ++ l2) = len l1 + len l2.
Proof. unfold len. rewrite length_app. lia. Qed.

Lemma len_zeros n : 0 <= n -> len (zeros n) = n.
Proof. intros H. unfold len, zeros. rewrite repeat_length. lia. Qed.

Lemma len_slice {A} (l : list A) a b :
  0 <= a -> a <= b -> b <= len l -> len (slice l a b) = b - a.
Proof.
  unfold len, slice. intros Ha Hab Hb.
  rewrite length_firstn, length_skipn. lia.
Qed.

Lemma len_slice_le {A} (l : list A) a b :
  a <= b -> len (slice l a b) <= b - a.
Proof.
  unfold len, slice. intros Hab. rewrite length_firstn. lia.
Qed.

Lemma len_set_slice {A} (l x : list A) a b :
  0 <= a -> a <= b -> b <= len l -> len x = b - a ->
  len (set_slice l a b x) = len l.
Proof.
  unfold len, set_slice. intros Ha Hab Hb Hx.
  rewrite !length_app, length_firstn, length_skipn. lia.
Qed.

(** Reading back the slice just assigned, and a slice beside it. *)
Lemma slice_set_slice_same {A} (l x : list A) a b :
  0 <= a -> a <= len l -> len x = b - a ->
  slice (set_slice l a b x) a b = x.
Proof.
  unfold len, slice, set_slice. intros Ha Hl Hx.
  rewrite skipn_app, length_firstn.
  rewrite (skipn_all2 (firstn _ _)) by (rewrite length_firstn; lia).
  replace (Z.to_nat a - Nat.min (Z.to_nat a) (List.length l))%nat with 0%nat by lia.
  cbn [app skipn].
  replace (Z.to_nat (b - a)) with (List.length x + 0)%nat by lia.
  now rewrite firstn_app_2, firstn_O, app_nil_r.
Qed.

Lemma slice_set_slice_before {A} (l x : list A) a b c d :
  0 <= c -> c <= d -> d <= a -> a <= len l ->
  slice (set_slice l a b x) c d = slice l c d.
Proof.
  unfold len, slice, set_slice. intros Hc Hcd Hda Hl.
  rewrite skipn_app, length_firstn, firstn_app.
  rewrite skipn_firstn_comm, length_firstn, length_skipn.
  replace (Z.to_nat c - Nat.min (Z.to_nat a) (List.length l))%nat with 0%nat by lia.
  replace (Z.to_nat (d - c) - Nat.min (Z.to_nat a - Z.to_nat c) (List.length l - Z.to_nat c))%nat
    with 0%nat by lia.
  rewrite firstn_O, app_nil_r, firstn_firstn.
  f_equal. lia.
Qed.

Lemma slice_set_slice_after {A} (l x : list A) a b c d :
  0 <= a -> a <= b -> b <= c -> b <= len l -> len x = b - a ->
  slice (set_slice l a b x) c d = slice l c d.
Proof.
  unfold len, slice, set_slice. intros Ha Hab Hbc Hl Hx.
  rewrite app_assoc, skipn_app.
  rewrite (skipn_all2 (_ ++ _)) by (rewrite length_app, length_firstn; lia).
  rewrite length_app, length_firstn. cbn [app].
  rewrite skipn_skipn. do 2 f_equal. lia.
Qed.

Lemma slice_app_left {A} (l1 l2 : list A) a b :
  0 <= a -> a <= b -> b <= len l1 -> slice (l1 ++ l2) a b = slice l1 a b.
Proof.
  unfold len, slice. intros Ha Hab Hb.
  rewrite skipn_app, firstn_app, length_skipn.
  replace (Z.to_nat (b - a) - (List.length l1 - Z.to_nat a))%nat with 0%nat by lia.
  now rewrite firstn_O, app_nil_r.
Qed.

Lemma slice_app_right {A} (l1 l2 : list A) a b :
  len l1 <= a -> slice (l1 ++ l2) a b = slice l2 (a - len l1) (b - len l1).
Proof.
  unfold len, slice. intros Ha.
  rewrite skipn_app, (skipn_all2 l1) by lia. cbn [app].
  f_equal; [lia|f_equal; lia].
Qed.

Lemma slice_full {A} (l : list A) b : len l <= b -> slice l 0 b = l.
Proof.
  unfold len, slice. intros H. cbn [Z.to_nat skipn].
  apply firstn_all2. lia.
Qed.

(** ** [struct] *)

Lemma length_le_bytes n : forall v, List.length (le_bytes n v) = n.
Proof. induction n as [|n IH]; intros v; cbn [le_bytes List.length]; [reflexivity|now rewrite IH]. Qed.

Lemma len_le_bytes n v : len (le_bytes n v) = Z.of_nat n.
Proof. unfold len. now rewrite length_le_bytes. Qed.

Lemma le_value_le_bytes n : forall v,
  le_value (le_bytes n v) = v mod 256 ^ Z.of_nat n.
Proof.
  induction n as [|n IH]; intros v.
  - cbn [le_bytes le_value]. now rewrite Z.mod_1_r.
  - cbn [le_bytes le_value]. rewrite IH.
    rewrite Nat2Z.inj_succ, Z.pow_succ_r by lia.
    rewrite Z.rem_mul_r by lia. reflexivity.
Qed.

Lemma is_bytes_le_bytes n : forall v, is_bytes (le_bytes n v).
Proof.
  unfold is_bytes. induction n as [|n IH]; intros v; cbn [le_bytes]; constructor.
  - apply Z.mod_pos_bound. lia.
  - apply IH.
Qed.

Lemma unpack_I_le_value l : List.length l = 4%nat -> unpack_I l = Ok (le_value l).
Proof.
  destruct l as [|b0 [|b1 [|b2 [|b3 [|b4 l]]]]]; try discriminate.
  intros _. unfold unpack_I, le_value. f_equal. lia.
Qed.

(** Packing succeeds on the values of the format, and unpacking gives
    the value back. *)
Lemma pack_I_ok v : 0 <= v < 4294967296 -> pack_I v = Ok (le_bytes 4 v).
Proof.
  intros H. unfold pack_I.
  now replace ((0 <=? v) && (v <? 4294967296)) with true by lia.
Qed.

Lemma pack_Q_ok v : 0 <= v < 18446744073709551616 -> pack_Q v = Ok (le_bytes 8 v).
Proof.
  intros H. unfold pack_Q.
  now replace ((0 <=? v) && (v <? 18446744073709551616)) with true by lia.
Qed.

Lemma pack_I_range v b : pack_I v = Ok b -> 0 <= v < 4294967296 /\ b = le_bytes 4 v.
Proof.
  unfold pack_I. destruct ((0 <=? v) && (v <? 4294967296)) eqn:E; [|discriminate].
  intros H. split; [lia|congruence].
Qed.

Lemma pack_Q_range v b :
  pack_Q v = Ok b -> 0 <= v < 18446744073709551616 /\ b = le_bytes 8 v.
Proof.
  unfold pack_Q.
  destruct ((0 <=? v) && (v <? 18446744073709551616)) eqn:E; [|discriminate].
  intros H. split; [lia|congruence].
Qed.

Lemma unpack_I_le_bytes v : 0 <= v < 4294967296 -> unpack_I (le_bytes 4 v) = Ok v.
Proof.
  intros H. rewrite unpack_I_le_value by apply length_le_bytes.
  rewrite le_value_le_bytes. f_equal. apply Z.mod_small. cbn. lia.
Qed.

Lemma unpack_Q_le_bytes v :
  0 <= v < 18446744073709551616 -> unpack_Q (le_bytes 8 v) = Ok v.
Proof.
  intros H. unfold unpack_Q. rewrite length_le_bytes. cbn [Nat.eqb].
  rewrite le_value_le_bytes. f_equal. apply Z.mod_small. cbn. lia.
Qed.

Lemma pack_into_I_ok buf offset v :
  0 <= v < 4294967296 -> offset + 4 <= len buf ->
  pack_into_I buf offset v = Ok (set_slice buf offset (offset + 4) (le_bytes 4 v)).
Proof.
  intros Hv Hl. unfold pack_into_I. rewrite pack_I_ok by exact Hv. cbn [rbind].
  now replace (offset + 4 <=? len buf) with true by lia.
Qed.

Lemma pack_into_Q_ok buf offset v :
  0 <= v < 18446744073709551616 -> offset + 8 <= len buf ->
  pack_into_Q buf offset v = Ok (set_slice buf offset (offset + 8) (le_bytes 8 v)).
Proof.
  intros Hv Hl. unfold pack_into_Q. rewrite pack_Q_ok by exact Hv. cbn [rbind].
  now replace (offset + 8 <=? len buf) with true by lia.
Qed.

Lemma pack_into_I_range buf offset v b :
  pack_into_I buf offset v = Ok b ->
  0 <= v < 4294967296 /\ b = set_slice buf offset (offset + 4) (le_bytes 4 v).
Proof.
  unfold pack_into_I. destruct (pack_I v) as [x|] eqn:E; [|discriminate].
  apply pack_I_range in E. destruct E as [Hv ->]. cbn [rbind].
  destruct (offset + 4 <=? len buf); [|discriminate].
  intros H. split; [exact Hv|congruence].
Qed.

Lemma pack_into_Q_range buf offset v b :
  pack_into_Q buf offset v = Ok b ->
  0 <= v < 18446744073709551616 /\
  b = set_slice buf offset (offset + 8) (le_bytes 8 v).
Proof.
  unfold pack_into_Q. destruct (pack_Q v) as [x|] eqn:E; [|discriminate].
  apply pack_Q_range in E. destruct E as [Hv ->]. cbn [rbind].
  destruct (offset + 8 <=? len buf); [|discriminate].
  intros H. split; [exact Hv|congruence].
Qed.

Ltac len_tac :=
  repeat first [ rewrite len_zeros by (unfold BLOCK_SIZE, INODE_SIZE; lia)
               | rewrite len_le_bytes
               | rewrite len_set_slice by len_tac ];
  unfold BLOCK_SIZE, INODE_SIZE; lia.

Ltac pack_step :=
  first [ rewrite pack_into_I_ok by (first [assumption | len_tac])
        | rewrite pack_into_Q_ok by (first [assumption | len_tac]) ];
  cbn [rbind].

Ltac read_field :=
  repeat first
    [ rewrite slice_set_slice_same by len_tac
    | rewrite slice_set_slice_before by len_tac
    | rewrite slice_set_slice_after by len_tac ].

Lemma superblock_round_trip (sb : Superblock.t) :
  u32 (Superblock.magic sb) -> u32 (Superblock.block_size sb) ->
  u32 (Superblock.total_blocks sb) -> u32 (Superblock.inode_count sb) ->
  u32 (Superblock.free_blocks sb) -> u32 (Superblock.root_inode sb) ->
  exists b,
    Superblock.to_bytes sb = Ok b /\ len b = BLOCK_SIZE /\
    Superblock.from_bytes b =
      Ok (Superblock.mk MAGIC_NUMBER (Superblock.block_size sb)
            (Superblock.total_blocks sb) (Superblock.inode_count sb)
            (Superblock.free_blocks sb) (Superblock.root_inode sb)).
Proof.
  unfold u32. intros Hm Hb Ht Hi Hf Hr.
  unfold Superblock.to_bytes. repeat pack_step.
  eexists. split; [reflexivity|]. split; [len_tac|].
  unfold Superblock.from_bytes.
  repeat (read_field; rewrite unpack_I_le_bytes by assumption; cbn [rbind]).
  reflexivity.
Qed.

Lemma superblock_to_bytes_range sb b :
  Superblock.to_bytes sb = Ok b ->
  u32 (Superblock.magic sb) /\ u32 (Superblock.block_size sb) /\
  u32 (Superblock.total_blocks sb) /\ u32 (Superblock.inode_count sb) /\
  u32 (Superblock.free_blocks sb) /\ u32 (Superblock.root_inode sb).
Proof.
  unfold Superblock.to_bytes, u32.
  repeat match goal with
         | |- rbind (pack_into_I ?d ?o ?v) _ = Ok _ -> _ =>
             let E := fresh "E" in
             destruct (pack_into_I d o v) eqn:E; [|discriminate];
             apply pack_into_I_range in E; destruct E as [? _]; cbn [rbind]
         end.
  intros _. repeat split; lia.
Qed.

Ltac inv_pack :=
  match goal with
  | |- rbind (pack_into_I ?d ?o ?v) _ = Ok _ -> _ =>
      let E := fresh "E" in
      destruct (pack_into_I d o v) eqn:E; [|discriminate];
      apply pack_into_I_range in E; destruct E as [? ->]; cbn [rbind]
  | |- rbind (pack_into_Q ?d ?o ?v) _ = Ok _ -> _ =>
      let E := fresh "E" in
      destruct (pack_into_Q d o v) eqn:E; [|discriminate];
      apply pack_into_Q_range in E; destruct E as [? ->]; cbn [rbind]
  | |- rbind (pack_into_I_opt ?d ?o ?s) _ = Ok _ -> _ =>
      let E := fresh "E" in
      destruct s as [?z|]; [|discriminate];
      cbn [pack_into_I_opt];
      match goal with
      | |- rbind (pack_into_I ?d ?o ?v) _ = Ok _ -> _ =>
        destruct (pack_into_I d o v) eqn:E; [|discriminate];
        apply pack_into_I_range in E; destruct E as [? ->]; cbn [rbind]
      end
  end.

Lemma le_bytes_8_value v :
  0 <= v < 18446744073709551616 -> le_value (le_bytes 8 v) = v.
Proof.
  intros H. rewrite le_value_le_bytes. apply Z.mod_small. cbn. lia.
Qed.

Lemma len_concat_le_bytes vs :
  len (List.concat (map (le_bytes 4) vs)) = 4 * len vs.
Proof.
  induction vs as [|v vs IH]; [reflexivity|].
  cbn [map List.concat]. rewrite len_app, IH, len_le_bytes. unfold len. cbn [List.length]. lia.
Qed.

(** Two assignments to adjacent slices are one assignment. *)
Lemma set_slice_adjacent {A} (l x y : list A) a b c :
  0 <= a -> a <= b -> b <= c -> b <= len l -> len x = b - a ->
  set_slice (set_slice l a b x) b c y = set_slice l a c (x ++ y).
Proof.
  unfold len, set_slice. intros Ha Hab Hbc Hl Hx.
  rewrite !app_assoc. rewrite firstn_app, length_app, length_firstn.
  rewrite (firstn_all2 (firstn _ l ++ x)) by (rewrite length_app, length_firstn; lia).
  replace (Z.to_nat b - (Nat.min (Z.to_nat a) (List.length l) + List.length x))%nat
    with 0%nat by lia.
  rewrite firstn_O, app_nil_r.
  rewrite skipn_app, length_app, length_firstn.
  rewrite (skipn_all2 (firstn _ l ++ x)) by (rewrite length_app, length_firstn; lia).
  cbn [app]. rewrite skipn_skipn. rewrite <- !app_assoc. do 4 f_equal. lia.
Qed.

Lemma set_slice_empty {A} (l : list A) a : 0 <= a -> set_slice l a a [] = l.
Proof. intros H. unfold set_slice. cbn [app]. apply firstn_skipn. Qed.

Lemma skipn_nth_error {A} (l : list A) : forall k x,
  nth_error l k = Some x -> skipn k l = x :: skipn (S k) l.
Proof.
  induction l as [|y l IH]; intros [|k] x H; try discriminate.
  - cbn in H. injection H as ->. reflexivity.
  - cbn [nth_error] in H. cbn [skipn]. now apply IH.
Qed.


(** The loop of [Inode.to_bytes] packs the slots one after the other. *)
Lemma write_direct_spec ino n : forall i data out,
  0 <= i -> 12 + 4 * (i + Z.of_nat n) <= len data ->
  Inode.write_direct ino data n i = Ok out ->
  exists vs,
    slot_values (firstn n (skipn (Z.to_nat i) (Inode.direct_blocks ino))) vs /\
    List.length vs = n /\
    out = set_slice data (12 + 4 * i) (12 + 4 * (i + Z.of_nat n))
            (List.concat (map (le_bytes 4) vs)).
Proof.
  induction n as [|n IH]; intros i data out Hi Hl.
  - cbn [Inode.write_direct]. intros H. exists []. repeat split; try constructor.
    cbn [map List.concat]. replace (12 + 4 * (i + Z.of_nat 0)) with (12 + 4 * i) by lia.
    rewrite set_slice_empty by lia. congruence.
  - cbn [Inode.write_direct]. unfold Inode.direct_block.
    destruct (nth_error (Inode.direct_blocks ino) (Z.to_nat i)) as [s|] eqn:En;
      [|discriminate]. cbn [rbind].
    destruct s as [v|]; [|discriminate]. cbn [pack_into_I_opt].
    destruct (pack_into_I data (12 + i * 4) v) as [d|] eqn:Ep; [|discriminate].
    apply pack_into_I_range in Ep. destruct Ep as [Hv ->]. cbn [rbind].
    intros H. apply IH in H; [|lia|rewrite len_set_slice by (rewrite ?len_le_bytes; lia); lia].
    destruct H as (vs & [Hs Hu] & Hn & ->).
    exists (v :: vs). split; [split|split].
    + rewrite (skipn_nth_error _ _ _ En). cbn [firstn map]. f_equal.
      replace (S (Z.to_nat i)) with (Z.to_nat (i + 1)) by lia. exact Hs.
    + constructor; [exact Hv|exact Hu].
    + cbn [List.length]. now rewrite Hn.
    + cbn [map List.concat].
      replace (12 + i * 4 + 4) with (12 + 4 * (i + 1)) by lia.
      replace (12 + i * 4) with (12 + 4 * i) by lia.
      rewrite set_slice_adjacent by (rewrite ?len_le_bytes; lia).
      f_equal. lia.
Qed.

Lemma app_inv_length {A} (l1 : list A) : forall l1' l2 l2',
  l1 ++ l2 = l1' ++ l2' -> List.length l1 = List.length l1' ->
  l1 = l1' /\ l2 = l2'.
Proof.
  induction l1 as [|x l1 IH]; intros [|y l1'] l2 l2' H Hl; try discriminate.
  - now split.
  - cbn [app] in H. injection H as -> H. injection Hl as Hl.
    destruct (IH _ _ _ H Hl) as [-> ->]. now split.
Qed.

Lemma firstn_plus {A} n m : forall l : list A,
  firstn (n + m) l = firstn n l ++ firstn m (skipn n l).
Proof.
  induction n as [|n IH]; intros l; [reflexivity|].
  destruct l as [|x l]; cbn [Nat.add firstn skipn app].
  - now rewrite firstn_nil.
  - now rewrite IH.
Qed.

Lemma slice_split {A} (l : list A) a b c :
  0 <= a -> a <= b -> b <= c -> slice l a c = slice l a b ++ slice l b c.
Proof.
  unfold slice. intros Ha Hab Hbc.
  replace (Z.to_nat (c - a)) with (Z.to_nat (b - a) + Z.to_nat (c - b))%nat by lia.
  rewrite firstn_plus, skipn_skipn. do 3 f_equal. lia.
Qed.

Lemma len_slice_full {A} (l : list A) a c :
  0 <= a -> a < c -> len (slice l a c) = c - a -> c <= len l.
Proof.
  unfold len, slice. rewrite length_firstn, length_skipn. intros. lia.
Qed.

(** The loop of [Inode.from_bytes] unpacks them. *)
Lemma read_direct_spec vs : forall data i,
  0 <= i -> Forall u32 vs ->
  slice data (12 + 4 * i) (12 + 4 * (i + len vs)) = List.concat (map (le_bytes 4) vs) ->
  Inode.read_direct data (List.length vs) i = Ok (map Some vs).
Proof.
  induction vs as [|v vs IH]; intros data i Hi Hu Hs; [reflexivity|].
  cbn [List.length Inode.read_direct map].
  apply Forall_cons_iff in Hu. destruct Hu as [Hv Hu].
  cbn [map List.concat] in Hs.
  assert (Hlen : len (v :: vs) = 1 + len vs) by (unfold len; cbn [List.length]; lia).
  rewrite Hlen in Hs. pose proof (len_nonneg vs) as Hn.
  rewrite (slice_split data (12 + 4 * i) (12 + 4 * (i + 1))) in Hs by lia.
  assert (Hlong : 12 + 4 * (i + (1 + len vs)) <= len data).
  { apply (len_slice_full data (12 + 4 * i)); [lia|lia|].
    rewrite (slice_split data (12 + 4 * i) (12 + 4 * (i + 1))) by lia.
    rewrite Hs, len_app, len_le_bytes, len_concat_le_bytes. lia. }
  apply app_inv_length in Hs.
  2:{ rewrite length_le_bytes. apply Nat2Z.inj. fold (len (slice data (12 + 4 * i) (12 + 4 * (i + 1)))).
      rewrite len_slice by lia. lia. }
  destruct Hs as [E1 E2].
  replace (12 + i * 4 + 4) with (12 + 4 * (i + 1)) by lia.
  replace (12 + i * 4) with (12 + 4 * i) by lia.
  rewrite E1, unpack_I_le_bytes by exact Hv. cbn [rbind].
  rewrite IH; [reflexivity|lia|exact Hu|].
  rewrite <- E2. f_equal. lia.
Qed.

Lemma Ok_inj {A} (a b : A) : Ok a = Ok b -> a = b.
Proof. congruence. Qed.

Lemma getitem_of_slice l i x :
  0 <= i -> slice l i (i + 1) = [x] -> getitem l i = Ok x.
Proof.
  unfold slice, getitem. intros Hi.
  replace (Z.to_nat (i + 1 - i)) with 1%nat by lia.
  rewrite <- (firstn_skipn (Z.to_nat i) l) at 2.
  destruct (skipn (Z.to_nat i) l) as [|y r] eqn:E; [discriminate|].
  cbn [firstn]. intros H. injection H as ->.
  assert (Hl : List.length (firstn (Z.to_nat i) l) = Z.to_nat i).
  { rewrite length_firstn. apply (f_equal (@List.length _)) in E.
    rewrite length_skipn in E. cbn [List.length] in E. lia. }
  rewrite nth_error_app2 by lia. rewrite Hl, Nat.sub_diag. reflexivity.
Qed.

Lemma len_singleton {A} (x : A) : len [x] = 1.
Proof. reflexivity. Qed.

Ltac len_tac2 :=
  repeat first [ rewrite len_zeros by (unfold BLOCK_SIZE, INODE_SIZE; lia)
               | rewrite len_le_bytes
               | rewrite len_singleton
               | rewrite len_concat_le_bytes
               | rewrite len_app
               | rewrite len_set_slice by len_tac2 ];
  unfold BLOCK_SIZE, INODE_SIZE, DIRECT_BLOCKS in *; lia.

Ltac read_field2 :=
  repeat first
    [ rewrite slice_set_slice_same by len_tac2
    | rewrite slice_set_slice_before by len_tac2
    | rewrite slice_set_slice_after by len_tac2 ].

Lemma FileType_of_value ft :
  (if FileType_value ft =? 1 then REGULAR
   else if FileType_value ft =? 2 then DIRECTORY else REGULAR) = ft.
Proof. now destruct ft. Qed.

Lemma inode_to_bytes_inv (ino : Inode.t) b :
  List.length (Inode.direct_blocks ino) = 12%nat ->
  Inode.to_bytes ino = Ok b ->
  exists vs,
    slot_values (Inode.direct_blocks ino) vs /\
    u32 (Inode.size ino) /\ u32 (Inode.block_count ino) /\
    u32 (Inode.indirect_block ino) /\ u32 (Inode.double_indirect_block ino) /\
    u64 (Inode.created ino) /\ u64 (Inode.modified ino) /\
    u64 (Inode.accessed ino).
Proof.
  intros Hl. unfold Inode.to_bytes.
  change (setitem (zeros INODE_SIZE) 0 (FileType_value (Inode.file_type ino)))
    with (set_slice (zeros INODE_SIZE) 0 1 [FileType_value (Inode.file_type ino)]).
  inv_pack. inv_pack.
  match goal with
  | |- rbind ?w _ = _ -> _ => destruct w as [d|] eqn:Ew; [|discriminate]
  end.
  apply write_direct_spec in Ew; [|lia|len_tac2].
  destruct Ew as (vs & Hs & Hn & ->). cbn [rbind].
  cbn [Z.to_nat skipn] in Hs. rewrite firstn_all2 in Hs by (rewrite Hl; reflexivity).
  repeat inv_pack. intros _. exists vs. unfold u32, u64. repeat split; try lia; apply Hs.
Qed.

(** One step of a serialisation: the buffer after the step, its equation
    and its length. *)
Ltac side_len :=
  rewrite ?len_le_bytes, ?len_singleton, ?len_concat_le_bytes, ?len_zeros
    by (unfold BLOCK_SIZE, INODE_SIZE; lia);
  unfold BLOCK_SIZE, INODE_SIZE, DIRECT_BLOCKS in *; lia.

Ltac keep_pack :=
  match goal with
  | |- rbind (pack_into_I ?d ?o ?v) _ = Ok _ -> _ =>
      let E := fresh "E" in let d' := fresh "d" in let L := fresh "L" in
      destruct (pack_into_I d o v) as [d'|] eqn:E; [|discriminate];
      apply pack_into_I_range in E; destruct E as [? E]; cbn [rbind];
      assert (L : len d' = len d) by (rewrite E; apply len_set_slice; side_len)
  | |- rbind (pack_into_Q ?d ?o ?v) _ = Ok _ -> _ =>
      let E := fresh "E" in let d' := fresh "d" in let L := fresh "L" in
      destruct (pack_into_Q d o v) as [d'|] eqn:E; [|discriminate];
      apply pack_into_Q_range in E; destruct E as [? E]; cbn [rbind];
      assert (L : len d' = len d) by (rewrite E; apply len_set_slice; side_len)
  end.

Lemma slice_layer_same {A} (d l x : list A) a b c e :
  d = set_slice l a b x ->
  c = a /\ e = b /\ 0 <= a /\ a <= len l /\ len x = b - a ->
  slice d c e = x.
Proof. intros -> (-> & -> & H). apply slice_set_slice_same; lia. Qed.

Lemma slice_layer_before {A} (d l x : list A) a b c e :
  d = set_slice l a b x ->
  0 <= c /\ c <= e /\ e <= a /\ a <= len l ->
  slice d c e = slice l c e.
Proof. intros -> H. apply slice_set_slice_before; lia. Qed.

Lemma slice_layer_after {A} (d l x : list A) a b c e :
  d = set_slice l a b x ->
  0 <= a /\ a <= b /\ b <= c /\ b <= len l /\ len x = b - a ->
  slice d c e = slice l c e.
Proof. intros -> H. apply slice_set_slice_after; lia. Qed.

Ltac read_layer :=
  match goal with
  | E : ?d = set_slice ?l ?a ?b ?x |- context [slice ?d ?c ?e] =>
      first [ rewrite (slice_layer_same d l x a b c e E) by side_len
            | rewrite (slice_layer_before d l x a b c e E) by side_len
            | rewrite (slice_layer_after d l x a b c e E) by side_len ]
  end.

Lemma inode_round_trip (ino : Inode.t) b :
  List.length (Inode.direct_blocks ino) = 12%nat ->
  Inode.to_bytes ino = Ok b ->
  len b = INODE_SIZE /\ Inode.from_bytes b = Ok ino.
Proof.
  intros Hl. unfold Inode.to_bytes.
  change (setitem (zeros INODE_SIZE) 0 (FileType_value (Inode.file_type ino)))
    with (set_slice (zeros INODE_SIZE) 0 1 [FileType_value (Inode.file_type ino)]).
  remember (set_slice (zeros INODE_SIZE) 0 1 _) as d0 eqn:E0.
  assert (L0 : len d0 = INODE_SIZE)
    by (rewrite E0, len_set_slice; side_len).
  keep_pack. keep_pack.
  match goal with
  | |- rbind ?w _ = _ -> _ => destruct w as [ds|] eqn:Ew; [|discriminate]
  end.
  apply write_direct_spec in Ew; [|lia|side_len].
  destruct Ew as (vs & [Hs Hu] & Hn & Es). cbn [rbind].
  cbn [Z.to_nat skipn] in Hs. rewrite firstn_all2 in Hs by (rewrite Hl; reflexivity).
  assert (Hv : len vs = 12) by (unfold len; rewrite Hn; reflexivity).
  change (Z.of_nat (Z.to_nat DIRECT_BLOCKS)) with 12 in Es.
  change (12 + 4 * 0) with 12 in Es. change (12 + 4 * (0 + 12)) with 60 in Es.
  assert (Ls : len ds = len d1) by (rewrite Es; apply len_set_slice; side_len).
  repeat keep_pack. intros Hb. apply Ok_inj in Hb. subst b.
  split; [lia|].
  unfold Inode.from_bytes.
  rewrite (getitem_of_slice _ 0 (FileType_value (Inode.file_type ino)))
    by (try lia; change (0 + 1) with 1; repeat read_layer; reflexivity).
  cbn [rbind]. rewrite FileType_of_value.
  repeat read_layer. rewrite unpack_I_le_bytes by assumption. cbn [rbind].
  repeat read_layer. rewrite unpack_I_le_bytes by assumption. cbn [rbind].
  replace (Z.to_nat DIRECT_BLOCKS) with (List.length vs) by (rewrite Hn; reflexivity).
  rewrite read_direct_spec;
    [|lia|exact Hu|rewrite Hv; change (12 + 4 * 0) with 12;
                   change (12 + 4 * (0 + 12)) with 60; repeat read_layer; reflexivity].
  cbn [rbind].
  repeat read_layer. rewrite unpack_I_le_bytes by assumption. cbn [rbind].
  repeat read_layer. rewrite unpack_I_le_bytes by assumption. cbn [rbind].
  repeat read_layer. rewrite unpack_Q_le_bytes by assumption. cbn [rbind].
  repeat read_layer. rewrite unpack_Q_le_bytes by assumption. cbn [rbind].
  repeat read_layer. rewrite unpack_Q_le_bytes by assumption. cbn [rbind].
  rewrite <- Hs. now destruct ino.
Qed.

Section DirEntryCodec.
Context {codec : Utf8}.

Lemma dir_entry_to_bytes_inv e b :
  DirEntry.to_bytes e = Ok b ->
  exists nb,
    encode_utf8 (DirEntry.name e) = Ok nb /\
    u32 (DirEntry.inode_num e) /\ u32 (len nb) /\
    b = le_bytes 4 (DirEntry.inode_num e) ++ le_bytes 4 (len nb) ++ nb.
Proof.
  unfold DirEntry.to_bytes.
  destruct (encode_utf8 (DirEntry.name e)) as [nb|]; [|discriminate]. cbn [rbind].
  destruct (pack_I (DirEntry.inode_num e)) as [i|] eqn:Ei; [|discriminate].
  apply pack_I_range in Ei. destruct Ei as [Hi ->]. cbn [rbind].
  destruct (pack_I (len nb)) as [l|] eqn:El; [|discriminate].
  apply pack_I_range in El. destruct El as [Hn ->]. cbn [rbind].
  intros H. apply Ok_inj in H. subst b. exists nb. now repeat split.
Qed.

Lemma dir_entry_from_bytes_app e nb rest :
  u32 (DirEntry.inode_num e) -> u32 (len nb) ->
  decode_utf8 nb = DirEntry.name e ->
  DirEntry.from_bytes
    ((le_bytes 4 (DirEntry.inode_num e) ++ le_bytes 4 (len nb) ++ nb) ++ rest) =
  Ok (e, 8 + len nb).
Proof.
  intros Hi Hn Hd. unfold DirEntry.from_bytes.
  rewrite <- !app_assoc.
  rewrite slice_app_left by (rewrite ?len_le_bytes; lia).
  rewrite slice_full by (rewrite ?len_le_bytes; lia).
  rewrite unpack_I_le_bytes by exact Hi. cbn [rbind].
  rewrite slice_app_right by (rewrite ?len_le_bytes; lia).
  rewrite len_le_bytes. change (4 - Z.of_nat 4) with 0. change (8 - Z.of_nat 4) with 4.
  rewrite slice_app_left by (rewrite ?len_le_bytes; lia).
  rewrite slice_full by (rewrite ?len_le_bytes; lia).
  rewrite unpack_I_le_bytes by exact Hn. cbn [rbind].
  rewrite slice_app_right by (rewrite ?len_le_bytes; lia).
  rewrite slice_app_right; [|rewrite ?len_le_bytes; lia].
  rewrite !len_le_bytes.
  replace (8 - Z.of_nat 4 - Z.of_nat 4) with 0 by lia.
  replace (8 + len nb - Z.of_nat 4 - Z.of_nat 4) with (len nb) by lia.
  rewrite slice_app_left by (pose proof (len_nonneg nb); lia).
  rewrite slice_full by lia. rewrite Hd. now destruct e.
Qed.
End DirEntryCodec.

(** ** The bitmap *)

(** The test [(byte & (1 << k)) != 0] reads bit [k] of the byte. *)
Lemma land_bit x k :
  0 <= k -> negb (Z.land x (Z.shiftl 1 k) =? 0) = Z.testbit x k.
Proof.
  intros Hk. rewrite Z.shiftl_1_l.
  destruct (Z.testbit x k) eqn:E.
  - apply negb_true_iff, Z.eqb_neq. intros H.
    apply (f_equal (fun z => Z.testbit z k)) in H.
    rewrite Z.land_spec, E, Z.pow2_bits_true, Z.bits_0 in H by lia. discriminate.
  - apply negb_false_iff, Z.eqb_eq. apply Z.bits_inj'. intros n Hn.
    rewrite Z.land_spec, Z.bits_0, Z.pow2_bits_eqb by lia.
    destruct (Z.eqb_spec k n) as [->|]; [now rewrite E|apply andb_false_r].
Qed.

Lemma set_bit_spec x k n (v : bool) :
  0 <= k -> 0 <= n ->
  Z.testbit (if v then Z.lor x (Z.shiftl 1 k)
             else Z.land x (Z.lnot (Z.shiftl 1 k))) n =
  if n =? k then v else Z.testbit x n.
Proof.
  intros Hk Hn. rewrite Z.shiftl_1_l. destruct v.
  - rewrite Z.lor_spec, Z.pow2_bits_eqb by lia. rewrite (Z.eqb_sym k n).
    destruct (n =? k); [apply orb_true_r|apply orb_false_r].
  - rewrite Z.land_spec, Z.lnot_spec, Z.pow2_bits_eqb by lia. rewrite (Z.eqb_sym k n).
    destruct (n =? k); [apply andb_false_r|apply andb_true_r].
Qed.

Lemma length_setitem {A} (l : list A) i v :
  0 <= i < len l -> List.length (setitem l i v) = List.length l.
Proof.
  unfold len, setitem. intros H.
  rewrite length_app, length_firstn. cbn [List.length]. rewrite length_skipn. lia.
Qed.

Lemma nth_setitem {A} (l : list A) i j v d :
  0 <= i < len l -> 0 <= j ->
  nth (Z.to_nat j) (setitem l i v) d = if j =? i then v else nth (Z.to_nat j) l d.
Proof.
  unfold len, setitem. intros Hi Hj.
  assert (Hf : List.length (firstn (Z.to_nat i) l) = Z.to_nat i)
    by (rewrite length_firstn; lia).
  destruct (Z.eqb_spec j i) as [->|Hne].
  - rewrite app_nth2 by lia. rewrite Hf, Nat.sub_diag. reflexivity.
  - destruct (Z.lt_ge_cases j i) as [Hlt|Hge].
    + rewrite app_nth1 by lia. rewrite nth_firstn.
      now replace (Z.to_nat j <? Z.to_nat i)%nat with true by (symmetry; apply Nat.ltb_lt; lia).
    + rewrite app_nth2 by lia. rewrite Hf.
      replace (Z.to_nat j - Z.to_nat i)%nat with (S (Z.to_nat j - Z.to_nat i - 1)) by lia.
      cbn [nth]. rewrite nth_skipn. f_equal. lia.
Qed.

Section Bitmap.
Import BlockAllocator.

(** A block read after a block is set: the bit written for that block,
    the old bit for any other. *)
Lemma is_allocated_set a b c v :
  0 <= b -> 0 <= c ->
  is_allocated (set_allocated a b v) c =
  if (c =? b) && (b / 8 <? len (bitmap a)) then v else is_allocated a c.
Proof.
  intros Hb Hc. unfold set_allocated.
  destruct (Z.leb_spec (len (bitmap a)) (b / 8)) as [Hout|Hin].
  - replace (b / 8 <? len (bitmap a)) with false by lia. now rewrite andb_false_r.
  - replace (b / 8 <? len (bitmap a)) with true by lia. rewrite andb_true_r.
    assert (Hb8 : 0 <= b / 8) by (apply Z.div_pos; lia).
    unfold is_allocated. cbn [bitmap].
    unfold len at 1. rewrite length_setitem by lia. fold (len (bitmap a)).
    destruct (Z.leb_spec (len (bitmap a)) (c / 8)) as [Hc8|Hc8].
    + destruct (Z.eqb_spec c b) as [->|]; [lia|reflexivity].
    + assert (0 <= c / 8) by (apply Z.div_pos; lia).
      assert (0 <= c mod 8 < 8) by (apply Z.mod_pos_bound; lia).
      assert (0 <= b mod 8 < 8) by (apply Z.mod_pos_bound; lia).
      rewrite !land_bit by lia. rewrite nth_setitem by lia.
      destruct (Z.eqb_spec (c / 8) (b / 8)) as [E8|N8].
      * rewrite set_bit_spec by lia.
        destruct (Z.eqb_spec (c mod 8) (b mod 8)) as [Em|Nm].
        -- replace (c =? b) with true; [reflexivity|].
           symmetry. apply Z.eqb_eq.
           rewrite (Z.div_mod c 8), (Z.div_mod b 8) by lia. lia.
        -- replace (c =? b) with false; [now rewrite E8|].
           symmetry. apply Z.eqb_neq. intros ->. lia.
      * replace (c =? b) with false; [reflexivity|].
        symmetry. apply Z.eqb_neq. intros ->. lia.
Qed.

Lemma total_blocks_set a b v : total_blocks (set_allocated a b v) = total_blocks a.
Proof. unfold set_allocated. now destruct (len (bitmap a) <=? b / 8). Qed.

Lemma len_bitmap_set a b v :
  0 <= b -> len (bitmap (set_allocated a b v)) = len (bitmap a).
Proof.
  intros Hb. unfold set_allocated.
  destruct (Z.leb_spec (len (bitmap a)) (b / 8)); [reflexivity|].
  cbn [bitmap]. unfold len. rewrite length_setitem; [reflexivity|].
  assert (0 <= b / 8) by (apply Z.div_pos; lia). lia.
Qed.

(** The scan of [allocate_block] finds the lowest free index. *)
Lemma first_free_some a n : forall i b,
  first_free a n i = Some b ->
  i <= b < i + Z.of_nat n /\ is_allocated a b = false /\
  forall c, i <= c < b -> is_allocated a c = true.
Proof.
  induction n as [|n IH]; intros i b; [discriminate|].
  cbn [first_free]. destruct (is_allocated a i) eqn:E.
  - intros H. apply IH in H. destruct H as (Hr & Hf & Hl).
    split; [lia|]. split; [exact Hf|].
    intros c Hc. destruct (Z.eq_dec c i) as [->|]; [exact E|apply Hl; lia].
  - intros H. injection H as <-. split; [lia|]. split; [exact E|]. intros c Hc. lia.
Qed.

Lemma first_free_none a n : forall i,
  first_free a n i = None <->
  forall c, i <= c < i + Z.of_nat n -> is_allocated a c = true.
Proof.
  induction n as [|n IH]; intros i.
  - cbn [first_free]. split; [intros _ c Hc; lia|reflexivity].
  - cbn [first_free]. destruct (is_allocated a i) eqn:E.
    + rewrite IH. split; intros H c Hc.
      * destruct (Z.eq_dec c i) as [->|]; [exact E|apply H; lia].
      * apply H. lia.
    + split; [discriminate|]. intros H. rewrite H in E by lia. discriminate.
Qed.

(** Counting. *)
Lemma count_free_bounds a n : forall i, 0 <= count_free a n i <= Z.of_nat n.
Proof.
  induction n as [|n IH]; intros i; cbn [count_free]; [lia|].
  specialize (IH (i + 1)). destruct (is_allocated a i); lia.
Qed.

Lemma count_free_ext a a' n : forall i,
  (forall c, i <= c < i + Z.of_nat n -> is_allocated a' c = is_allocated a c) ->
  count_free a' n i = count_free a n i.
Proof.
  induction n as [|n IH]; intros i H; cbn [count_free]; [reflexivity|].
  rewrite H by lia. rewrite IH; [reflexivity|]. intros c Hc. apply H. lia.
Qed.

Lemma count_free_zero a n : forall i,
  count_free a n i = 0 <->
  forall c, i <= c < i + Z.of_nat n -> is_allocated a c = true.
Proof.
  induction n as [|n IH]; intros i; cbn [count_free].
  - split; [intros _ c Hc; lia|reflexivity].
  - pose proof (count_free_bounds a n (i + 1)) as Hb.
    destruct (is_allocated a i) eqn:E.
    + rewrite Z.add_0_l, IH. split; intros H c Hc.
      * destruct (Z.eq_dec c i) as [->|]; [exact E|apply H; lia].
      * apply H. lia.
    + split; [lia|]. intros H. rewrite H in E by lia. discriminate.
Qed.

(** Setting the bit of block [b] changes the count by the change of that
    one block. *)
Lemma count_free_set a b v n : forall i,
  0 <= i -> 0 <= b -> b / 8 < len (bitmap a) ->
  count_free (set_allocated a b v) n i =
  count_free a n i
  + (if (i <=? b) && (b <? i + Z.of_nat n)
     then (if is_allocated a b then 1 else 0) - (if v then 1 else 0) else 0).
Proof.
  induction n as [|n IH]; intros i Hi Hb Hl.
  - cbn [count_free].
    destruct (Z.leb_spec i b), (Z.ltb_spec b (i + Z.of_nat 0)); cbn [andb]; lia.
  - cbn [count_free]. rewrite IH by lia. rewrite is_allocated_set by lia.
    replace (b / 8 <? len (bitmap a)) with true by lia. rewrite andb_true_r.
    destruct (Z.leb_spec (i + 1) b), (Z.ltb_spec b (i + 1 + Z.of_nat n)),
             (Z.leb_spec i b), (Z.ltb_spec b (i + Z.of_nat (S n)));
      cbn [andb]; try lia;
      destruct (Z.eqb_spec i b) as [->|Hne]; try lia;
      destruct v, (is_allocated a b); lia.
Qed.

Lemma div8_lt b n : 0 <= b -> (b / 8 < n <-> b < 8 * n).
Proof.
  intros Hb. pose proof (Z.div_mod b 8). pose proof (Z.mod_pos_bound b 8). lia.
Qed.

Lemma free_blocks_set a b v :
  0 <= b < 8 * len (bitmap a) ->
  free_blocks (set_allocated a b v) =
  free_blocks a
  + (if b <? total_blocks a
     then (if is_allocated a b then 1 else 0) - (if v then 1 else 0) else 0).
Proof.
  intros Hb. unfold free_blocks. rewrite total_blocks_set.
  rewrite count_free_set by (try apply div8_lt; lia).
  destruct (Z.leb_spec 0 b), (Z.ltb_spec b (total_blocks a)),
           (Z.ltb_spec b (0 + Z.of_nat (Z.to_nat (total_blocks a))));
    cbn [andb]; lia.
Qed.

(** X1: After set_allocated(b, v) on a block number b that the bitmap
    covers, is_allocated(b) is v and is_allocated of every other block
    number is unchanged; on a block number beyond the bitmap, set_allocated
    changes nothing and is_allocated(b) is False. *)
Theorem set_allocated_then_is_allocated a b v :
  0 <= b ->
  (b < 8 * len (bitmap a) ->
   is_allocated (set_allocated a b v) b = v /\
   forall c, 0 <= c -> c <> b ->
     is_allocated (set_allocated a b v) c = is_allocated a c) /\
  (8 * len (bitmap a) <= b ->
   set_allocated a b v = a /\ is_allocated a b = false).
Proof.
  intros Hb. split.
  - intros Hl. apply div8_lt in Hl; [|exact Hb]. split.
    + rewrite is_allocated_set by lia. rewrite Z.eqb_refl.
      now replace (b / 8 <? len (bitmap a)) with true by lia.
    + intros c Hc Hne. rewrite is_allocated_set by lia.
      now replace (c =? b) with false by lia.
  - intros Hl.
    assert (H8 : len (bitmap a) <= b / 8)
      by (pose proof (Z.div_mod b 8); pose proof (Z.mod_pos_bound b 8); lia).
    unfold set_allocated, is_allocated.
    now replace (len (bitmap a) <=? b / 8) with true by lia.
Qed.

(** X2: When allocate_block returns a block number b, b is the lowest block
    number below total_blocks that was not allocated; if the bitmap covers
    b, the block is allocated afterwards, no other block changes, and
    free_blocks() drops by one. *)
Theorem allocate_block_lowest_free a b a' :
  allocate_block a = (Some b, a') ->
  0 <= b < total_blocks a /\
  is_allocated a b = false /\
  (forall c, 0 <= c < b -> is_allocated a c = true) /\
  (b < 8 * len (bitmap a) ->
   is_allocated a' b = true /\
   (forall c, 0 <= c -> c <> b -> is_allocated a' c = is_allocated a c) /\
   free_blocks a' = free_blocks a - 1).
Proof.
  unfold allocate_block.
  destruct (first_free a (Z.to_nat (total_blocks a)) 0) as [i|] eqn:E; [|discriminate].
  intros H. injection H as -> <-.
  apply first_free_some in E. destruct E as (Hr & Hf & Hlow).
  split; [lia|]. split; [exact Hf|]. split; [exact Hlow|].
  intros Hl. assert (H8 : b / 8 < len (bitmap a)) by (apply div8_lt; lia).
  split; [|split].
  - rewrite is_allocated_set by lia. rewrite Z.eqb_refl.
    now replace (b / 8 <? len (bitmap a)) with true by lia.
  - intros c Hc Hne. rewrite is_allocated_set by lia.
    now replace (c =? b) with false by lia.
  - rewrite free_blocks_set by lia. rewrite Hf.
    replace (b <? total_blocks a) with true by lia. lia.
Qed.

(** X3: free_blocks() lies between 0 and total_blocks, and allocate_block
    returns None (leaving the allocator as it is) exactly when free_blocks()
    is 0. *)
Theorem free_blocks_bounds_and_exhaustion a :
  0 <= free_blocks a <= Z.max 0 (total_blocks a) /\
  (allocate_block a = (None, a) <-> free_blocks a = 0).
Proof.
  split.
  - unfold free_blocks.
    pose proof (count_free_bounds a (Z.to_nat (total_blocks a)) 0). lia.
  - unfold allocate_block, free_blocks.
    rewrite count_free_zero, <- first_free_none.
    destruct (first_free a (Z.to_nat (total_blocks a)) 0);
      split; intros H; try discriminate; reflexivity.
Qed.

(** X4: When allocate_block returns a block number that lies beyond the
    bitmap, the allocator is unchanged and the next allocate_block returns
    the same block number again. *)
Theorem allocate_block_beyond_bitmap a b a' :
  allocate_block a = (Some b, a') ->
  8 * len (bitmap a) <= b ->
  a' = a /\ allocate_block a' = (Some b, a').
Proof.
  intros H Hl. assert (Ea : a' = a).
  { unfold allocate_block in H.
    destruct (first_free a (Z.to_nat (total_blocks a)) 0) as [i|] eqn:E; [|discriminate].
    injection H as -> <-.
    apply first_free_some in E.
    assert (H8 : len (bitmap a) <= b / 8)
      by (pose proof (Z.div_mod b 8); pose proof (Z.mod_pos_bound b 8); lia).
    unfold set_allocated. now replace (len (bitmap a) <=? b / 8) with true by lia. }
  split; [exact Ea|]. rewrite Ea at 1. rewrite H. now rewrite Ea.
Qed.

(** X5: After free_block(b) on a block number below total_blocks that the
    bitmap covers, b is not allocated, and the next allocate_block returns a
    block number not above b: b itself when every lower block was allocated.
    *)
Theorem free_block_then_allocate a b :
  0 <= b < total_blocks a -> b < 8 * len (bitmap a) ->
  is_allocated (free_block a b) b = false /\
  exists c, fst (allocate_block (free_block a b)) = Some c /\ c <= b /\
            ((forall d, 0 <= d < b -> is_allocated a d = true) -> c = b).
Proof.
  intros Hb Hl. unfold free_block.
  replace (b <? total_blocks a) with true by lia.
  assert (H8 : b / 8 < len (bitmap a)) by (apply div8_lt; lia).
  assert (Hf : is_allocated (set_allocated a b false) b = false).
  { rewrite is_allocated_set by lia. rewrite Z.eqb_refl.
    now replace (b / 8 <? len (bitmap a)) with true by lia. }
  split; [exact Hf|].
  unfold allocate_block. rewrite total_blocks_set.
  destruct (first_free (set_allocated a b false) (Z.to_nat (total_blocks a)) 0)
    as [c|] eqn:E.
  - exists c. cbn [fst]. split; [reflexivity|].
    apply first_free_some in E. destruct E as (Hr & Hc & Hlow).
    assert (Hle : c <= b).
    { destruct (Z.le_gt_cases c b) as [|Hgt]; [assumption|].
      rewrite Hlow in Hf by lia. discriminate. }
    split; [exact Hle|]. intros Hbelow.
    destruct (Z.eq_dec c b) as [|Hne]; [assumption|].
    rewrite is_allocated_set in Hc by lia.
    replace (c =? b) with false in Hc by lia. cbn [andb] in Hc.
    rewrite Hbelow in Hc by lia. discriminate.
  - exfalso. rewrite first_free_none in E. rewrite E in Hf by lia. discriminate.
Qed.

Lemma is_allocated_zeros n m c : is_allocated (mk n (zeros m)) c = false.
Proof.
  unfold is_allocated. cbn [bitmap].
  destruct (len (zeros m) <=? c / 8); [reflexivity|].
  unfold zeros. rewrite nth_repeat. reflexivity.
Qed.

Lemma reserve_spec k : forall a start,
  0 <= start ->
  total_blocks (reserve a k start) = total_blocks a /\
  len (bitmap (reserve a k start)) = len (bitmap a) /\
  forall c, 0 <= c ->
    is_allocated (reserve a k start) c =
    if (start <=? c) && (c <? start + Z.of_nat k) && (c / 8 <? len (bitmap a))
    then true else is_allocated a c.
Proof.
  induction k as [|k IH]; intros a start Hs.
  - cbn [reserve]. repeat split. intros c Hc.
    destruct (Z.leb_spec start c), (Z.ltb_spec c (start + Z.of_nat 0)); cbn [andb];
      try reflexivity; lia.
  - cbn [reserve]. destruct (IH (set_allocated a start true) (start + 1)) as (Ht & Hl & Hb);
      [lia|].
    rewrite Ht, Hl, total_blocks_set, len_bitmap_set by lia.
    repeat split. intros c Hc. rewrite Hb by lia. rewrite len_bitmap_set by lia.
    rewrite is_allocated_set by lia.
    destruct (Z.leb_spec (start + 1) c), (Z.ltb_spec c (start + 1 + Z.of_nat k)),
             (Z.leb_spec start c), (Z.ltb_spec c (start + Z.of_nat (S k)));
      cbn [andb]; try lia;
      destruct (Z.eqb_spec c start) as [->|]; cbn [andb]; try lia;
      destruct (start / 8 <? len (bitmap a)); reflexivity || (destruct (c / 8 <? len (bitmap a)); reflexivity).
Qed.

Lemma count_free_threshold a t n : forall i,
  (forall c, i <= c < i + Z.of_nat n -> is_allocated a c = (c <? t)) ->
  count_free a n i = Z.max 0 (i + Z.of_nat n - Z.max i t).
Proof.
  induction n as [|n IH]; intros i H; cbn [count_free]; [lia|].
  rewrite H by lia. rewrite IH by (intros c Hc; apply H; lia).
  destruct (Z.ltb_spec i t); lia.
Qed.

Lemma allocator_init_ok n :
  -7 <= n ->
  exists a, init n = Ok a /\ total_blocks a = n /\
    (forall c, 0 <= c -> is_allocated a c = (c <? 10) && (c <? n)) /\
    free_blocks a = Z.max 0 (n - 10).
Proof.
  intros Hn.
  assert (Hd : (n + 7) / 8 < 0 <-> n < -7)
    by (pose proof (Z.div_mod (n + 7) 8); pose proof (Z.mod_pos_bound (n + 7) 8); lia).
  unfold init. replace ((n + 7) / 8 <? 0) with false by lia.
  eexists. split; [reflexivity|].
  destruct (reserve_spec (Z.to_nat (Z.min 10 n)) (mk n (zeros ((n + 7) / 8))) 0)
    as (Ht & Hl & Hb); [lia|].
  cbn [total_blocks bitmap] in *. rewrite len_zeros in * by lia.
  assert (Hbits : forall c, 0 <= c ->
            is_allocated (reserve (mk n (zeros ((n + 7) / 8)))
                                  (Z.to_nat (Z.min 10 n)) 0) c
            = (c <? 10) && (c <? n)).
  { intros c Hc. rewrite Hb by exact Hc. rewrite is_allocated_zeros.
    pose proof (Z.div_mod c 8). pose proof (Z.mod_pos_bound c 8).
    pose proof (Z.div_mod (n + 7) 8). pose proof (Z.mod_pos_bound (n + 7) 8).
    destruct (Z.leb_spec 0 c), (Z.ltb_spec c (0 + Z.of_nat (Z.to_nat (Z.min 10 n)))),
             (Z.ltb_spec (c / 8) ((n + 7) / 8)), (Z.ltb_spec c 10), (Z.ltb_spec c n);
      cbn [andb]; try reflexivity; lia. }
  split; [exact Ht|]. split; [exact Hbits|].
  unfold free_blocks. rewrite Ht.
  rewrite (count_free_threshold _ 10).
  - lia.
  - intros c Hc. rewrite Hbits by lia.
    destruct (Z.ltb_spec c 10), (Z.ltb_spec c n); cbn [andb]; try reflexivity; lia.
Qed.

Lemma allocator_init_negative n : n < -7 -> init n = Raise ValueError.
Proof.
  intros Hn.
  assert (Hd : (n + 7) / 8 < 0)
    by (pose proof (Z.div_mod (n + 7) 8); pose proof (Z.mod_pos_bound (n + 7) 8); lia).
  unfold init. now replace ((n + 7) / 8 <? 0) with true by lia.
Qed.

(** X6: BlockAllocator(n) raises ValueError for n < -7; otherwise it returns
    an allocator over n blocks in which exactly the block numbers below
    min(10, n) are allocated, so that free_blocks() is max(0, n - 10). *)
Theorem allocator_init_reserves_ten n :
  (n < -7 -> init n = Raise ValueError) /\
  (-7 <= n ->
   exists a, init n = Ok a /\ total_blocks a = n /\
     (forall c, 0 <= c -> is_allocated a c = (c <? 10) && (c <? n)) /\
     free_blocks a = Z.max 0 (n - 10)).
Proof.
  split; [apply allocator_init_negative|apply allocator_init_ok].
Qed.
End Bitmap.

(** ** The block device *)

Lemma length_head_padded n : forall f, List.length (BlockDevice.head_padded n f) = n.
Proof.
  induction n as [|n IH]; intros f; [reflexivity|].
  destruct f; cbn [BlockDevice.head_padded List.length]; now rewrite IH.
Qed.

Lemma slice_firstn {A} (l : list A) n a b :
  0 <= a -> a <= b -> b <= Z.of_nat n -> slice (firstn n l) a b = slice l a b.
Proof.
  unfold slice. intros Ha Hab Hb.
  rewrite skipn_firstn_comm, firstn_firstn. f_equal. lia.
Qed.

Lemma slice_skipn {A} (l : list A) n a b :
  0 <= a -> slice (skipn n l) a b = slice l (a + Z.of_nat n) (b + Z.of_nat n).
Proof.
  unfold slice. intros Ha. rewrite skipn_skipn. f_equal; [lia|f_equal; lia].
Qed.

Lemma skipn_repeat_eq {A} (x : A) k : forall n,
  skipn k (repeat x n) = repeat x (n - k).
Proof.
  induction k as [|k IH]; intros n.
  - now rewrite Nat.sub_0_r.
  - destruct n as [|n]; [reflexivity|]. cbn [repeat skipn]. apply IH.
Qed.

Lemma firstn_repeat_eq {A} (x : A) k : forall n,
  firstn k (repeat x n) = repeat x (Nat.min k n).
Proof.
  induction k as [|k IH]; intros n; [reflexivity|].
  destruct n as [|n]; [reflexivity|]. cbn [repeat firstn Nat.min]. now rewrite IH.
Qed.

Lemma slice_zeros n a b :
  0 <= a -> a <= b -> b <= n -> slice (zeros n) a b = zeros (b - a).
Proof.
  unfold slice, zeros. intros Ha Hab Hb.
  rewrite skipn_repeat_eq, firstn_repeat_eq. f_equal. lia.
Qed.

Lemma slice_beyond {A} (l : list A) a b : len l <= a -> slice l a b = [].
Proof.
  unfold len, slice. intros H. rewrite skipn_all2 by lia. apply firstn_nil.
Qed.

Lemma file_write_block d n data :
  BlockDevice.file (BlockDevice.write_block d n data) =
  BlockDevice.head_padded (Z.to_nat (n * BLOCK_SIZE)) (BlockDevice.file d)
  ++ data
  ++ skipn (Z.to_nat (n * BLOCK_SIZE) + List.length data) (BlockDevice.file d).
Proof. reflexivity. Qed.

Lemma len_file_write_block d n data :
  0 <= n ->
  len (BlockDevice.file (BlockDevice.write_block d n data)) =
  Z.max (len (BlockDevice.file d)) (n * BLOCK_SIZE + len data).
Proof.
  intros Hn. rewrite file_write_block. unfold len.
  rewrite !length_app, length_head_padded, length_skipn. unfold BLOCK_SIZE. lia.
Qed.

Lemma read_block_write_block_same d n data :
  0 <= n -> len data = BLOCK_SIZE ->
  BlockDevice.read_block (BlockDevice.write_block d n data) n = data.
Proof.
  intros Hn Hl. unfold BlockDevice.read_block. rewrite file_write_block.
  rewrite slice_app_right
    by (unfold len; rewrite length_head_padded; unfold BLOCK_SIZE; lia).
  unfold len at 1 2. rewrite length_head_padded.
  rewrite slice_app_left by (unfold BLOCK_SIZE in *; lia).
  replace (n * BLOCK_SIZE - Z.of_nat (Z.to_nat (n * BLOCK_SIZE))) with 0
    by (unfold BLOCK_SIZE; lia).
  apply slice_full. unfold BLOCK_SIZE in *. lia.
Qed.

Lemma read_block_write_block_other d n m data :
  0 <= n -> 0 <= m -> m <> n -> len data = BLOCK_SIZE ->
  n < m \/ (m + 1) * BLOCK_SIZE <= len (BlockDevice.file d) ->
  BlockDevice.read_block (BlockDevice.write_block d n data) m =
  BlockDevice.read_block d m.
Proof.
  intros Hn Hm Hne Hl Hin. unfold BlockDevice.read_block. rewrite file_write_block.
  unfold BLOCK_SIZE in *.
  destruct (Z.lt_ge_cases n m) as [Hlt|Hge].
  - rewrite app_assoc.
    rewrite slice_app_right
      by (unfold len in *; rewrite length_app, length_head_padded; lia).
    unfold len at 1 2. rewrite length_app, length_head_padded.
    rewrite slice_skipn by (unfold len in *; lia).
    f_equal; unfold len in *; lia.
  - destruct Hin as [|Hin]; [lia|].
    rewrite slice_app_left
      by (unfold len; rewrite ?length_head_padded; lia).
    rewrite head_padded_spec.
    rewrite slice_app_left
      by (unfold len in *; rewrite ?length_firstn; lia).
    apply slice_firstn; lia.
Qed.


Lemma differs_only_refl P d : differs_only P d d.
Proof. unfold differs_only. repeat split. lia. Qed.

Lemma differs_only_trans P d1 d2 d3 :
  differs_only P d1 d2 -> differs_only P d2 d3 -> differs_only P d1 d3.
Proof.
  intros (L1 & C1 & R1) (L2 & C2 & R2). split; [lia|]. split; [congruence|].
  intros m Hm HP Hin. rewrite R2 by (try assumption; lia). now apply R1.
Qed.

Lemma differs_only_weaken (P Q : Z -> Prop) d d' :
  (forall m, P m -> Q m) -> differs_only P d d' -> differs_only Q d d'.
Proof.
  intros H (L & C & R). split; [exact L|]. split; [exact C|].
  intros m Hm HQ Hin. apply R; auto.
Qed.

Lemma differs_only_write (P : Z -> Prop) d n data :
  0 <= n -> P n -> len data = BLOCK_SIZE ->
  differs_only P d (BlockDevice.write_block d n data).
Proof.
  intros Hn HP Hl. split; [|split].
  - rewrite len_file_write_block by exact Hn. lia.
  - reflexivity.
  - intros m Hm HPm Hin. apply read_block_write_block_other; try assumption.
    + intros ->. contradiction.
    + now right.
Qed.

(** X7: After write_block(n, data) with 4096 bytes of data, read_block(n)
    returns data; read_block(m) of another block is unchanged when m lies
    after n or inside the old file; the file grows to (n + 1) * 4096 bytes
    when it was shorter, and block_count is unchanged. *)
Theorem write_block_then_read_block d n m data :
  0 <= n -> 0 <= m -> len data = BLOCK_SIZE ->
  (m = n -> BlockDevice.read_block (BlockDevice.write_block d n data) m = data) /\
  (m <> n ->
   n < m \/ (m + 1) * BLOCK_SIZE <= len (BlockDevice.file d) ->
   BlockDevice.read_block (BlockDevice.write_block d n data) m =
   BlockDevice.read_block d m) /\
  len (BlockDevice.file (BlockDevice.write_block d n data)) =
    Z.max (len (BlockDevice.file d)) ((n + 1) * BLOCK_SIZE) /\
  BlockDevice.block_count (BlockDevice.write_block d n data) =
    BlockDevice.block_count d.
Proof.
  intros Hn Hm Hl. split; [|split; [|split]].
  - intros ->. now apply read_block_write_block_same.
  - intros Hne Hin. now apply read_block_write_block_other.
  - rewrite len_file_write_block by exact Hn. rewrite Hl. f_equal. lia.
  - reflexivity.
Qed.

(** X8: BlockDevice.create with size_mb >= 0 makes a file of size_mb *
    1048576 bytes with block_count = 256 * size_mb; opening that file gives
    the same device; read_block gives 4096 zero bytes for a block number
    below block_count and the empty bytes object for one at or beyond it. *)
Theorem device_create_zero_filled size_mb :
  0 <= size_mb ->
  BlockDevice.block_count (BlockDevice.create size_mb) = 256 * size_mb /\
  len (BlockDevice.file (BlockDevice.create size_mb)) = size_mb * 1048576 /\
  BlockDevice.open (BlockDevice.file (BlockDevice.create size_mb)) =
    BlockDevice.create size_mb /\
  forall m, 0 <= m ->
    BlockDevice.read_block (BlockDevice.create size_mb) m =
    if m <? 256 * size_mb then zeros BLOCK_SIZE else [].
Proof.
  intros Hs. unfold BlockDevice.create, BlockDevice.open. cbn [BlockDevice.block_count BlockDevice.file].
  assert (Hd : size_mb * 1024 * 1024 / BLOCK_SIZE = 256 * size_mb).
  { unfold BLOCK_SIZE. replace (size_mb * 1024 * 1024) with (256 * size_mb * 4096) by lia.
    apply Z.div_mul. lia. }
  rewrite len_zeros by lia. rewrite Hd.
  split; [reflexivity|]. split; [lia|]. split; [reflexivity|].
  intros m Hm. unfold BlockDevice.read_block. cbn [BlockDevice.file].
  unfold BLOCK_SIZE. destruct (Z.ltb_spec m (256 * size_mb)).
  - rewrite slice_zeros by lia. f_equal. lia.
  - apply slice_beyond. rewrite len_zeros by lia. lia.
Qed.

(** ** Path resolution *)


Lemma split_slash_nonnil p : split_slash p <> [].
Proof.
  destruct p as [|c p]; cbn [split_slash]; [discriminate|].
  destruct (N.eqb c SLASH); [discriminate|].
  destruct (split_slash p); discriminate.
Qed.

Lemma split_slash_app q : forall r,
  split_slash (q ++ SLASH :: r) = split_slash q ++ split_slash r.
Proof.
  induction q as [|c q IH]; intros r.
  - cbn [app split_slash]. rewrite N.eqb_refl. reflexivity.
  - cbn [app split_slash]. rewrite IH. destruct (N.eqb c SLASH); [reflexivity|].
    pose proof (split_slash_nonnil q).
    destruct (split_slash q) as [|piece rest]; [contradiction|reflexivity].
Qed.

Lemma split_slash_no_slash p : ~ In SLASH p -> split_slash p = [p].
Proof.
  induction p as [|c p IH]; intros H; [reflexivity|].
  cbn [split_slash]. destruct (N.eqb_spec c SLASH) as [->|Hne].
  - exfalso. apply H. now left.
  - rewrite IH; [reflexivity|]. intros Hin. apply H. now right.
Qed.

Lemma components_app q r :
  components (q ++ SLASH :: r) = components q ++ components r.
Proof. unfold components. now rewrite split_slash_app, filter_app. Qed.

Lemma components_lstrip p : components (lstrip_slash p) = components p.
Proof.
  induction p as [|c p IH]; [reflexivity|].
  cbn [lstrip_slash]. destruct (N.eqb_spec c SLASH) as [->|Hne]; [|reflexivity].
  rewrite IH. change (SLASH :: p) with ([] ++ SLASH :: p).
  now rewrite components_app.
Qed.

Lemma lstrip_slash_repeat p :
  exists k, p = repeat SLASH k ++ lstrip_slash p.
Proof.
  induction p as [|c p [k IH]]; [now exists 0%nat|].
  cbn [lstrip_slash]. destruct (N.eqb_spec c SLASH) as [->|Hne].
  - exists (S k). cbn [repeat app]. now f_equal.
  - now exists 0%nat.
Qed.

Lemma rstrip_slash_repeat p :
  exists k, p = rstrip_slash p ++ repeat SLASH k.
Proof.
  unfold rstrip_slash. destruct (lstrip_slash_repeat (rev p)) as [k Hk].
  exists k. rewrite <- (rev_involutive p) at 1. rewrite Hk at 1.
  rewrite rev_app_distr. f_equal.
  clear. induction k as [|k IH]; [reflexivity|].
  cbn [repeat rev]. rewrite IH. symmetry. apply repeat_cons.
Qed.

Lemma components_app_slashes q k : components (q ++ repeat SLASH k) = components q.
Proof.
  induction k as [|k IH]; [now rewrite app_nil_r|].
  cbn [repeat]. rewrite repeat_cons, app_assoc.
  change [SLASH] with (SLASH :: []). rewrite components_app, IH.
  apply app_nil_r.
Qed.

Lemma components_rstrip p : components (rstrip_slash p) = components p.
Proof.
  destruct (rstrip_slash_repeat p) as [k Hk].
  rewrite Hk at 2. now rewrite components_app_slashes.
Qed.

Lemma components_strip p : components (strip_slash p) = components p.
Proof. unfold strip_slash. now rewrite components_rstrip, components_lstrip. Qed.

Section Paths.
Context {codec : Utf8}.

Lemma find_inode_walk fs path :
  _find_inode fs path =
  walk fs (components path) (Some (Superblock.root_inode (superblock fs))).
Proof.
  unfold _find_inode. destruct (str_eqb path (py "/")) eqn:E.
  - apply str_eqb_eq in E. subst path. reflexivity.
  - fold (components (strip_slash path)). now rewrite components_strip.
Qed.


(** Paths with the same components resolve alike. *)
Lemma find_inode_components fs p q :
  components p = components q -> _find_inode fs p = _find_inode fs q.
Proof. intros H. now rewrite !find_inode_walk, H. Qed.

Lemma lookup_none fs name : _lookup_in_directory fs None name = Ok None.
Proof. reflexivity. Qed.

Lemma walk_none fs parts : walk fs parts None = Ok None.
Proof. destruct parts; reflexivity. Qed.

Lemma walk_app fs l1 : forall l2 c,
  walk fs (l1 ++ l2) c =
  (c' <- walk fs l1 c ;; walk fs l2 c')%res.
Proof.
  induction l1 as [|part l1 IH]; intros l2 c; [reflexivity|].
  cbn [app walk]. destruct (_lookup_in_directory fs c part) as [[x|]|e]; cbn [rbind].
  - apply IH.
  - now rewrite walk_none.
  - reflexivity.
Qed.

Lemma walk_one fs name c :
  walk fs [name] c = _lookup_in_directory fs c name.
Proof.
  cbn [walk]. now destruct (_lookup_in_directory fs c name) as [[x|]|e].
Qed.

Lemma components_name name : ~ In SLASH name -> name <> [] -> components name = [name].
Proof.
  intros Hs Hn. unfold components. rewrite split_slash_no_slash by exact Hs.
  destruct name; [contradiction|reflexivity].
Qed.

(** The path stripped of its trailing slashes, cut at its last slash. *)
Lemma split_path_shape path parent name :
  _split_path path = Some (parent, name) ->
  ~ In SLASH name /\
  components (rstrip_slash path) = components parent ++ components name.
Proof.
  destruct (split_path_cases path) as (H1 & H2 & H3).
  set (s := rstrip_slash path) in *.
  destruct (in_dec N.eq_dec SLASH s) as [Hin|Hnin].
  - destruct (rfind_slash_spec s) as [_ Hr]. destruct (Hr Hin) as (Hpos & Hnth & Htail).
    assert (Es : s = firstn (Z.to_nat (rfind_slash s)) s
                     ++ SLASH :: skipn (S (Z.to_nat (rfind_slash s))) s).
    { symmetry. apply firstn_skipn_middle. rewrite <- Hnth.
      apply nth_error_nth'. unfold len in Hpos. lia. }
    destruct (Z.eq_dec (rfind_slash s) 0) as [E0|N0].
    + rewrite (H2 Hin E0). intros H. injection H as <- <-.
      unfold slice_from. rewrite E0 in *. cbn [Z.to_nat Pos.to_nat Pos.iter_op Nat.add] in *.
      split; [exact Htail|]. rewrite Es at 1. cbn [firstn app].
      change (SLASH :: skipn 1 s) with ([] ++ SLASH :: skipn 1 s).
      rewrite components_app. reflexivity.
    + rewrite (H3 Hin ltac:(lia)). intros H. injection H as <- <-.
      unfold slice_from, slice. rewrite Z.sub_0_r. cbn [Z.to_nat skipn].
      replace (Z.to_nat (rfind_slash s + 1)) with (S (Z.to_nat (rfind_slash s))) by lia.
      split; [exact Htail|]. rewrite Es at 1. apply components_app.
  - rewrite (H1 Hnin). intros H. injection H as <- <-.
    split; [exact Hnin|reflexivity].
Qed.

(** X9: When _split_path(path) gives (parent, name) with a non-empty name,
    the name holds no '/', and _find_inode(path) is the lookup of name in
    the directory that _find_inode(parent) resolves to. *)
Theorem find_inode_of_split_path fs path parent name :
  _split_path path = Some (parent, name) -> name <> [] ->
  ~ In SLASH name /\
  _find_inode fs path =
  (d <- _find_inode fs parent ;; _lookup_in_directory fs d name)%res.
Proof.
  intros Hs Hn. destruct (split_path_shape _ _ _ Hs) as [Hno Hc].
  split; [exact Hno|].
  rewrite !find_inode_walk. rewrite <- (components_rstrip path), Hc.
  rewrite (components_name name Hno Hn), walk_app.
  destruct (walk fs (components parent) _) as [c|e]; cbn [rbind]; [|reflexivity].
  apply walk_one.
Qed.
End Paths.

(** ** The inode table on disk *)








Lemma serialisable_bytes ino :
  serialisable ino ->
  Inode.to_bytes ino = Ok (inode_bytes ino) /\
  len (inode_bytes ino) = 128 /\
  Inode.from_bytes (inode_bytes ino) = Ok ino.
Proof.
  intros [Hl [b Hb]]. unfold inode_bytes. rewrite Hb.
  destruct (inode_round_trip ino b Hl Hb) as [H1 H2]. now repeat split.
Qed.

Lemma len_record_bytes kv : serialisable (snd kv) -> len (record_bytes kv) = 132.
Proof.
  intros H. unfold record_bytes. rewrite len_app, len_le_bytes.
  destruct (serialisable_bytes _ H) as (_ & -> & _). reflexivity.
Qed.

Lemma len_records batch :
  Forall on_disk_entry batch ->
  len (List.concat (map record_bytes batch)) = 132 * len batch.
Proof.
  induction 1 as [|kv batch [_ Hs] _ IH]; [reflexivity|].
  cbn [map List.concat]. rewrite len_app, IH, len_record_bytes by exact Hs.
  unfold len. cbn [List.length]. lia.
Qed.

Lemma len_table_block batch :
  Forall on_disk_entry batch ->
  132 * len batch <= BLOCK_SIZE ->
  len (table_block batch) = BLOCK_SIZE.
Proof.
  intros Hf Hl. unfold table_block. rewrite len_app, len_records by exact Hf.
  rewrite len_zeros by lia. lia.
Qed.

Lemma zeros_split n m : 0 <= n -> 0 <= m -> zeros (n + m) = zeros n ++ zeros m.
Proof.
  intros Hn Hm. unfold zeros. rewrite Z2Nat.inj_add by lia. apply repeat_app.
Qed.

Lemma set_slice_at_end {A} (pre old post x : list A) a b :
  a = len pre -> b - a = len old -> a <= b ->
  set_slice (pre ++ old ++ post) a b x = pre ++ x ++ post.
Proof.
  intros -> Ho Hb. unfold set_slice, len in *.
  rewrite firstn_app, firstn_all2 by lia.
  replace (Z.to_nat (Z.of_nat (List.length pre)) - List.length pre)%nat with 0%nat by lia.
  rewrite firstn_O, app_nil_r. do 2 f_equal.
  rewrite skipn_app, skipn_all2 by lia. cbn [app].
  rewrite skipn_app, skipn_all2 by lia. cbn [app].
  replace (Z.to_nat b - List.length pre - List.length old)%nat with 0%nat by lia.
  reflexivity.
Qed.

(** Appending one record to the buffer. *)
Lemma table_block_append batch kv :
  Forall on_disk_entry batch ->
  0 < fst kv < 4294967296 -> serialisable (snd kv) ->
  132 * len batch + 132 <= BLOCK_SIZE ->
  exists d,
    pack_into_I (table_block batch) (132 * len batch) (fst kv) = Ok d /\
    set_slice d (132 * len batch + 4) (132 * len batch + 4 + INODE_SIZE)
              (inode_bytes (snd kv))
    = table_block (batch ++ [kv]).
Proof.
  intros Hf Hk Hs Hl. pose proof (len_table_block batch Hf ltac:(lia)) as Hlen.
  pose proof (len_nonneg batch) as Hnn.
  destruct (serialisable_bytes _ Hs) as (_ & Hib & _).
  rewrite pack_into_I_ok by lia. eexists. split; [reflexivity|].
  unfold INODE_SIZE.
  replace (132 * len batch + 4 + 128) with (132 * len batch + 132) by lia.
  rewrite set_slice_adjacent by (rewrite ?len_le_bytes; lia).
  fold (record_bytes kv). unfold table_block.
  replace (BLOCK_SIZE - 132 * len batch)
    with (132 + (BLOCK_SIZE - 132 * len (batch ++ [kv])))
    by (rewrite len_app; unfold len; cbn [List.length]; lia).
  rewrite zeros_split by (rewrite ?len_app; unfold len in *; cbn [List.length]; lia).
  rewrite (set_slice_at_end _ (zeros 132)); cycle 1.
  - now rewrite len_records.
  - rewrite len_zeros; lia.
  - lia.
  - rewrite map_app, concat_app. cbn [map List.concat]. rewrite app_nil_r.
    now rewrite <- app_assoc.
Qed.

Lemma table_block_nil : table_block [] = zeros BLOCK_SIZE.
Proof. reflexivity. Qed.

Lemma table_block_first kv :
  on_disk_entry kv ->
  exists d,
    pack_into_I (zeros BLOCK_SIZE) 0 (fst kv) = Ok d /\
    set_slice d (0 + 4) (0 + 4 + INODE_SIZE) (inode_bytes (snd kv))
    = table_block [kv].
Proof.
  intros [Hk Hs].
  apply (table_block_append [] kv); [constructor|exact Hk|exact Hs|].
  unfold BLOCK_SIZE. cbn. lia.
Qed.

(** The loop of [_write_inode_table]: the buffer holds the last batch. *)
Lemma write_inodes_last_batch items : forall device batch,
  Forall on_disk_entry batch -> Forall on_disk_entry items ->
  (List.length batch <= 31)%nat ->
  exists device',
    write_inodes device items (table_block batch) (132 * len batch) =
    (Ok (table_block (last_batch batch items),
         132 * len (last_batch batch items)), device') /\
    Forall on_disk_entry (last_batch batch items) /\
    (List.length (last_batch batch items) <= 31)%nat /\
    differs_only (fun m => m = 2) device device'.
Proof.
  induction items as [|[k ino] items IH]; intros device batch Hb Hi Hl.
  - exists device. cbn [write_inodes last_batch].
    split; [reflexivity|]. split; [exact Hb|]. split; [exact Hl|].
    apply differs_only_refl.
  - apply Forall_cons_iff in Hi. destruct Hi as [He Hi].
    pose proof He as [Hk Hs]. cbn [fst snd] in *.
    cbn [write_inodes last_batch].
    destruct (serialisable_bytes _ Hs) as (-> & Hib & _).
    destruct (Nat.leb_spec 31 (List.length batch)) as [Hfull|Hroom].
    + replace (132 * len batch + 4 + INODE_SIZE >? BLOCK_SIZE) with true
        by (unfold INODE_SIZE, BLOCK_SIZE, len; lia).
      destruct (table_block_first (k, ino) He) as (d & Hp & Hd).
      cbn [fst snd] in *. rewrite Hp, Hd.
      change (0 + 4 + INODE_SIZE) with (132 * len [(k, ino)]).
      destruct (IH (BlockDevice.write_block device 2 (table_block batch)) [(k, ino)])
        as (d' & Hw & Hf' & Hl' & Hd');
        [constructor; [exact He|constructor]|exact Hi|cbn; lia|].
      exists d'. split; [exact Hw|]. split; [exact Hf'|]. split; [exact Hl'|].
      eapply differs_only_trans; [|exact Hd'].
      apply differs_only_write; [lia|reflexivity|].
      apply len_table_block; [exact Hb|unfold BLOCK_SIZE, len; lia].
    + replace (132 * len batch + 4 + INODE_SIZE >? BLOCK_SIZE) with false
        by (unfold INODE_SIZE, BLOCK_SIZE, len; lia).
      destruct (table_block_append batch (k, ino)) as (d & Hp & Hd);
        [exact Hb|exact Hk|exact Hs|unfold BLOCK_SIZE, len; lia|].
      cbn [fst snd] in *. rewrite Hp, Hd.
      replace (132 * len batch + 4 + INODE_SIZE)
        with (132 * len (batch ++ [(k, ino)]))
        by (rewrite len_app; unfold INODE_SIZE, len; cbn [List.length]; lia).
      apply IH; [|exact Hi|rewrite length_app; cbn [List.length]; lia].
      apply Forall_app. split; [exact Hb|]. constructor; [exact He|constructor].
Qed.

Lemma table_set_absent k v tb :
  ~ In k (table_keys tb) -> table_set k v tb = tb ++ [(k, v)].
Proof.
  induction tb as [|[k' v'] tb IH]; intros H; [reflexivity|].
  cbn [table_set app]. destruct (Z.eqb_spec k k') as [->|Hne].
  - exfalso. apply H. now left.
  - rewrite IH; [reflexivity|]. intros Hin. apply H. now right.
Qed.

Lemma fold_table_set items : forall acc,
  NoDup (table_keys (acc ++ items)) ->
  fold_left (fun t kv => table_set (fst kv) (snd kv) t) items acc = acc ++ items.
Proof.
  induction items as [|[k v] items IH]; intros acc H; [now rewrite app_nil_r|].
  cbn [fold_left fst snd]. rewrite table_set_absent.
  - rewrite IH; rewrite <- app_assoc; [reflexivity|exact H].
  - unfold table_keys in *. rewrite map_app in H. cbn [map fst] in H.
    apply NoDup_remove_2 in H. intros Hin. apply H. apply in_or_app. now left.
Qed.

Lemma record_fields k ino rest :
  len (inode_bytes ino) = 128 ->
  slice (record_bytes (k, ino) ++ rest) 0 4 = le_bytes 4 k /\
  slice (record_bytes (k, ino) ++ rest) 4 132 = inode_bytes ino.
Proof.
  intros Hib. unfold record_bytes. cbn [fst snd]. rewrite <- app_assoc. split.
  - rewrite slice_app_left by (rewrite ?len_le_bytes; lia).
    apply slice_full. rewrite len_le_bytes. lia.
  - rewrite slice_app_right by (rewrite ?len_le_bytes; lia).
    rewrite len_le_bytes. change (4 - Z.of_nat 4) with 0.
    change (132 - Z.of_nat 4) with 128.
    rewrite slice_app_left by lia. apply slice_full. lia.
Qed.

(** The loop of [_read_inode_table] on a buffer of records. *)
Lemma read_inodes_records items : forall pre acc fuel m,
  Forall on_disk_entry items ->
  len pre + 132 * len items + m = BLOCK_SIZE -> 0 <= m ->
  (List.length items <= fuel)%nat ->
  read_inodes fuel (pre ++ List.concat (map record_bytes items) ++ zeros m)
              (len pre) acc =
  Ok (fold_left (fun t kv => table_set (fst kv) (snd kv) t) items acc).
Proof.
  induction items as [|[k ino] items IH]; intros pre acc fuel m Hi Hl Hm Hf.
  - cbn [map List.concat app fold_left].
    destruct fuel as [|fuel]; [reflexivity|].
    unfold read_inodes; fold read_inodes. unfold INODE_SIZE.
    change (len (@nil (Z * Inode.t))) with 0 in Hl.
    destruct (Z.leb_spec (len pre + 4 + 128) BLOCK_SIZE); [|reflexivity].
    rewrite slice_app_right by lia.
    replace (len pre - len pre) with 0 by lia.
    replace (len pre + 4 - len pre) with 4 by lia.
    rewrite slice_zeros by lia. reflexivity.
  - apply Forall_cons_iff in Hi. destruct Hi as [[Hk Hs] Hi]. cbn [fst snd] in *.
    destruct fuel as [|fuel]; [cbn [List.length] in Hf; lia|].
    assert (Hlen : len ((k, ino) :: items) = 1 + len items)
      by (unfold len; cbn [List.length]; lia).
    rewrite Hlen in Hl. pose proof (len_nonneg items) as Hnn.
    destruct (serialisable_bytes _ Hs) as (_ & Hib & Hfrom).
    unfold read_inodes; fold read_inodes. unfold INODE_SIZE.
    replace (len pre + 4 + 128 <=? BLOCK_SIZE) with true by lia.
    cbn [map List.concat]. rewrite <- !app_assoc.
    rewrite (slice_app_right pre _ (len pre) (len pre + 4)) by lia.
    rewrite (slice_app_right pre _ (len pre + 4) (len pre + 4 + 128)) by lia.
    replace (len pre - len pre) with 0 by lia.
    replace (len pre + 4 - len pre) with 4 by lia.
    replace (len pre + 4 + 128 - len pre) with 132 by lia.
    destruct (record_fields k ino
                (List.concat (map record_bytes items) ++ zeros m) Hib) as [-> ->].
    rewrite unpack_I_le_bytes by lia. cbn [rbind].
    replace (k =? 0) with false by lia.
    rewrite Hfrom. cbn [rbind fold_left fst snd].
    replace (len pre + 4 + 128) with (len (pre ++ record_bytes (k, ino)))
      by (rewrite len_app, len_record_bytes by exact Hs; lia).
    rewrite app_assoc. apply IH.
    + exact Hi.
    + rewrite len_app, len_record_bytes by exact Hs. lia.
    + exact Hm.
    + cbn [List.length] in Hf. lia.
Qed.

Lemma last_batch_skipn items : forall batch,
  (1 <= List.length batch <= 31)%nat ->
  last_batch batch items =
  skipn (31 * ((List.length batch + List.length items - 1) / 31)) (batch ++ items).
Proof.
  induction items as [|kv items IH]; intros batch Hb.
  - cbn [last_batch List.length]. rewrite Nat.add_0_r, app_nil_r.
    rewrite Nat.div_small by lia. reflexivity.
  - cbn [last_batch List.length].
    destruct (Nat.leb_spec 31 (List.length batch)) as [Hfull|Hroom].
    + rewrite IH by (cbn; lia). cbn [List.length app].
      replace (31 * ((List.length batch + S (List.length items) - 1) / 31))%nat
        with (31 * ((1 + List.length items - 1) / 31) + List.length batch)%nat.
      * rewrite <- skipn_skipn, skipn_app, skipn_all, Nat.sub_diag. reflexivity.
      * replace (List.length batch + S (List.length items) - 1)%nat
          with (1 * 31 + (1 + List.length items - 1))%nat by lia.
        rewrite Nat.div_add_l by lia. lia.
    + rewrite IH by (rewrite length_app; cbn [List.length]; lia).
      rewrite length_app, <- app_assoc. cbn [List.length app].
      do 3 f_equal. lia.
Qed.

Lemma last_batch_nil items :
  last_batch [] items =
  skipn (31 * ((List.length items - 1) / 31)) items.
Proof.
  destruct items as [|kv items]; [reflexivity|].
  change (last_batch [] (kv :: items)) with (last_batch [kv] items).
  rewrite last_batch_skipn by (cbn; lia). reflexivity.
Qed.

Lemma NoDup_skipn {A} n (l : list A) : NoDup l -> NoDup (skipn n l).
Proof.
  intros H. rewrite <- (firstn_skipn n l) in H. now apply NoDup_app_remove_l in H.
Qed.

Lemma table_keys_skipn n tb : table_keys (skipn n tb) = skipn n (table_keys tb).
Proof. unfold table_keys. symmetry. apply skipn_map. Qed.

Lemma write_inode_table_spec device tb :
  table_on_disk tb -> tb <> [] ->
  exists device',
    _write_inode_table device tb = (Ok tt, device') /\
    _read_inode_table device' =
      Ok (skipn (31 * ((List.length tb - 1) / 31)) tb) /\
    differs_only (fun m => m = 2) device device'.
Proof.
  intros [Hnd Hwf] Hne.
  destruct (write_inodes_last_batch tb device [] ltac:(constructor) Hwf ltac:(cbn; lia))
    as (d1 & Hw & Hlast & Hlen & Hd1).
  rewrite last_batch_nil in *.
  set (last := skipn (31 * ((List.length tb - 1) / 31)) tb) in *.
  assert (Hpos : (0 < List.length last)%nat).
  { subst last. rewrite length_skipn. destruct tb as [|kv tb]; [contradiction|].
    cbn [List.length]. rewrite Nat.sub_succ, Nat.sub_0_r.
    pose proof (Nat.Div0.mul_div_le (List.length tb) 31). lia. }
  assert (Hblock : len (table_block last) = BLOCK_SIZE)
    by (apply len_table_block; [exact Hlast|unfold BLOCK_SIZE, len; lia]).
  exists (BlockDevice.write_block d1 2 (table_block last)).
  split; [|split].
  - unfold _write_inode_table.
    change (zeros BLOCK_SIZE) with (table_block []).
    change 0 with (132 * len (@nil (Z * Inode.t))) at 1.
    rewrite Hw. replace (132 * len last >? 0) with true by (unfold len; lia).
    reflexivity.
  - unfold _read_inode_table.
    rewrite read_block_write_block_same by first [lia|exact Hblock].
    unfold table_block.
    change (List.concat (map record_bytes last) ++ zeros (BLOCK_SIZE - 132 * len last))
      with ([] ++ List.concat (map record_bytes last)
               ++ zeros (BLOCK_SIZE - 132 * len last)).
    change 0 with (len (@nil Z)) at 1.
    rewrite read_inodes_records.
    + rewrite fold_table_set; [reflexivity|]. cbn [app].
      subst last. rewrite table_keys_skipn. now apply NoDup_skipn.
    + exact Hlast.
    + change (len (@nil Z)) with 0. lia.
    + unfold BLOCK_SIZE, len. lia.
    + unfold TABLE_FUEL. lia.
  - eapply differs_only_trans; [exact Hd1|].
    apply differs_only_write; [lia|reflexivity|exact Hblock].
Qed.

(** X10: For a non-empty table of serialisable inodes under distinct 32-bit
    non-zero numbers, _write_inode_table returns and _read_inode_table then
    gives the entries after the last full batch of 31 (the entries from
    index 31 * ((n - 1) / 31) on): the whole table when it has at most 31
    entries. *)
Theorem inode_table_survives_last_batch device tb :
  table_on_disk tb -> tb <> [] ->
  exists device',
    _write_inode_table device tb = (Ok tt, device') /\
    _read_inode_table device' =
      Ok (skipn (31 * ((List.length tb - 1) / 31)) tb) /\
    ((List.length tb <= 31)%nat -> _read_inode_table device' = Ok tb).
Proof.
  intros Hwf Hne.
  destruct (write_inode_table_spec device tb Hwf Hne) as (d' & Hw & Hr & _).
  exists d'. split; [exact Hw|]. split; [exact Hr|].
  intros Hsmall. rewrite Hr. f_equal.
  rewrite Nat.div_small by lia. reflexivity.
Qed.

(** ** What the reading methods depend on *)


Section ReadOnly.
Context {codec : Utf8}.
Variables fs fs' : t.
Hypothesis Hsame : same_content fs fs'.

Lemma same_read_block b : read_block fs b = read_block fs' b.
Proof.
  destruct Hsame as (Hf & _). destruct b as [n|]; [|reflexivity].
  unfold read_block, BlockDevice.read_block. now rewrite Hf.
Qed.

Lemma same_lookup_blocks inode name n : forall i,
  lookup_blocks fs inode name n i = lookup_blocks fs' inode name n i.
Proof.
  induction n as [|n IH]; intros i; [reflexivity|].
  cbn [lookup_blocks]. rewrite IH.
  destruct (DIRECT_BLOCKS <=? i); [reflexivity|].
  destruct (Inode.direct_block inode i) as [b|]; [|reflexivity]. cbn [rbind].
  destruct (is_zero b); [reflexivity|]. rewrite same_read_block.
  destruct (read_block fs' b) as [d|]; [|reflexivity]. cbn [rbind].
  reflexivity.
Qed.

Lemma same_lookup d name :
  _lookup_in_directory fs d name = _lookup_in_directory fs' d name.
Proof.
  unfold _lookup_in_directory. destruct Hsame as (_ & <- & _).
  destruct (table_get_opt d (inode_table fs)) as [inode|]; [|reflexivity].
  destruct (negb _); [reflexivity|]. apply same_lookup_blocks.
Qed.

Lemma same_walk parts : forall c, walk fs parts c = walk fs' parts c.
Proof.
  induction parts as [|part parts IH]; intros c; [reflexivity|].
  cbn [walk]. rewrite same_lookup.
  destruct (_lookup_in_directory fs' c part) as [[x|]|]; cbn [rbind];
    [apply IH|reflexivity|reflexivity].
Qed.

Lemma same_find_inode path : _find_inode fs path = _find_inode fs' path.
Proof.
  unfold _find_inode. destruct Hsame as (_ & _ & <-).
  destruct (str_eqb path (py "/")); [reflexivity|]. apply same_walk.
Qed.

Lemma same_read_blocks inode n : forall i data remaining,
  read_blocks fs inode n i data remaining =
  read_blocks fs' inode n i data remaining.
Proof.
  induction n as [|n IH]; intros i data remaining; [reflexivity|].
  cbn [read_blocks].
  destruct (DIRECT_BLOCKS <=? i); [reflexivity|].
  destruct (Inode.direct_block inode i) as [b|]; [|reflexivity]. cbn [rbind].
  destruct (is_zero b); [reflexivity|]. rewrite same_read_block.
  destruct (read_block fs' b) as [d|]; [|reflexivity]. cbn [rbind].
  destruct (_ =? 0); [reflexivity|]. apply IH.
Qed.

Lemma same_read_file path : read_file fs path = read_file fs' path.
Proof.
  unfold read_file. rewrite same_find_inode. destruct Hsame as (_ & <- & _).
  destruct (_find_inode fs' path) as [k|]; [|reflexivity]. cbn [rbind].
  destruct (table_get_opt k (inode_table fs)) as [inode|]; [|reflexivity].
  destruct (negb _); [reflexivity|]. apply same_read_blocks.
Qed.

Lemma same_list_blocks inode n : forall i entries,
  list_blocks fs inode n i entries = list_blocks fs' inode n i entries.
Proof.
  induction n as [|n IH]; intros i entries; [reflexivity|].
  cbn [list_blocks].
  destruct (DIRECT_BLOCKS <=? i); [reflexivity|].
  destruct (Inode.direct_block inode i) as [b|]; [|reflexivity]. cbn [rbind].
  destruct (is_zero b); [reflexivity|]. rewrite same_read_block.
  destruct (read_block fs' b) as [d|]; [|reflexivity]. cbn [rbind].
  destruct (list_entries SCAN_FUEL d 0 entries) as [es|]; [|reflexivity].
  cbn [rbind]. apply IH.
Qed.

Lemma same_list_directory path : list_directory fs path = list_directory fs' path.
Proof.
  unfold list_directory. rewrite same_find_inode. destruct Hsame as (_ & <- & _).
  destruct (_find_inode fs' path) as [k|]; [|reflexivity]. cbn [rbind].
  destruct (table_get_opt k (inode_table fs)) as [inode|]; [|reflexivity].
  destruct (negb _); [reflexivity|]. apply same_list_blocks.
Qed.
End ReadOnly.

(** ** The bitmap block *)

Lemma bitmap_block_eq a :
  bitmap_block a =
  firstn (Z.to_nat BLOCK_SIZE) (BlockAllocator.bitmap a)
  ++ zeros (BLOCK_SIZE - Z.min (len (BlockAllocator.bitmap a)) BLOCK_SIZE).
Proof.
  unfold bitmap_block, BlockAllocator.to_bytes, set_slice, slice.
  cbn [Z.to_nat firstn skipn app]. rewrite Z.sub_0_r.
  f_equal.
  - unfold len. destruct (Z.min_spec (Z.of_nat (List.length (BlockAllocator.bitmap a))) BLOCK_SIZE)
      as [[H ->]|[H ->]].
    + rewrite !firstn_all2 by (unfold BLOCK_SIZE in *; lia). reflexivity.
    + reflexivity.
  - unfold zeros. rewrite skipn_repeat_eq. f_equal.
    pose proof (len_nonneg (BlockAllocator.bitmap a)). unfold BLOCK_SIZE. lia.
Qed.

Lemma len_bitmap_block a : len (bitmap_block a) = BLOCK_SIZE.
Proof.
  rewrite bitmap_block_eq, len_app.
  pose proof (len_nonneg (BlockAllocator.bitmap a)).
  rewrite len_zeros by (unfold BLOCK_SIZE; lia).
  unfold len in *. rewrite length_firstn. unfold BLOCK_SIZE in *. lia.
Qed.

(** The bitmap read back from its block: the blocks below
    [8 * BLOCK_SIZE] keep their bit, the others read as free. *)
Lemma is_allocated_bitmap_block a n c :
  0 <= c ->
  BlockAllocator.is_allocated (BlockAllocator.mk n (bitmap_block a)) c =
  (c <? 8 * BLOCK_SIZE) && BlockAllocator.is_allocated a c.
Proof.
  intros Hc. unfold BlockAllocator.is_allocated. cbn [BlockAllocator.bitmap].
  rewrite len_bitmap_block. rewrite bitmap_block_eq.
  pose proof (Z.div_mod c 8). pose proof (Z.mod_pos_bound c 8).
  pose proof (len_nonneg (BlockAllocator.bitmap a)) as Hnn.
  destruct (Z.leb_spec BLOCK_SIZE (c / 8)) as [Hout|Hin].
  - replace (c <? 8 * BLOCK_SIZE) with false by (unfold BLOCK_SIZE in *; lia).
    reflexivity.
  - replace (c <? 8 * BLOCK_SIZE) with true by (unfold BLOCK_SIZE in *; lia).
    cbn [andb].
    destruct (Z.leb_spec (len (BlockAllocator.bitmap a)) (c / 8)) as [Hb|Hb].
    + rewrite app_nth2 by (rewrite length_firstn; unfold len in *; lia).
      unfold zeros. rewrite nth_repeat. reflexivity.
    + rewrite app_nth1 by (rewrite length_firstn; unfold len, BLOCK_SIZE in *; lia).
      rewrite nth_firstn.
      replace (Z.to_nat (c / 8) <? Z.to_nat BLOCK_SIZE)%nat with true
        by (symmetry; apply Nat.ltb_lt; lia).
      reflexivity.
Qed.

(** ** [_sync], and [open] after it *)


Lemma free_blocks_u32 a :
  BlockAllocator.total_blocks a < 4294967296 -> u32 (BlockAllocator.free_blocks a).
Proof.
  intros H. unfold u32, BlockAllocator.free_blocks.
  pose proof (count_free_bounds a (Z.to_nat (BlockAllocator.total_blocks a)) 0). lia.
Qed.

Section Sync.
Context {codec : Utf8}.

Lemma sync_spec fs :
  superblock_fits (superblock fs) ->
  BlockAllocator.total_blocks (allocator fs) < 4294967296 ->
  table_on_disk (inode_table fs) -> inode_table fs <> [] ->
  exists sbb d',
    Superblock.to_bytes
      (Superblock.set_free_blocks (superblock fs)
         (BlockAllocator.free_blocks (allocator fs))) = Ok sbb /\
    len sbb = BLOCK_SIZE /\
    _sync fs =
      (Ok tt,
       mk d' (allocator fs)
          (Superblock.set_free_blocks (superblock fs)
             (BlockAllocator.free_blocks (allocator fs)))
          (inode_table fs) (next_inode fs)) /\
    BlockDevice.read_block d' 0 = sbb /\
    BlockDevice.read_block d' 1 = bitmap_block (allocator fs) /\
    _read_inode_table d' =
      Ok (skipn (31 * ((List.length (inode_table fs) - 1) / 31)) (inode_table fs)) /\
    differs_only (fun m => 0 <= m <= 2) (device fs) d'.
Proof.
  intros (Hm & Hb & Ht & Hi & Hr) Ha Htb Hne.
  destruct (superblock_round_trip
              (Superblock.set_free_blocks (superblock fs)
                 (BlockAllocator.free_blocks (allocator fs))))
    as (sbb & Hsb & Hlen & _);
    try assumption; [now apply free_blocks_u32|].
  set (d1 := BlockDevice.write_block (device fs) 0 sbb).
  set (d2 := BlockDevice.write_block d1 1 (bitmap_block (allocator fs))).
  destruct (write_inode_table_spec d2 (inode_table fs) Htb Hne)
    as (d3 & Hw & Hread & Hd3).
  assert (H01 : differs_only (fun m => 0 <= m <= 2) (device fs) d1)
    by (apply differs_only_write; [lia|lia|exact Hlen]).
  assert (H12 : differs_only (fun m => 0 <= m <= 2) d1 d2)
    by (apply differs_only_write; [lia|lia|apply len_bitmap_block]).
  assert (L1 : BLOCK_SIZE <= len (BlockDevice.file d1)).
  { unfold d1. rewrite len_file_write_block, Hlen by lia. lia. }
  assert (L2 : 2 * BLOCK_SIZE <= len (BlockDevice.file d2)).
  { unfold d2. rewrite len_file_write_block, len_bitmap_block by lia. lia. }
  exists sbb, d3. split; [exact Hsb|]. split; [exact Hlen|]. split; [|split; [|split; [|split]]].
  - unfold _sync, write_block, bind, modify, read.
    cbn [superblock set_superblock device allocator inode_table next_inode set_device].
    rewrite Hsb.
    cbn [superblock set_superblock device allocator inode_table next_inode set_device].
    fold d1. fold d2. rewrite Hw. reflexivity.
  - destruct Hd3 as (_ & _ & R3). rewrite R3 by (try lia; unfold BLOCK_SIZE in *; lia).
    unfold d2. rewrite read_block_write_block_other
      by (try lia; try apply len_bitmap_block; right; unfold BLOCK_SIZE in *; lia).
    unfold d1. apply read_block_write_block_same; [lia|exact Hlen].
  - destruct Hd3 as (_ & _ & R3). rewrite R3 by (try lia; unfold BLOCK_SIZE in *; lia).
    unfold d2. apply read_block_write_block_same; [lia|apply len_bitmap_block].
  - exact Hread.
  - eapply differs_only_trans; [exact H01|].
    eapply differs_only_trans; [exact H12|].
    eapply differs_only_weaken; [|exact Hd3]. intros m ->. lia.
Qed.

End Sync.

Section Sync2.
Context {codec : Utf8}.

Lemma read_block_open f d m :
  BlockDevice.file d = f ->
  BlockDevice.read_block (BlockDevice.open f) m = BlockDevice.read_block d m.
Proof.
  intros H. unfold BlockDevice.read_block, BlockDevice.open.
  cbn [BlockDevice.file]. now rewrite H.
Qed.

Lemma read_inode_table_open f d :
  BlockDevice.file d = f ->
  _read_inode_table (BlockDevice.open f) = _read_inode_table d.
Proof.
  intros H. unfold _read_inode_table.
  now rewrite (read_block_open f d 2 H).
Qed.

Lemma skipn_last_batch_small {A} (l : list A) :
  (List.length l <= 31)%nat -> skipn (31 * ((List.length l - 1) / 31)) l = l.
Proof. intros H. rewrite Nat.div_small by lia. now rewrite Nat.mul_0_r. Qed.

(** X11: On an object whose superblock fields fit 32 bits and whose table
    holds between 1 and 31 serialisable inodes, _sync returns, and close
    followed by FileSystem.open gives an object with the same inode table,
    the same superblock fields with free_blocks as the allocator counts
    them, the same allocation bits for the blocks below 32768, next_inode
    one above the highest inode number, and the same results of read_file
    and list_directory. *)
Theorem sync_then_reopen_preserves fs :
  superblock_fits (superblock fs) ->
  BlockAllocator.total_blocks (allocator fs) < 4294967296 ->
  table_on_disk (inode_table fs) -> inode_table fs <> [] ->
  (List.length (inode_table fs) <= 31)%nat ->
  exists fs' fs'',
    _sync fs = (Ok tt, fs') /\ reopen fs' = Ok fs'' /\
    inode_table fs'' = inode_table fs /\
    BlockDevice.file (device fs'') = BlockDevice.file (device fs') /\
    superblock fs'' =
      Superblock.mk MAGIC_NUMBER (Superblock.block_size (superblock fs))
        (Superblock.total_blocks (superblock fs))
        (Superblock.inode_count (superblock fs))
        (BlockAllocator.free_blocks (allocator fs))
        (Superblock.root_inode (superblock fs)) /\
    next_inode fs'' = max_key (inode_table fs) + 1 /\
    (forall c, 0 <= c < 8 * BLOCK_SIZE ->
       BlockAllocator.is_allocated (allocator fs'') c =
       BlockAllocator.is_allocated (allocator fs) c) /\
    (forall path,
       read_file fs'' path = read_file fs' path /\
       list_directory fs'' path = list_directory fs' path).
Proof.
  intros Hfit Ha Htb Hne Hsmall.
  destruct (sync_spec fs Hfit Ha Htb Hne)
    as (sbb & d' & Hsb & Hlen & Hsync & R0 & R1 & Rt & Hd).
  destruct Hfit as (Hm & Hb & Ht & Hi & Hr).
  destruct (superblock_round_trip
              (Superblock.set_free_blocks (superblock fs)
                 (BlockAllocator.free_blocks (allocator fs))))
    as (sbb' & Hsb' & _ & Hfrom);
    try assumption; [now apply free_blocks_u32|].
  rewrite Hsb in Hsb'. apply Ok_inj in Hsb'. subst sbb'.
  cbn [Superblock.set_free_blocks Superblock.block_size Superblock.total_blocks
       Superblock.inode_count Superblock.free_blocks Superblock.root_inode] in Hfrom.
  assert (Rt' : _read_inode_table d' = Ok (inode_table fs))
    by (rewrite Rt; f_equal; now apply skipn_last_batch_small).
  eexists. eexists. split; [exact Hsync|].
  assert (Hopen : reopen
            (mk d' (allocator fs)
               (Superblock.set_free_blocks (superblock fs)
                  (BlockAllocator.free_blocks (allocator fs)))
               (inode_table fs) (next_inode fs)) =
          Ok (mk (BlockDevice.open (BlockDevice.file d'))
                (BlockAllocator.from_bytes (bitmap_block (allocator fs))
                   (Superblock.total_blocks (superblock fs)))
                (Superblock.mk MAGIC_NUMBER (Superblock.block_size (superblock fs))
                   (Superblock.total_blocks (superblock fs))
                   (Superblock.inode_count (superblock fs))
                   (BlockAllocator.free_blocks (allocator fs))
                   (Superblock.root_inode (superblock fs)))
                (inode_table fs) (max_key (inode_table fs) + 1))).
  { unfold reopen, open. cbn [device].
    rewrite (read_block_open _ d' 0 eq_refl), R0, Hfrom. cbn [rbind].
    rewrite (read_inode_table_open _ d' eq_refl), Rt'. cbn [rbind].
    rewrite (read_block_open _ d' 1 eq_refl), R1. reflexivity. }
  split; [exact Hopen|]. cbn [inode_table device superblock next_inode allocator].
  split; [reflexivity|]. split; [reflexivity|]. split; [reflexivity|].
  split; [reflexivity|]. split.
  - intros c Hc. unfold BlockAllocator.from_bytes.
    rewrite is_allocated_bitmap_block by lia.
    now replace (c <? 8 * BLOCK_SIZE) with true by lia.
  - assert (Hsame : same_content
              (mk (BlockDevice.open (BlockDevice.file d'))
                 (BlockAllocator.from_bytes (bitmap_block (allocator fs))
                    (Superblock.total_blocks (superblock fs)))
                 (Superblock.mk MAGIC_NUMBER (Superblock.block_size (superblock fs))
                    (Superblock.total_blocks (superblock fs))
                    (Superblock.inode_count (superblock fs))
                    (BlockAllocator.free_blocks (allocator fs))
                    (Superblock.root_inode (superblock fs)))
                 (inode_table fs) (max_key (inode_table fs) + 1))
              (mk d' (allocator fs)
                 (Superblock.set_free_blocks (superblock fs)
                    (BlockAllocator.free_blocks (allocator fs)))
                 (inode_table fs) (next_inode fs)))
      by (repeat split).
    intros path. split;
      [apply (same_read_file _ _ Hsame)|apply (same_list_directory _ _ Hsame)].
Qed.
End Sync2.

(** ** [Inode.to_bytes] on the inodes it takes *)

Lemma write_direct_ok ino vs : forall i data,
  0 <= i -> 12 + 4 * (i + len vs) <= len data ->
  slot_values (firstn (List.length vs) (skipn (Z.to_nat i) (Inode.direct_blocks ino))) vs ->
  exists out, Inode.write_direct ino data (List.length vs) i = Ok out /\
              len out = len data.
Proof.
  induction vs as [|v vs IH]; intros i data Hi Hl [Hs Hu].
  - eexists. split; reflexivity.
  - cbn [List.length Inode.write_direct].
    assert (Hlen : len (v :: vs) = 1 + len vs) by (unfold len; cbn [List.length]; lia).
    rewrite Hlen in Hl. pose proof (len_nonneg vs) as Hnn.
    apply Forall_cons_iff in Hu. destruct Hu as [Hv Hu].
    cbn [List.length map] in Hs.
    destruct (skipn (Z.to_nat i) (Inode.direct_blocks ino)) as [|s rest] eqn:E;
      [discriminate|].
    cbn [firstn] in Hs. injection Hs as -> Hs.
    assert (En : nth_error (Inode.direct_blocks ino) (Z.to_nat i) = Some (Some v)).
    { rewrite <- (firstn_skipn (Z.to_nat i) (Inode.direct_blocks ino)), E.
      assert (Hf : List.length (firstn (Z.to_nat i) (Inode.direct_blocks ino)) = Z.to_nat i).
      { rewrite length_firstn. apply (f_equal (@List.length _)) in E.
        rewrite length_skipn in E. cbn [List.length] in E. lia. }
      rewrite nth_error_app2 by lia. now rewrite Hf, Nat.sub_diag. }
    unfold Inode.direct_block. rewrite En. cbn [rbind pack_into_I_opt].
    rewrite pack_into_I_ok by (try exact Hv; lia). cbn [rbind].
    assert (Hset : len (set_slice data (12 + i * 4) (12 + i * 4 + 4) (le_bytes 4 v))
                   = len data)
      by (apply len_set_slice; rewrite ?len_le_bytes; lia).
    destruct (IH (i + 1) (set_slice data (12 + i * 4) (12 + i * 4 + 4) (le_bytes 4 v)))
      as (out & Ho & Hlo); [lia|lia| |].
    + split; [|exact Hu].
      replace (Z.to_nat (i + 1)) with (1 + Z.to_nat i)%nat by lia.
      rewrite <- skipn_skipn, E. exact Hs.
    + exists out. split; [exact Ho|lia].
Qed.

Lemma inode_to_bytes_ok ino vs :
  slot_values (Inode.direct_blocks ino) vs -> List.length vs = 12%nat ->
  u32 (Inode.size ino) -> u32 (Inode.block_count ino) ->
  u32 (Inode.indirect_block ino) -> u32 (Inode.double_indirect_block ino) ->
  u64 (Inode.created ino) -> u64 (Inode.modified ino) -> u64 (Inode.accessed ino) ->
  serialisable ino.
Proof.
  intros Hs Hn H1 H2 H3 H4 H5 H6 H7.
  assert (Hl : List.length (Inode.direct_blocks ino) = 12%nat)
    by (destruct Hs as [-> _]; now rewrite length_map).
  split; [exact Hl|].
  unfold Inode.to_bytes.
  change (setitem (zeros INODE_SIZE) 0 (FileType_value (Inode.file_type ino)))
    with (set_slice (zeros INODE_SIZE) 0 1 [FileType_value (Inode.file_type ino)]).
  remember (set_slice (zeros INODE_SIZE) 0 1 _) as d0 eqn:E0.
  assert (L0 : len d0 = INODE_SIZE) by (rewrite E0, len_set_slice; side_len).
  rewrite pack_into_I_ok by (try assumption; side_len). cbn [rbind].
  rewrite pack_into_I_ok
    by (try assumption; rewrite len_set_slice by side_len; side_len). cbn [rbind].
  match goal with
  | |- exists b, rbind (Inode.write_direct _ ?d _ _) _ = _ =>
      remember d as d2 eqn:E2;
      assert (L2 : len d2 = INODE_SIZE)
        by (rewrite E2, !len_set_slice by (rewrite ?len_set_slice by side_len; side_len);
            exact L0)
  end.
  replace (Z.to_nat DIRECT_BLOCKS) with (List.length vs) by (rewrite Hn; reflexivity).
  assert (Hv : len vs = 12) by (unfold len; rewrite Hn; reflexivity).
  destruct (write_direct_ok ino vs 0 d2) as (ds & Hw & Ls);
    [lia|rewrite Hv; side_len| |].
  { cbn [Z.to_nat skipn]. rewrite firstn_all2 by lia. exact Hs. }
  rewrite Hw. cbn [rbind].
  rewrite pack_into_I_ok by (try assumption; side_len). cbn [rbind].
  rewrite pack_into_I_ok
    by (try assumption; rewrite len_set_slice by side_len; side_len). cbn [rbind].
  rewrite pack_into_Q_ok
    by (try assumption;
        rewrite !len_set_slice by (rewrite ?len_set_slice by side_len; side_len);
        side_len). cbn [rbind].
  rewrite pack_into_Q_ok
    by (try assumption;
        rewrite !len_set_slice
          by (rewrite ?len_set_slice
                by (rewrite ?len_set_slice by side_len; side_len); side_len);
        side_len). cbn [rbind].
  rewrite pack_into_Q_ok
    by (try assumption;
        rewrite !len_set_slice
          by (rewrite ?len_set_slice
                by (rewrite ?len_set_slice
                      by (rewrite ?len_set_slice by side_len; side_len);
                    side_len); side_len);
        side_len). cbn [rbind].
  eexists. reflexivity.
Qed.

(** ** [FileSystem.create] *)


Lemma root_directory_serialisable now : u64 now -> serialisable (root_directory now).
Proof.
  intros Hn. apply (inode_to_bytes_ok _ (10 :: repeat 0 11)); try exact Hn;
    try (unfold u32; cbn; lia); try reflexivity.
  split; [reflexivity|]. unfold u32. repeat constructor; lia.
Qed.

Lemma first_free_lowest a n : forall i b,
  i <= b < i + Z.of_nat n -> BlockAllocator.is_allocated a b = false ->
  (forall c, i <= c < b -> BlockAllocator.is_allocated a c = true) ->
  BlockAllocator.first_free a n i = Some b.
Proof.
  induction n as [|n IH]; intros i b Hr Hf Hlow; [lia|].
  cbn [BlockAllocator.first_free].
  destruct (Z.eq_dec i b) as [->|Hne].
  - now rewrite Hf.
  - rewrite Hlow by lia. apply IH; [lia|exact Hf|]. intros c Hc. apply Hlow. lia.
Qed.

Lemma block_count_create size_mb :
  BlockDevice.block_count (BlockDevice.create size_mb) = 256 * size_mb.
Proof.
  unfold BlockDevice.create. cbn [BlockDevice.block_count]. unfold BLOCK_SIZE.
  replace (size_mb * 1024 * 1024) with (256 * size_mb * 4096) by lia.
  apply Z.div_mul. lia.
Qed.

Section Create.
Context {codec : Utf8}.

Lemma create_ok size_mb now :
  1 <= size_mb < 16777216 -> u64 now ->
  exists a0 sbb d,
    BlockAllocator.init (256 * size_mb) = Ok a0 /\
    Superblock.to_bytes (Superblock.init (256 * size_mb) 1000) = Ok sbb /\
    len sbb = BLOCK_SIZE /\
    create size_mb now =
      Ok (mk d (BlockAllocator.set_allocated a0 10 true)
             (Superblock.init (256 * size_mb) 1000)
             [(1, root_directory now)] 2) /\
    differs_only (fun m => m = 2)
      (BlockDevice.write_block
         (BlockDevice.write_block
            (BlockDevice.write_block (BlockDevice.create size_mb) 0 sbb)
            1 (bitmap_block a0))
         10 (zeros BLOCK_SIZE)) d /\
    _read_inode_table d = Ok [(1, root_directory now)].
Proof.
  intros Hs Hn.
  destruct (allocator_init_ok (256 * size_mb)) as (a0 & Hinit & Ht & Hbits & Hfree);
    [lia|].
  destruct (superblock_round_trip (Superblock.init (256 * size_mb) 1000))
    as (sbb & Hsb & Hlen & _);
    try (unfold u32, Superblock.init;
         cbn [Superblock.magic Superblock.block_size Superblock.total_blocks
              Superblock.inode_count Superblock.free_blocks Superblock.root_inode];
         unfold MAGIC_NUMBER, BLOCK_SIZE; lia).
  assert (Halloc : BlockAllocator.allocate_block a0 =
                   (Some 10, BlockAllocator.set_allocated a0 10 true)).
  { unfold BlockAllocator.allocate_block. rewrite Ht.
    rewrite (first_free_lowest a0 _ 0 10); [reflexivity|lia| |].
    - rewrite Hbits by lia. reflexivity.
    - intros c Hc. rewrite Hbits by lia.
      destruct (Z.ltb_spec c 10), (Z.ltb_spec c (256 * size_mb)); cbn [andb];
        try reflexivity; lia. }
  set (d3 := BlockDevice.write_block
               (BlockDevice.write_block
                  (BlockDevice.write_block (BlockDevice.create size_mb) 0 sbb)
                  1 (bitmap_block a0))
               10 (zeros BLOCK_SIZE)).
  destruct (write_inode_table_spec d3 [(1, root_directory now)]) as (d & Hw & Hr & Hd).
  { split; [repeat constructor; intros []|].
    constructor; [|constructor]. split; [cbn; lia|].
    now apply root_directory_serialisable. }
  { discriminate. }
  exists a0, sbb, d. split; [exact Hinit|]. split; [exact Hsb|]. split; [exact Hlen|].
  split; [|split; [exact Hd|exact Hr]].
  unfold create. rewrite block_count_create, Hinit. cbn [rbind].
  rewrite Hsb. cbn [rbind]. rewrite Halloc.
  fold (root_directory now). fold d3. rewrite Hw. reflexivity.
Qed.
End Create.

Lemma getitem_zeros n i : 0 <= i < n -> getitem (zeros n) i = Ok 0.
Proof.
  intros H. unfold getitem, zeros.
  rewrite (nth_error_nth' _ 0) by (rewrite repeat_length; lia).
  now rewrite nth_repeat.
Qed.

Section Scans.
Context {codec : Utf8}.

(** One pass of each scan. *)
Lemma lookup_entries_S k block_data name offset :
  lookup_entries (S k) block_data name offset =
  if offset <? BLOCK_SIZE then
    (b <- getitem block_data offset ;;
     if b =? 0 then Ok None
     else if offset + 8 <=? BLOCK_SIZE then
       ' (entry, size) <- DirEntry.from_bytes (slice_from block_data offset) ;;
       if str_eqb (DirEntry.name entry) name
       then Ok (Some (DirEntry.inode_num entry))
       else lookup_entries k block_data name (offset + size)
     else Ok None)%res
  else Ok None.
Proof. reflexivity. Qed.

Lemma list_entries_S k block_data offset entries :
  list_entries (S k) block_data offset entries =
  if offset <? BLOCK_SIZE then
    (b <- getitem block_data offset ;;
     if b =? 0 then Ok entries
     else if offset + 8 <=? BLOCK_SIZE then
       ' (entry, size) <- DirEntry.from_bytes (slice_from block_data offset) ;;
       list_entries k block_data (offset + size)
                    (entries ++ [DirEntry.name entry])%list
     else Ok entries)%res
  else Ok entries.
Proof. reflexivity. Qed.

Lemma end_of_entries_S k block_data offset :
  end_of_entries (S k) block_data offset =
  if offset <? BLOCK_SIZE then
    (b <- getitem block_data offset ;;
     if b =? 0 then Ok offset
     else if offset + 8 <=? BLOCK_SIZE then
       ' (_, size) <- DirEntry.from_bytes (slice_from block_data offset) ;;
       end_of_entries k block_data (offset + size)
     else Ok offset)%res
  else Ok offset.
Proof. reflexivity. Qed.

Lemma kept_entries_S k block_data name offset entries :
  kept_entries (S k) block_data name offset entries =
  if offset <? BLOCK_SIZE then
    (b <- getitem block_data offset ;;
     if b =? 0 then Ok entries
     else if offset + 8 <=? BLOCK_SIZE then
       ' (entry, size) <- DirEntry.from_bytes (slice_from block_data offset) ;;
       kept_entries k block_data name (offset + size)
         (if negb (str_eqb (DirEntry.name entry) name)
          then (entries ++ [entry])%list else entries)
     else Ok entries)%res
  else Ok entries.
Proof. reflexivity. Qed.

Lemma scan_fuel_S : SCAN_FUEL = S 511.
Proof. reflexivity. Qed.

(** An empty directory block has no entry. *)
Lemma list_entries_zeros entries :
  list_entries SCAN_FUEL (zeros BLOCK_SIZE) 0 entries = Ok entries.
Proof.
  rewrite scan_fuel_S, list_entries_S.
  replace (0 <? BLOCK_SIZE) with true by reflexivity.
  rewrite getitem_zeros by (unfold BLOCK_SIZE; lia). reflexivity.
Qed.

Lemma lookup_entries_zeros name :
  lookup_entries SCAN_FUEL (zeros BLOCK_SIZE) name 0 = Ok None.
Proof.
  rewrite scan_fuel_S, lookup_entries_S.
  replace (0 <? BLOCK_SIZE) with true by reflexivity.
  rewrite getitem_zeros by (unfold BLOCK_SIZE; lia). reflexivity.
Qed.

Lemma end_of_entries_zeros :
  end_of_entries SCAN_FUEL (zeros BLOCK_SIZE) 0 = Ok 0.
Proof.
  rewrite scan_fuel_S, end_of_entries_S.
  replace (0 <? BLOCK_SIZE) with true by reflexivity.
  rewrite getitem_zeros by (unfold BLOCK_SIZE; lia). reflexivity.
Qed.
End Scans.

Lemma len_file_create size_mb :
  0 <= size_mb -> len (BlockDevice.file (BlockDevice.create size_mb)) = size_mb * 1048576.
Proof.
  intros H. unfold BlockDevice.create. cbn [BlockDevice.file].
  rewrite len_zeros by lia. lia.
Qed.

Section CreateTheorems.
Context {codec : Utf8}.

(** The created object, block by block. *)
Lemma create_blocks size_mb now :
  1 <= size_mb < 16777216 -> u64 now ->
  exists a0 sbb d,
    BlockAllocator.init (256 * size_mb) = Ok a0 /\
    Superblock.to_bytes (Superblock.init (256 * size_mb) 1000) = Ok sbb /\
    create size_mb now =
      Ok (mk d (BlockAllocator.set_allocated a0 10 true)
             (Superblock.init (256 * size_mb) 1000)
             [(1, root_directory now)] 2) /\
    size_mb * 1048576 <= len (BlockDevice.file d) /\
    BlockDevice.read_block d 0 = sbb /\
    BlockDevice.read_block d 1 = bitmap_block a0 /\
    BlockDevice.read_block d 10 = zeros BLOCK_SIZE /\
    _read_inode_table d = Ok [(1, root_directory now)].
Proof.
  intros Hs Hn.
  destruct (create_ok size_mb now Hs Hn)
    as (a0 & sbb & d & Hinit & Hsb & Hlen & Hc & Hd & Hr).
  exists a0, sbb, d. split; [exact Hinit|]. split; [exact Hsb|]. split; [exact Hc|].
  set (d0 := BlockDevice.create size_mb) in *.
  set (d1 := BlockDevice.write_block d0 0 sbb) in *.
  set (d2 := BlockDevice.write_block d1 1 (bitmap_block a0)) in *.
  set (d3 := BlockDevice.write_block d2 10 (zeros BLOCK_SIZE)) in *.
  assert (L0 : len (BlockDevice.file d0) = size_mb * 1048576)
    by (apply len_file_create; lia).
  assert (Lz : len (zeros BLOCK_SIZE) = BLOCK_SIZE)
    by (apply len_zeros; unfold BLOCK_SIZE; lia).
  pose proof (len_bitmap_block a0) as Lb.
  assert (L1 : len (BlockDevice.file d1) = size_mb * 1048576)
    by (unfold d1; rewrite len_file_write_block, Hlen, L0 by lia;
        unfold BLOCK_SIZE; lia).
  assert (L2 : len (BlockDevice.file d2) = size_mb * 1048576)
    by (unfold d2; rewrite len_file_write_block, Lb, L1 by lia;
        unfold BLOCK_SIZE; lia).
  assert (L3 : len (BlockDevice.file d3) = size_mb * 1048576)
    by (unfold d3; rewrite len_file_write_block, Lz, L2 by lia;
        unfold BLOCK_SIZE; lia).
  destruct Hd as (Ld & _ & Rd).
  split; [lia|]. split; [|split; [|split; [|exact Hr]]].
  - rewrite Rd by (unfold BLOCK_SIZE; lia).
    unfold d3. rewrite read_block_write_block_other
      by (try lia; try exact Lz; right; unfold BLOCK_SIZE; lia).
    unfold d2. rewrite read_block_write_block_other
      by (try lia; try exact Lb; right; unfold BLOCK_SIZE; lia).
    unfold d1. apply read_block_write_block_same; [lia|exact Hlen].
  - rewrite Rd by (unfold BLOCK_SIZE; lia).
    unfold d3. rewrite read_block_write_block_other
      by (try lia; try exact Lz; right; unfold BLOCK_SIZE; lia).
    unfold d2. apply read_block_write_block_same; [lia|exact Lb].
  - rewrite Rd by (unfold BLOCK_SIZE; lia).
    unfold d3. apply read_block_write_block_same; [lia|exact Lz].
Qed.

Lemma create_zero now : create 0 now = Raise StructError.
Proof. reflexivity. Qed.

Lemma create_negative size_mb now : size_mb < 0 -> create size_mb now = Raise ValueError.
Proof.
  intros H. unfold create. rewrite block_count_create.
  rewrite allocator_init_negative by lia. reflexivity.
Qed.

(** X12: FileSystem.create raises ValueError for a negative size_mb and
    struct.error for size_mb = 0; for 1 <= size_mb < 16777216 and a clock
    value that fits 64 bits it returns an object whose table holds the root
    directory alone as inode 1 (one block, block 10), next_inode = 2, the
    blocks 0 to 10 allocated and 256 * size_mb - 11 free, and an empty
    listing of '/'. *)
Theorem create_outcomes size_mb now :
  (size_mb < 0 -> create size_mb now = Raise ValueError) /\
  (size_mb = 0 -> create size_mb now = Raise StructError) /\
  (1 <= size_mb < 16777216 -> u64 now ->
   exists fs,
     create size_mb now = Ok fs /\
     inode_table fs = [(1, root_directory now)] /\
     next_inode fs = 2 /\
     superblock fs = Superblock.init (256 * size_mb) 1000 /\
     BlockAllocator.total_blocks (allocator fs) = 256 * size_mb /\
     (forall c, 0 <= c -> BlockAllocator.is_allocated (allocator fs) c = (c <? 11)) /\
     BlockAllocator.free_blocks (allocator fs) = 256 * size_mb - 11 /\
     list_directory fs (py "/") = Ok []).
Proof.
  split; [apply create_negative|]. split; [intros ->; apply create_zero|].
  intros Hs Hn.
  destruct (create_blocks size_mb now Hs Hn)
    as (a0 & sbb & d & Hinit & Hsb & Hc & Hl & R0 & R1 & R10 & Rt).
  destruct (allocator_init_ok (256 * size_mb)) as (a0' & Hinit' & Ht & Hbits & Hfree);
    [lia|].
  rewrite Hinit in Hinit'. apply Ok_inj in Hinit'. subst a0'.
  assert (H8 : 10 < 8 * len (BlockAllocator.bitmap a0)).
  { destruct (Z.lt_ge_cases 10 (8 * len (BlockAllocator.bitmap a0))) as [|Hge];
      [assumption|].
    assert (Hf : BlockAllocator.is_allocated a0 9 = false).
    { unfold BlockAllocator.is_allocated.
      replace (len (BlockAllocator.bitmap a0) <=? 9 / 8) with true; [reflexivity|].
      symmetry. apply Z.leb_le. change (9 / 8) with 1. lia. }
    rewrite Hbits in Hf by lia.
    replace (9 <? 256 * size_mb) with true in Hf by lia. discriminate. }
  eexists. split; [exact Hc|].
  cbn [inode_table next_inode superblock allocator].
  split; [reflexivity|]. split; [reflexivity|]. split; [reflexivity|].
  split; [rewrite total_blocks_set; exact Ht|]. split; [|split].
  - intros c Hc0. rewrite is_allocated_set by lia. rewrite Hbits by lia.
    pose proof (div8_lt 10 (len (BlockAllocator.bitmap a0)) ltac:(lia)) as Hdiv.
    replace (10 / 8 <? len (BlockAllocator.bitmap a0)) with true by lia.
    destruct (Z.eqb_spec c 10), (Z.ltb_spec c 10), (Z.ltb_spec c 11),
             (Z.ltb_spec c (256 * size_mb)); cbn [andb]; try reflexivity; lia.
  - rewrite free_blocks_set by lia. rewrite Ht, Hfree, Hbits by lia.
    replace (10 <? 256 * size_mb) with true by lia.
    cbn [andb Z.ltb Z.compare Pos.compare Pos.compare_cont]. lia.
  - unfold list_directory, _find_inode. cbn [str_eqb py].
    change (str_eqb (py "/") (py "/")) with true. cbn iota.
    cbn [rbind superblock Superblock.root_inode Superblock.init table_get_opt
         inode_table table_get Z.eqb Pos.eqb].
    change (negb (FileType_eqb (Inode.file_type (root_directory now)) DIRECTORY))
      with false. cbn iota.
    change (Z.to_nat (Inode.block_count (root_directory now))) with 1%nat.
    cbn [list_blocks].
    change (DIRECT_BLOCKS <=? 0) with false. cbn iota.
    change (Inode.direct_block (root_directory now) 0) with (Ok (Some 10)).
    cbn [rbind is_zero Z.eqb read_block device].
    rewrite R10. rewrite list_entries_zeros. reflexivity.
Qed.

(** X13: For every image size from 1 MB, FileSystem.create followed by close
    and FileSystem.open gives an object with the same inode table in which
    block 10, the block of the root directory, is no longer allocated: the
    next allocate_block returns 10. *)
Theorem create_then_reopen_frees_root_block size_mb now :
  1 <= size_mb < 16777216 -> u64 now ->
  exists fs fs',
    create size_mb now = Ok fs /\ reopen fs = Ok fs' /\
    inode_table fs' = inode_table fs /\
    table_get 1 (inode_table fs) = Some (root_directory now) /\
    BlockAllocator.is_allocated (allocator fs) 10 = true /\
    BlockAllocator.is_allocated (allocator fs') 10 = false /\
    fst (BlockAllocator.allocate_block (allocator fs')) = Some 10.
Proof.
  intros Hs Hn.
  destruct (create_blocks size_mb now Hs Hn)
    as (a0 & sbb & d & Hinit & Hsb & Hc & Hl & R0 & R1 & R10 & Rt).
  destruct (allocator_init_ok (256 * size_mb)) as (a0' & Hinit' & Ht & Hbits & Hfree);
    [lia|].
  rewrite Hinit in Hinit'. apply Ok_inj in Hinit'. subst a0'.
  destruct (superblock_round_trip (Superblock.init (256 * size_mb) 1000))
    as (sbb' & Hsb' & _ & Hfrom);
    try (unfold u32, Superblock.init;
         cbn [Superblock.magic Superblock.block_size Superblock.total_blocks
              Superblock.inode_count Superblock.free_blocks Superblock.root_inode];
         unfold MAGIC_NUMBER, BLOCK_SIZE; lia).
  rewrite Hsb in Hsb'. apply Ok_inj in Hsb'. subst sbb'.
  change (Superblock.mk MAGIC_NUMBER _ _ _ _ _)
    with (Superblock.init (256 * size_mb) 1000) in Hfrom.
  set (a' := BlockAllocator.from_bytes (bitmap_block a0) (256 * size_mb)).
  assert (Hopen : reopen (mk d (BlockAllocator.set_allocated a0 10 true)
                            (Superblock.init (256 * size_mb) 1000)
                            [(1, root_directory now)] 2) =
                  Ok (mk (BlockDevice.open (BlockDevice.file d)) a'
                         (Superblock.init (256 * size_mb) 1000)
                         [(1, root_directory now)]
                         (max_key [(1, root_directory now)] + 1))).
  { unfold reopen, open. cbn [device].
    rewrite (read_block_open _ d 0 eq_refl), R0, Hfrom. cbn [rbind].
    rewrite (read_inode_table_open _ d eq_refl), Rt. cbn [rbind].
    rewrite (read_block_open _ d 1 eq_refl), R1. reflexivity. }
  assert (Hbits' : forall c, 0 <= c < 8 * BLOCK_SIZE ->
            BlockAllocator.is_allocated a' c = (c <? 10)).
  { intros c Hc0. unfold a', BlockAllocator.from_bytes.
    rewrite is_allocated_bitmap_block, Hbits by lia.
    destruct (Z.ltb_spec c (8 * BLOCK_SIZE)), (Z.ltb_spec c 10),
             (Z.ltb_spec c (256 * size_mb)); cbn [andb]; try reflexivity; lia. }
  eexists. eexists. split; [exact Hc|]. split; [exact Hopen|].
  cbn [inode_table allocator].
  split; [reflexivity|]. split; [reflexivity|]. split; [|split].
  - assert (H9 : BlockAllocator.is_allocated a0 9 = true)
      by (rewrite Hbits by lia; now replace (9 <? 256 * size_mb) with true by lia).
    assert (H8 : 10 / 8 < len (BlockAllocator.bitmap a0)).
    { unfold BlockAllocator.is_allocated in H9.
      destruct (Z.leb_spec (len (BlockAllocator.bitmap a0)) (9 / 8)) as [|Hlt];
        [discriminate|]. exact Hlt. }
    rewrite is_allocated_set by lia. rewrite Z.eqb_refl.
    now replace (10 / 8 <? len (BlockAllocator.bitmap a0)) with true by lia.
  - apply Hbits'. unfold BLOCK_SIZE. lia.
  - unfold BlockAllocator.allocate_block.
    rewrite (first_free_lowest a' _ 0 10); [reflexivity| | |].
    + unfold a'. cbn [BlockAllocator.from_bytes BlockAllocator.total_blocks]. lia.
    + apply Hbits'. unfold BLOCK_SIZE. lia.
    + intros c Hc0. rewrite Hbits' by (unfold BLOCK_SIZE; lia).
      now replace (c <? 10) with true by lia.
Qed.
End CreateTheorems.

(** ** What no operation changes *)



Lemma keeps_bind {A B} (m : M A) (k : A -> M B) :
  keeps_geometry m -> (forall a, keeps_geometry (k a)) -> keeps_geometry (bind m k).
Proof.
  intros Hm Hk fs. unfold bind. specialize (Hm fs).
  destruct (m fs) as [[a|e] fs1]; cbn [snd] in *.
  - now rewrite Hk.
  - exact Hm.
Qed.

Lemma keeps_ret {A} (a : A) : keeps_geometry (ret a).
Proof. intros fs. reflexivity. Qed.

Lemma keeps_raise {A} e : keeps_geometry (@raise A e).
Proof. intros fs. reflexivity. Qed.

Lemma keeps_read {A} (f : t -> result A) : keeps_geometry (read f).
Proof. intros fs. reflexivity. Qed.

Lemma keeps_lift {A} (r : result A) : keeps_geometry (lift r).
Proof. intros fs. reflexivity. Qed.

Lemma keeps_write_block b data : keeps_geometry (write_block b data).
Proof. destruct b; intros fs; reflexivity. Qed.

Lemma total_blocks_free_block a b :
  BlockAllocator.total_blocks (BlockAllocator.free_block a b) =
  BlockAllocator.total_blocks a.
Proof.
  unfold BlockAllocator.free_block.
  destruct (b <? BlockAllocator.total_blocks a); [apply total_blocks_set|reflexivity].
Qed.

Lemma keeps_free_block b : keeps_geometry (free_block b).
Proof.
  destruct b; intros fs; [|reflexivity].
  unfold free_block, modify, geometry. cbn [snd allocator set_allocator superblock device].
  now rewrite total_blocks_free_block.
Qed.

Lemma total_blocks_allocate a :
  BlockAllocator.total_blocks (snd (BlockAllocator.allocate_block a)) =
  BlockAllocator.total_blocks a.
Proof.
  unfold BlockAllocator.allocate_block.
  destruct (BlockAllocator.first_free _ _ _); cbn [snd];
    [apply total_blocks_set|reflexivity].
Qed.

Lemma keeps_allocate_block : keeps_geometry allocate_block.
Proof.
  intros fs. unfold allocate_block.
  pose proof (total_blocks_allocate (allocator fs)) as H.
  destruct (BlockAllocator.allocate_block (allocator fs)) as [b a].
  cbn [snd] in *. unfold geometry. cbn [allocator set_allocator superblock device].
  now rewrite H.
Qed.

Lemma keeps_store_inode k inode : keeps_geometry (store_inode k inode).
Proof. intros fs. reflexivity. Qed.

Lemma keeps_update_inode k f : keeps_geometry (update_inode k f).
Proof.
  intros fs. unfold update_inode, modify. cbn [snd].
  now destruct (table_get k (inode_table fs)).
Qed.

Lemma keeps_take_inode_num : keeps_geometry take_inode_num.
Proof. intros fs. reflexivity. Qed.

Lemma keeps_modify_table f :
  keeps_geometry (modify (fun fs => set_inode_table fs (f fs))).
Proof. intros fs. reflexivity. Qed.

Create HintDb keeps.
#[local] Hint Resolve keeps_ret keeps_raise keeps_read keeps_lift keeps_write_block
  keeps_free_block keeps_allocate_block keeps_store_inode keeps_update_inode
  keeps_take_inode_num keeps_modify_table : keeps.

Ltac keeps_step :=
  first [ apply keeps_bind; [|intros ?]
        | solve [auto with keeps] ].

Lemma block_count_write_inodes items : forall device block_data offset,
  BlockDevice.block_count (snd (write_inodes device items block_data offset)) =
  BlockDevice.block_count device.
Proof.
  induction items as [|[k ino] items IH]; intros device block_data offset;
    [reflexivity|].
  cbn [write_inodes]. destruct (Inode.to_bytes ino); [|reflexivity].
  destruct (offset + 4 + INODE_SIZE >? BLOCK_SIZE).
  - destruct (pack_into_I _ _ _); [|reflexivity]. now rewrite IH.
  - destruct (pack_into_I _ _ _); [|reflexivity]. now rewrite IH.
Qed.

Lemma block_count_write_inode_table device tb :
  BlockDevice.block_count (snd (_write_inode_table device tb)) =
  BlockDevice.block_count device.
Proof.
  unfold _write_inode_table.
  pose proof (block_count_write_inodes tb device (zeros BLOCK_SIZE) 0) as H.
  destruct (write_inodes device tb (zeros BLOCK_SIZE) 0) as [[[bd off]|e] d];
    cbn [snd] in *; [|exact H].
  destruct (off >? 0); exact H.
Qed.

Section Geometry.
Context {codec : Utf8}.

Lemma keeps_sync : keeps_geometry _sync.
Proof.
  unfold _sync.
  apply keeps_bind; [intros fs; reflexivity|intros _].
  apply keeps_bind; [auto with keeps|intros sb].
  apply keeps_bind; [auto with keeps|intros _].
  apply keeps_bind; [auto with keeps|intros bm].
  apply keeps_bind; [auto with keeps|intros _].
  intros fs. pose proof (block_count_write_inode_table (device fs) (inode_table fs)) as H.
  destruct (_write_inode_table (device fs) (inode_table fs)) as [r d].
  cbn [snd] in *. unfold geometry. cbn [device set_device superblock allocator].
  now rewrite H.
Qed.

Lemma keeps_add_dir_entry d name n : keeps_geometry (_add_dir_entry d name n).
Proof.
  unfold _add_dir_entry.
  apply keeps_bind; [auto with keeps|intros eb].
  apply keeps_bind; [auto with keeps|intros inode].
  destruct d as [d|]; [|auto with keeps].
  destruct inode as [inode|]; [|auto with keeps].
  apply keeps_bind.
  - destruct (Inode.block_count inode =? 0); [|auto with keeps].
    repeat keeps_step.
  - intros b. repeat keeps_step.
    destruct (_ >? _); auto with keeps.
Qed.

Lemma keeps_remove_blocks inode name n : forall i,
  keeps_geometry (remove_blocks inode name n i).
Proof.
  induction n as [|n IH]; intros i; cbn [remove_blocks]; [auto with keeps|].
  destruct (DIRECT_BLOCKS <=? i); [auto with keeps|].
  apply keeps_bind; [auto with keeps|intros b].
  destruct (is_zero b); [apply IH|]. repeat keeps_step.
Qed.

Lemma keeps_remove_dir_entry d name : keeps_geometry (_remove_dir_entry d name).
Proof.
  unfold _remove_dir_entry.
  apply keeps_bind; [auto with keeps|intros inode].
  destruct inode; [apply keeps_remove_blocks|auto with keeps].
Qed.

Lemma keeps_free_existing n : forall k inode i,
  keeps_geometry (free_existing k inode n i).
Proof.
  induction n as [|n IH]; intros k inode i; cbn [free_existing]; [auto with keeps|].
  destruct (i <? DIRECT_BLOCKS); [|apply IH].
  apply keeps_bind; [auto with keeps|intros b].
  destruct (negb (is_zero b)); [|apply IH].
  apply keeps_bind; [auto with keeps|intros _].
  apply keeps_bind; [auto with keeps|intros _]. apply IH.
Qed.

Lemma keeps_write_blocks n : forall k inode data i written,
  keeps_geometry (write_blocks k inode data n i written).
Proof.
  induction n as [|n IH]; intros k inode data i written; cbn [write_blocks];
    [auto with keeps|].
  apply keeps_bind; [auto with keeps|intros b].
  apply keeps_bind; [auto with keeps|intros _].
  apply keeps_bind; [auto with keeps|intros _]. apply IH.
Qed.

Lemma keeps_free_blocks_of inode n : forall i,
  keeps_geometry (free_blocks_of inode n i).
Proof.
  induction n as [|n IH]; intros i; cbn [free_blocks_of]; [auto with keeps|].
  destruct (i <? DIRECT_BLOCKS); [|apply IH].
  apply keeps_bind; [auto with keeps|intros b].
  destruct (negb (is_zero b)); [|apply IH].
  apply keeps_bind; [auto with keeps|intros _]. apply IH.
Qed.

Lemma keeps_create_file path now : keeps_geometry (create_file path now).
Proof.
  unfold create_file. destruct (_split_path path) as [[parent name]|]; [|auto with keeps].
  apply keeps_bind; [auto with keeps|intros p].
  apply keeps_bind; [auto with keeps|intros existing].
  destruct existing; [auto with keeps|].
  apply keeps_bind; [auto with keeps|intros n].
  apply keeps_bind; [auto with keeps|intros _].
  apply keeps_bind; [apply keeps_add_dir_entry|intros _]. apply keeps_sync.
Qed.

Lemma keeps_create_directory path now : keeps_geometry (create_directory path now).
Proof.
  unfold create_directory.
  destruct (_split_path path) as [[parent name]|]; [|auto with keeps].
  apply keeps_bind; [auto with keeps|intros p].
  apply keeps_bind; [auto with keeps|intros existing].
  destruct existing; [auto with keeps|].
  apply keeps_bind; [auto with keeps|intros b].
  apply keeps_bind; [auto with keeps|intros n].
  apply keeps_bind; [auto with keeps|intros _].
  apply keeps_bind; [auto with keeps|intros _].
  apply keeps_bind; [apply keeps_add_dir_entry|intros _]. apply keeps_sync.
Qed.

Lemma keeps_write_file path data now : keeps_geometry (write_file path data now).
Proof.
  unfold write_file.
  apply keeps_bind; [auto with keeps|intros k].
  apply keeps_bind; [auto with keeps|intros inode].
  destruct k as [k|]; [|auto with keeps].
  destruct inode as [inode|]; [|auto with keeps].
  destruct (negb _); [auto with keeps|].
  apply keeps_bind; [apply keeps_free_existing|intros inode1].
  apply keeps_bind; [apply keeps_write_blocks|intros inode2].
  apply keeps_bind; [auto with keeps|intros _]. apply keeps_sync.
Qed.

Lemma keeps_delete_file path : keeps_geometry (delete_file path).
Proof.
  unfold delete_file.
  destruct (_split_path path) as [[parent name]|]; [|auto with keeps].
  apply keeps_bind; [auto with keeps|intros p].
  apply keeps_bind; [auto with keeps|intros k].
  apply keeps_bind; [auto with keeps|intros inode].
  destruct k as [k|]; [|auto with keeps].
  destruct inode as [inode|]; [|auto with keeps].
  apply keeps_bind; [apply keeps_free_blocks_of|intros _].
  apply keeps_bind; [intros fs; reflexivity|intros _].
  apply keeps_bind; [apply keeps_remove_dir_entry|intros _]. apply keeps_sync.
Qed.

Lemma geometry_exec fs o : geometry (exec fs o) = geometry fs.
Proof.
  unfold exec. destruct o as [path now|path now|path data now|path]; cbn [call].
  - apply keeps_create_file.
  - apply keeps_create_directory.
  - apply keeps_write_file.
  - apply keeps_delete_file.
Qed.

Lemma geometry_run ops : forall fs, geometry (run fs ops) = geometry fs.
Proof.
  induction ops as [|o ops IH]; intros fs; [reflexivity|].
  cbn [run fold_left]. fold (run (exec fs o) ops). now rewrite IH, geometry_exec.
Qed.
End Geometry.

Section Stats.
Context {codec : Utf8}.

Lemma create_geometry size_mb now fs0 :
  create size_mb now = Ok fs0 ->
  geometry fs0 =
  (Superblock.set_free_blocks (Superblock.init (256 * size_mb) 1000) 0,
   256 * size_mb, 256 * size_mb) /\
  10 <= 256 * size_mb.
Proof.
  unfold create. rewrite block_count_create. unfold rbind.
  destruct (BlockAllocator.init (256 * size_mb)) as [a|] eqn:Ea; [|discriminate].
  destruct (Superblock.to_bytes _) as [sbb|] eqn:Es; [|discriminate].
  pose proof (total_blocks_allocate a) as Ht.
  destruct (BlockAllocator.allocate_block a) as [[b|] a']; [|discriminate].
  destruct (_write_inode_table _ _) as [[u|e] d] eqn:Ew; [|discriminate].
  intros H. apply Ok_inj in H. subst fs0.
  pose proof (block_count_write_inode_table
                (BlockDevice.write_block
                   (BlockDevice.write_block
                      (BlockDevice.write_block (BlockDevice.create size_mb) 0 sbb)
                      1 (bitmap_block a))
                   b (zeros BLOCK_SIZE))
                [(1, Inode.set_block_count
                       (Inode.set_direct_block (Inode.init DIRECTORY now) 0 (Some b)) 1)])
    as Hc.
  rewrite Ew in Hc. cbn [snd BlockDevice.write_block BlockDevice.block_count] in Hc.
  rewrite block_count_create in Hc.
  apply superblock_to_bytes_range in Es. destruct Es as (_ & _ & _ & _ & Hf & _).
  unfold u32, Superblock.init in Hf. cbn [Superblock.free_blocks] in Hf.
  split; [|lia].
  unfold geometry. cbn [superblock allocator device snd] in *.
  rewrite Ht, Hc. f_equal. f_equal.
  unfold BlockAllocator.init in Ea.
  destruct ((256 * size_mb + 7) / 8 <? 0); [discriminate|].
  apply Ok_inj in Ea. subst a.
  destruct (reserve_spec (Z.to_nat (Z.min 10 (256 * size_mb)))
              (BlockAllocator.mk (256 * size_mb) (zeros ((256 * size_mb + 7) / 8))) 0)
    as (H1 & _); [lia|]. exact H1.
Qed.

(** X14: After FileSystem.create(size_mb) and any sequence of create_file,
    create_directory, write_file and delete_file calls, whatever they return
    or raise, get_stats reports total_blocks = 256 * size_mb, total_inodes =
    1000, 0 <= free_blocks <= total_blocks and used_inodes = the number of
    inodes in the table; the device keeps its block count and '/' resolves
    to inode 1. *)
Theorem get_stats_of_reachable size_mb now fs0 ops :
  create size_mb now = Ok fs0 ->
  let fs := run fs0 ops in
  let stats := get_stats fs in
  FsStats.total_blocks stats = 256 * size_mb /\
  FsStats.total_inodes stats = 1000 /\
  0 <= FsStats.free_blocks stats <= FsStats.total_blocks stats /\
  FsStats.used_inodes stats = len (inode_table fs) /\
  BlockDevice.block_count (device fs) = 256 * size_mb /\
  _find_inode fs (py "/") = Ok (Some 1).
Proof.
  intros Hc fs stats.
  destruct (create_geometry _ _ _ Hc) as [Hg Hten].
  pose proof (geometry_run ops fs0) as Hr. fold fs in Hr. rewrite Hg in Hr.
  unfold geometry in Hr.
  assert (Hs : Superblock.set_free_blocks (superblock fs) 0
               = Superblock.set_free_blocks (Superblock.init (256 * size_mb) 1000) 0)
    by congruence.
  assert (Ha : BlockAllocator.total_blocks (allocator fs) = 256 * size_mb)
    by congruence.
  assert (Hd : BlockDevice.block_count (device fs) = 256 * size_mb) by congruence.
  assert (Ht : Superblock.total_blocks (superblock fs) = 256 * size_mb)
    by (apply (f_equal Superblock.total_blocks) in Hs; exact Hs).
  assert (Hi : Superblock.inode_count (superblock fs) = 1000)
    by (apply (f_equal Superblock.inode_count) in Hs; exact Hs).
  assert (Hroot : Superblock.root_inode (superblock fs) = 1)
    by (apply (f_equal Superblock.root_inode) in Hs; exact Hs).
  subst stats. unfold get_stats.
  cbn [FsStats.total_blocks FsStats.total_inodes FsStats.free_blocks FsStats.used_inodes].
  split; [exact Ht|]. split; [exact Hi|]. split; [|split; [reflexivity|split; [exact Hd|]]].
  - unfold BlockAllocator.free_blocks.
    pose proof (count_free_bounds (allocator fs)
                  (Z.to_nat (BlockAllocator.total_blocks (allocator fs))) 0). lia.
  - unfold _find_inode. change (str_eqb (py "/") (py "/")) with true. cbn iota.
    now rewrite Hroot.
Qed.

(** X15: On a path that resolves to a directory, read_file returns b'' and
    write_file returns without changing the object; on a path that resolves
    to a regular file, list_directory returns []. None of them raises. *)
Theorem wrong_kind_is_silent fs path data now k inode :
  _find_inode fs path = Ok (Some k) ->
  table_get k (inode_table fs) = Some inode ->
  (Inode.file_type inode = DIRECTORY ->
   read_file fs path = Ok [] /\ write_file path data now fs = (Ok tt, fs)) /\
  (Inode.file_type inode = REGULAR -> list_directory fs path = Ok []).
Proof.
  intros Hf Hg. split.
  - intros Ht. unfold read_file, write_file. rewrite Hf. cbn [rbind table_get_opt].
    rewrite Hg, Ht. split; [reflexivity|].
    rewrite (bind_read_ok _ _ fs (Some k) Hf).
    unfold bind, read. cbn [table_get_opt]. rewrite Hg, Ht. reflexivity.
  - intros Ht. unfold list_directory. rewrite Hf. cbn [rbind table_get_opt].
    now rewrite Hg, Ht.
Qed.
End Stats.

(** ** An inode that cannot be written *)

Lemma inode_to_bytes_slots (ino : Inode.t) b :
  Inode.to_bytes ino = Ok b ->
  exists vs, firstn 12 (Inode.direct_blocks ino) = map Some vs.
Proof.
  unfold Inode.to_bytes.
  change (setitem (zeros INODE_SIZE) 0 (FileType_value (Inode.file_type ino)))
    with (set_slice (zeros INODE_SIZE) 0 1 [FileType_value (Inode.file_type ino)]).
  inv_pack. inv_pack.
  match goal with
  | |- rbind ?w _ = _ -> _ => destruct w as [d|] eqn:Ew; [|discriminate]
  end.
  apply write_direct_spec in Ew; [|lia|len_tac2].
  destruct Ew as (vs & [Hs _] & _). intros _. exists vs. exact Hs.
Qed.

Lemma none_slot_not_serialised ino i :
  (i < 12)%nat -> nth_error (Inode.direct_blocks ino) i = Some None ->
  exists e, Inode.to_bytes ino = Raise e.
Proof.
  intros Hi Hn. destruct (Inode.to_bytes ino) as [b|e] eqn:E; [|now exists e].
  exfalso. apply inode_to_bytes_slots in E. destruct E as [vs Hs].
  assert (H : nth_error (firstn 12 (Inode.direct_blocks ino)) i = Some None)
    by (rewrite nth_error_firstn;
        replace (i <? 12)%nat with true by (symmetry; apply Nat.ltb_lt; lia);
        exact Hn).
  rewrite Hs, nth_error_map in H.
  destruct (nth_error vs i); discriminate.
Qed.

Lemma write_inodes_raises items : forall device block_data offset k ino,
  In (k, ino) items -> (exists e, Inode.to_bytes ino = Raise e) ->
  exists e d, write_inodes device items block_data offset = (Raise e, d).
Proof.
  induction items as [|[k' ino'] items IH]; intros device block_data offset k ino Hin He;
    [contradiction|].
  cbn [write_inodes].
  destruct (Inode.to_bytes ino') as [b|e'] eqn:E'; [|now exists e', device].
  destruct Hin as [Heq|Hin].
  - injection Heq as -> ->. destruct He as [e He]. congruence.
  - destruct (offset + 4 + INODE_SIZE >? BLOCK_SIZE).
    + destruct (pack_into_I _ _ _); [|now eexists; eexists].
      now apply (IH _ _ _ k ino).
    + destruct (pack_into_I _ _ _); [|now eexists; eexists].
      now apply (IH _ _ _ k ino).
Qed.

Section Poison.
Context {codec : Utf8}.

(** X16: When an inode of the table holds None in one of its twelve
    direct_blocks slots (as write_file leaves it when the allocator is
    exhausted), every _sync raises, leaving the inode table and next_inode
    as they are. *)
Theorem sync_raises_on_none_slot fs k ino i :
  In (k, ino) (inode_table fs) -> (i < 12)%nat ->
  nth_error (Inode.direct_blocks ino) i = Some None ->
  exists e fs',
    _sync fs = (Raise e, fs') /\
    inode_table fs' = inode_table fs /\ next_inode fs' = next_inode fs.
Proof.
  intros Hin Hi Hn.
  pose proof (none_slot_not_serialised ino i Hi Hn) as He.
  pose proof (frames_sync fs) as [Ft Fn].
  destruct (_sync fs) as [[u|e] fs'] eqn:E; cbn [snd] in *.
  - exfalso. revert E. unfold _sync, write_block, bind, modify, read.
    cbn [superblock set_superblock device allocator inode_table next_inode set_device].
    destruct (Superblock.to_bytes _) as [sbb|]; [|discriminate].
    cbn [superblock set_superblock device allocator inode_table next_inode set_device].
    match goal with
    | |- context [_write_inode_table ?d ?tb] =>
        destruct (write_inodes_raises tb d (zeros BLOCK_SIZE) 0 k ino Hin He)
          as (e & d' & Hw);
        unfold _write_inode_table; rewrite Hw
    end.
    discriminate.
  - exists e, fs'. now repeat split.
Qed.
End Poison.

(** ** Methods that leave the allocator alone *)


Lemma keeps_allocator_bind {A B} (m : M A) (k : A -> M B) :
  keeps_allocator m -> (forall a, keeps_allocator (k a)) ->
  keeps_allocator (bind m k).
Proof.
  intros Hm Hk fs. unfold bind. specialize (Hm fs).
  destruct (m fs) as [[a|e] fs1]; cbn [snd] in *.
  - now rewrite Hk.
  - exact Hm.
Qed.

Lemma keeps_allocator_ret {A} (a : A) : keeps_allocator (ret a).
Proof. intros fs. reflexivity. Qed.

Lemma keeps_allocator_read {A} (f : t -> result A) : keeps_allocator (read f).
Proof. intros fs. reflexivity. Qed.

Lemma keeps_allocator_lift {A} (r : result A) : keeps_allocator (lift r).
Proof. intros fs. reflexivity. Qed.

Lemma keeps_allocator_write_block b data : keeps_allocator (write_block b data).
Proof. destruct b; intros fs; reflexivity. Qed.

Section DeleteFile.
Context {codec : Utf8}.

Lemma keeps_allocator_sync : keeps_allocator _sync.
Proof.
  unfold _sync.
  apply keeps_allocator_bind; [intros fs; reflexivity|intros _].
  apply keeps_allocator_bind; [apply keeps_allocator_read|intros sb].
  apply keeps_allocator_bind; [apply keeps_allocator_write_block|intros _].
  apply keeps_allocator_bind; [apply keeps_allocator_read|intros bm].
  apply keeps_allocator_bind; [apply keeps_allocator_write_block|intros _].
  intros fs. now destruct (_write_inode_table (device fs) (inode_table fs)).
Qed.

Lemma keeps_allocator_remove_blocks inode name n : forall i,
  keeps_allocator (remove_blocks inode name n i).
Proof.
  induction n as [|n IH]; intros i; cbn [remove_blocks]; [apply keeps_allocator_ret|].
  destruct (DIRECT_BLOCKS <=? i); [apply keeps_allocator_ret|].
  apply keeps_allocator_bind; [apply keeps_allocator_lift|intros b].
  destruct (is_zero b); [apply IH|].
  apply keeps_allocator_bind; [apply keeps_allocator_read|intros bd].
  apply keeps_allocator_bind; [apply keeps_allocator_lift|intros es].
  apply keeps_allocator_bind; [apply keeps_allocator_lift|intros bd'].
  apply keeps_allocator_write_block.
Qed.

Lemma keeps_allocator_remove_dir_entry d name :
  keeps_allocator (_remove_dir_entry d name).
Proof.
  unfold _remove_dir_entry.
  apply keeps_allocator_bind; [apply keeps_allocator_read|intros inode].
  destruct inode; [apply keeps_allocator_remove_blocks|apply keeps_allocator_ret].
Qed.


Lemma free_blocks_of_spec inode vs n : forall j fs,
  Inode.direct_blocks inode = map Some vs -> (12 <= List.length vs)%nat ->
  free_blocks_of inode n (Z.of_nat j) fs =
  (Ok tt,
   set_allocator fs
     (fold_left BlockAllocator.free_block
        (filter (fun v => negb (v =? 0))
                (firstn (Nat.min n (12 - j)) (skipn j vs)))
        (allocator fs))).
Proof.
  induction n as [|n IH]; intros j fs Hs Hl.
  - cbn [free_blocks_of Nat.min firstn filter fold_left]. unfold ret. now destruct fs.
  - cbn [free_blocks_of]. unfold DIRECT_BLOCKS.
    replace (Z.of_nat j + 1) with (Z.of_nat (S j)) by lia.
    destruct (Z.ltb_spec (Z.of_nat j) 12) as [Hlt|Hge].
    + assert (En : nth_error vs j <> None) by (apply nth_error_Some; lia).
      destruct (nth_error vs j) as [v|] eqn:Ev; [|contradiction].
      unfold Inode.direct_block. rewrite Nat2Z.id, Hs, nth_error_map, Ev.
      cbn [option_map]. unfold bind at 1, lift at 1.
      rewrite (skipn_nth_error _ _ _ Ev).
      replace (Nat.min (S n) (12 - j)) with (S (Nat.min n (12 - S j))) by lia.
      cbn [firstn filter is_zero].
      destruct (v =? 0) eqn:Ez; cbn [negb].
      * rewrite IH by assumption. reflexivity.
      * unfold bind, free_block, modify. rewrite IH by assumption.
        cbn [fold_left allocator set_allocator]. now destruct fs.
    + rewrite IH by assumption.
      replace (Nat.min (S n) (12 - j)) with 0%nat by lia.
      replace (Nat.min n (12 - S j)) with 0%nat by lia. reflexivity.
Qed.

Lemma is_allocated_free_block a b c :
  0 <= b -> 0 <= c ->
  BlockAllocator.is_allocated (BlockAllocator.free_block a b) c =
  if (c =? b) && (b <? BlockAllocator.total_blocks a)
     && (b / 8 <? len (BlockAllocator.bitmap a))
  then false else BlockAllocator.is_allocated a c.
Proof.
  intros Hb Hc. unfold BlockAllocator.free_block.
  destruct (b <? BlockAllocator.total_blocks a).
  - rewrite is_allocated_set by lia. rewrite andb_true_r. reflexivity.
  - now rewrite andb_false_r.
Qed.

Lemma len_bitmap_free_block a b :
  0 <= b -> len (BlockAllocator.bitmap (BlockAllocator.free_block a b))
            = len (BlockAllocator.bitmap a).
Proof.
  intros Hb. unfold BlockAllocator.free_block.
  destruct (b <? BlockAllocator.total_blocks a); [now apply len_bitmap_set|reflexivity].
Qed.

Lemma fold_free_block_shape used : forall a,
  Forall (fun v => 0 <= v) used ->
  BlockAllocator.total_blocks (fold_left BlockAllocator.free_block used a)
    = BlockAllocator.total_blocks a /\
  len (BlockAllocator.bitmap (fold_left BlockAllocator.free_block used a))
    = len (BlockAllocator.bitmap a).
Proof.
  induction used as [|v used IH]; intros a Hu; [now split|].
  apply Forall_cons_iff in Hu. destruct Hu as [Hv Hu]. cbn [fold_left].
  destruct (IH (BlockAllocator.free_block a v) Hu) as [-> ->].
  now rewrite total_blocks_free_block, len_bitmap_free_block.
Qed.

Lemma is_allocated_fold_free used : forall a c,
  Forall (fun v => 0 <= v) used -> 0 <= c ->
  BlockAllocator.is_allocated (fold_left BlockAllocator.free_block used a) c =
  if existsb (Z.eqb c) used && (c <? BlockAllocator.total_blocks a)
     && (c / 8 <? len (BlockAllocator.bitmap a))
  then false else BlockAllocator.is_allocated a c.
Proof.
  induction used as [|v used IH]; intros a c Hu Hc; [reflexivity|].
  apply Forall_cons_iff in Hu. destruct Hu as [Hv Hu]. cbn [fold_left existsb].
  rewrite IH by assumption.
  rewrite total_blocks_free_block, len_bitmap_free_block by exact Hv.
  rewrite is_allocated_free_block by assumption.
  destruct (Z.eqb_spec c v) as [->|Hne]; cbn [orb andb].
  - destruct (existsb (Z.eqb v) used), (v <? BlockAllocator.total_blocks a),
             (v / 8 <? len (BlockAllocator.bitmap a)); reflexivity.
  - reflexivity.
Qed.

Lemma table_get_del_same k tb : table_get k (table_del k tb) = None.
Proof.
  induction tb as [|[k' v] tb IH]; [reflexivity|].
  unfold table_del in *. cbn [filter fst].
  destruct (Z.eqb_spec k' k) as [->|Hne]; cbn [negb]; [exact IH|].
  cbn [table_get]. destruct (Z.eqb_spec k k'); [congruence|exact IH].
Qed.

Lemma table_get_del_other k k' tb :
  k' <> k -> table_get k' (table_del k tb) = table_get k' tb.
Proof.
  intros Hne. induction tb as [|[k0 v] tb IH]; [reflexivity|].
  unfold table_del in *. cbn [filter fst table_get].
  destruct (Z.eqb_spec k0 k) as [->|Hne0]; cbn [negb].
  - destruct (Z.eqb_spec k' k); [congruence|exact IH].
  - cbn [table_get]. destruct (k' =? k0); [reflexivity|exact IH].
Qed.

(** X17: delete_file on a path whose name resolves, in its parent, to an
    inode of the table with twelve integer direct block slots (a file or a
    directory) removes that inode from the table whether or not the final
    _sync returns, keeps every other inode and next_inode, and frees exactly
    the non-zero direct blocks below block_count that lie below total_blocks
    and inside the bitmap. *)
Theorem delete_file_removes_inode fs path parent name p k inode vs :
  _split_path path = Some (parent, name) ->
  _find_inode fs parent = Ok p ->
  _lookup_in_directory fs p name = Ok (Some k) ->
  table_get k (inode_table fs) = Some inode ->
  Inode.direct_blocks inode = map Some vs -> List.length vs = 12%nat ->
  Forall (fun v => 0 <= v) vs ->
  let fs' := snd (delete_file path fs) in
  inode_table fs' = table_del k (inode_table fs) /\
  table_get k (inode_table fs') = None /\
  (forall k', k' <> k ->
     table_get k' (inode_table fs') = table_get k' (inode_table fs)) /\
  next_inode fs' = next_inode fs /\
  forall v, 0 <= v ->
    BlockAllocator.is_allocated (allocator fs') v =
    if existsb (Z.eqb v) (blocks_in_use (Inode.block_count inode) vs)
       && (v <? BlockAllocator.total_blocks (allocator fs))
       && (v / 8 <? len (BlockAllocator.bitmap (allocator fs)))
    then false else BlockAllocator.is_allocated (allocator fs) v.
Proof.
  intros Hs Hp Hk Hg Hv Hl Hpos fs'.
  assert (Hfs' : exists r,
            delete_file path fs =
            (bind (_remove_dir_entry p name) (fun _ => _sync))
              (set_inode_table
                 (set_allocator fs
                    (fold_left BlockAllocator.free_block
                       (blocks_in_use (Inode.block_count inode) vs) (allocator fs)))
                 (table_del k (inode_table fs))) /\ r = tt).
  { exists tt. split; [|reflexivity]. unfold delete_file. rewrite Hs.
    rewrite (bind_read_ok _ _ fs p Hp).
    rewrite (bind_read_ok _ _ fs (Some k) Hk).
    unfold bind at 1, read at 1. cbn [table_get_opt]. rewrite Hg.
    unfold bind at 1.
    change 0 with (Z.of_nat 0).
    rewrite (free_blocks_of_spec inode vs _ 0 fs Hv ltac:(lia)).
    unfold bind at 1, modify at 1.
    cbn [inode_table set_allocator allocator skipn].
    unfold blocks_in_use, DIRECT_BLOCKS.
    replace (Nat.min (Z.to_nat (Inode.block_count inode)) (12 - 0))
      with (Z.to_nat (Z.min (Inode.block_count inode) 12)) by lia.
    reflexivity. }
  destruct Hfs' as (_ & Hfs' & _). subst fs'. rewrite Hfs'.
  set (fs1 := set_inode_table _ _).
  assert (F : frames (bind (_remove_dir_entry p name) (fun _ => _sync)))
    by (apply frames_bind; [apply frames_remove_dir_entry|intros _; apply frames_sync]).
  assert (K : keeps_allocator (bind (_remove_dir_entry p name) (fun _ => _sync)))
    by (apply keeps_allocator_bind;
        [apply keeps_allocator_remove_dir_entry|intros _; apply keeps_allocator_sync]).
  destruct (F fs1) as [Ft Fn]. rewrite Ft, Fn, (K fs1).
  subst fs1. cbn [inode_table next_inode allocator set_inode_table set_allocator].
  split; [reflexivity|]. split; [apply table_get_del_same|].
  split; [intros k' Hne; now apply table_get_del_other|]. split; [reflexivity|].
  intros v Hv0. apply is_allocated_fold_free; [|exact Hv0].
  unfold blocks_in_use. rewrite Forall_forall in *. intros x Hx.
  apply filter_In in Hx. destruct Hx as [Hx _].
  apply Hpos. rewrite <- (firstn_skipn (Z.to_nat (Z.min (Inode.block_count inode) DIRECT_BLOCKS)) vs).
  apply in_or_app. now left.
Qed.
End DeleteFile.

(** ** tools/tools.py *)


Lemma bits_value_app d1 d2 :
  fold_left (fun acc c => 2 * acc + (Z.of_N c - 48)) d2 (bits_value d1) =
  bits_value (d1 ++ d2).
Proof. unfold bits_value. now rewrite fold_left_app. Qed.

Lemma bin_digits_value p : forall acc,
  exists d, Tools.bin_digits p acc = d ++ acc /\ bits_value d = Zpos p.
Proof.
  induction p as [p IH|p IH|]; intros acc; cbn [Tools.bin_digits].
  - destruct (IH (49%N :: acc)) as (d & -> & Hd).
    exists (d ++ [49%N]). split; [now rewrite <- app_assoc|].
    rewrite <- bits_value_app. cbn [fold_left]. rewrite Hd. lia.
  - destruct (IH (48%N :: acc)) as (d & -> & Hd).
    exists (d ++ [48%N]). split; [now rewrite <- app_assoc|].
    rewrite <- bits_value_app. cbn [fold_left]. rewrite Hd. lia.
  - exists [49%N]. split; reflexivity.
Qed.

Lemma le_value_nonneg l : is_bytes l -> 0 <= le_value l.
Proof.
  unfold is_bytes. induction 1 as [|b l Hb _ IH]; cbn [le_value]; lia.
Qed.

Lemma le_value_app l r : le_value (l ++ r) = le_value l + 256 ^ len l * le_value r.
Proof.
  induction l as [|b l IH]; cbn [app le_value].
  - change (len (@nil Z)) with 0. lia.
  - rewrite IH. replace (len (b :: l)) with (Z.succ (len l))
      by (unfold len; cbn [List.length]; lia).
    rewrite Z.pow_succ_r by apply len_nonneg. lia.
Qed.

Lemma le_value_zeros n : le_value (zeros n) = 0.
Proof.
  unfold zeros. induction (Z.to_nat n) as [|k IH]; cbn [repeat le_value]; lia.
Qed.

(** X18: read_bin_file returns '0b' followed by binary digits whose value is
    the little-endian number of the file content, and zero bytes appended to
    the content do not change the result. *)
Theorem read_bin_file_value content n :
  is_bytes content ->
  (exists digits,
     Tools.read_bin_file content = py "0b" ++ digits /\
     bits_value digits = le_value content) /\
  Tools.read_bin_file (content ++ zeros n) = Tools.read_bin_file content.
Proof.
  intros Hb. split.
  - unfold Tools.read_bin_file, Tools.bin.
    pose proof (le_value_nonneg content Hb) as Hnn.
    destruct (le_value content) as [|p|p]; [|  |lia].
    + exists [48%N]. split; reflexivity.
    + destruct (bin_digits_value p []) as (d & -> & Hd).
      exists d. rewrite app_nil_r. now split.
  - unfold Tools.read_bin_file. now rewrite le_value_app, le_value_zeros, Z.mul_0_r, Z.add_0_r.
Qed.

(** ** tools/shell.py *)

Section ShellTheorems.
Context {codec : Utf8}.

Lemma str_eqb_refl s : str_eqb s s = true.
Proof. now apply str_eqb_eq. Qed.

Lemma str_eqb_neq a b : a <> b -> str_eqb a b = false.
Proof.
  intros H. destruct (str_eqb a b) eqn:E; [|reflexivity].
  apply str_eqb_eq in E. contradiction.
Qed.

(** X19: execute_command returns {'error': 'Unknown command: <command>'} for
    a command outside its ten names, the usage line of mkdir, touch, read,
    rm and info when args is None or empty, and the usage line of write when
    fewer than two arguments are given; in each case the filesystem object
    is unchanged. *)
Theorem execute_command_rejects fs command args now :
  (~ In command command_names ->
   Shell.execute_command command args now fs =
   (Ok [(py "error", Shell.Str (py "Unknown command: " ++ command))], fs)) /\
  (In command [py "mkdir"; py "touch"; py "read"; py "rm"; py "info"] ->
   args = None \/ args = Some [] ->
   Shell.execute_command command args now fs =
   (Ok [(py "error", Shell.Str (py "Usage: " ++ command ++ py " <path>"))], fs)) /\
  (command = py "write" ->
   (forall a b rest, args <> Some (a :: b :: rest)) ->
   Shell.execute_command command args now fs =
   (Ok [(py "error", Shell.Str (py "Usage: write <path> <text>"))], fs)).
Proof.
  split; [|split].
  - intros Hn. unfold Shell.execute_command.
    unfold command_names in Hn. cbn [In] in Hn.
    rewrite !str_eqb_neq by (intros ->; tauto). reflexivity.
  - intros Hin Ha.
    assert (Hl : match args with Some a => a | None => [] end = [])
      by (destruct Ha as [->| ->]; reflexivity).
    unfold Shell.execute_command. rewrite Hl.
    cbn [In] in Hin.
    destruct Hin as [<-|[<-|[<-|[<-|[<-|[]]]]]]; reflexivity.
  - intros -> Ha.
    assert (Hl : (len (match args with Some a => a | None => [] end) <? 2) = true).
    { destruct args as [[|a [|b rest]]|]; try reflexivity.
      exfalso. now apply (Ha a b rest). }
    unfold Shell.execute_command.
    change (str_eqb (py "write") (py "help")) with false.
    change (str_eqb (py "write") (py "ls")) with false.
    change (str_eqb (py "write") (py "tree")) with false.
    change (str_eqb (py "write") (py "mkdir")) with false.
    change (str_eqb (py "write") (py "touch")) with false.
    change (str_eqb (py "write") (py "write")) with true.
    cbv iota. rewrite Hl. reflexivity.
Qed.

(** X20: execute_command answers {'status': 'success', ...} and leaves the
    object unchanged for touch and mkdir on a name that already exists in
    its parent, for rm on a name that its parent does not hold, and for
    write on a path that does not resolve. *)
Theorem execute_command_reports_success fs path now parent name p :
  _split_path path = Some (parent, name) ->
  _find_inode fs parent = Ok p ->
  (forall existing,
     _lookup_in_directory fs p name = Ok (Some existing) ->
     Shell.execute_command (py "touch") (Some [path]) now fs =
       (Ok [(py "status", Shell.Str (py "success"));
            (py "message", Shell.Str (py "Created file: " ++ path))], fs) /\
     Shell.execute_command (py "mkdir") (Some [path]) now fs =
       (Ok [(py "status", Shell.Str (py "success"));
            (py "message", Shell.Str (py "Created directory: " ++ path))], fs)) /\
  (_lookup_in_directory fs p name = Ok None ->
   Shell.execute_command (py "rm") (Some [path]) now fs =
     (Ok [(py "status", Shell.Str (py "success"));
          (py "message", Shell.Str (py "Deleted: " ++ path))], fs)) /\
  (forall text data,
     _find_inode fs path = Ok None -> encode_utf8 text = Ok data ->
     Shell.execute_command (py "write") (Some [path; text]) now fs =
       (Ok [(py "status", Shell.Str (py "success"));
            (py "message", Shell.Str (py "Wrote to file: " ++ path))], fs)).
Proof.
  intros Hs Hp. split; [|split].
  - intros existing He. unfold Shell.execute_command.
    change (str_eqb (py "touch") (py "help")) with false.
    change (str_eqb (py "touch") (py "ls")) with false.
    change (str_eqb (py "touch") (py "tree")) with false.
    change (str_eqb (py "touch") (py "mkdir")) with false.
    change (str_eqb (py "touch") (py "touch")) with true.
    change (str_eqb (py "mkdir") (py "help")) with false.
    change (str_eqb (py "mkdir") (py "ls")) with false.
    change (str_eqb (py "mkdir") (py "tree")) with false.
    change (str_eqb (py "mkdir") (py "mkdir")) with true.
    cbv iota. change (len [path] <? 1) with false. cbv iota.
    cbn [nth]. unfold bind.
    assert (Hc : create_file path now fs = (Ok tt, fs)).
    { unfold create_file. rewrite Hs.
      rewrite (bind_read_ok _ _ fs p Hp), (bind_read_ok _ _ fs (Some existing) He).
      reflexivity. }
    assert (Hd : create_directory path now fs = (Ok tt, fs)).
    { unfold create_directory. rewrite Hs.
      rewrite (bind_read_ok _ _ fs p Hp), (bind_read_ok _ _ fs (Some existing) He).
      reflexivity. }
    rewrite Hc, Hd. split; reflexivity.
  - intros Hn. unfold Shell.execute_command.
    change (str_eqb (py "rm") (py "help")) with false.
    change (str_eqb (py "rm") (py "ls")) with false.
    change (str_eqb (py "rm") (py "tree")) with false.
    change (str_eqb (py "rm") (py "mkdir")) with false.
    change (str_eqb (py "rm") (py "touch")) with false.
    change (str_eqb (py "rm") (py "write")) with false.
    change (str_eqb (py "rm") (py "read")) with false.
    change (str_eqb (py "rm") (py "rm")) with true.
    cbv iota. change (len [path] <? 1) with false. cbv iota.
    cbn [nth]. unfold bind.
    assert (Hd : delete_file path fs = (Ok tt, fs)).
    { unfold delete_file. rewrite Hs.
      rewrite (bind_read_ok _ _ fs p Hp), (bind_read_ok _ _ fs None Hn).
      reflexivity. }
    rewrite Hd. reflexivity.
  - intros text data Hf He. unfold Shell.execute_command.
    change (str_eqb (py "write") (py "help")) with false.
    change (str_eqb (py "write") (py "ls")) with false.
    change (str_eqb (py "write") (py "tree")) with false.
    change (str_eqb (py "write") (py "mkdir")) with false.
    change (str_eqb (py "write") (py "touch")) with false.
    change (str_eqb (py "write") (py "write")) with true.
    cbv iota. change (len [path; text] <? 2) with false. cbv iota.
    cbn [nth]. unfold bind, lift. rewrite He.
    assert (Hw : write_file path data now fs = (Ok tt, fs)).
    { unfold write_file. rewrite (bind_read_ok _ _ fs None Hf). reflexivity. }
    rewrite Hw. reflexivity.
Qed.
End ShellTheorems.

(** ** The codecs *)

Lemma pack_into_I_raises d o v e : pack_into_I d o v = Raise e -> e = StructError.
Proof.
  unfold pack_into_I, pack_I.
  destruct ((0 <=? v) && (v <? 4294967296)); cbn [rbind].
  - destruct (o + 4 <=? len d); [discriminate|]. now intros [= <-].
  - now intros [= <-].
Qed.

Lemma superblock_to_bytes_raises sb e :
  Superblock.to_bytes sb = Raise e -> e = StructError.
Proof.
  unfold Superblock.to_bytes.
  repeat match goal with
         | |- rbind (pack_into_I ?d ?o ?v) _ = Raise _ -> _ =>
             let E := fresh "E" in
             destruct (pack_into_I d o v) eqn:E;
             [cbn [rbind]
             |apply pack_into_I_raises in E; subst; cbn [rbind]; now intros [= <-]]
         end.
  discriminate.
Qed.

(** X21: Superblock.to_bytes returns a block of 4096 bytes exactly when the
    six fields fit 32 bits unsigned, and raises struct.error otherwise;
    from_bytes of that block gives back the five fields other than magic,
    with magic = 0xDEADBEEF. *)
Theorem superblock_to_bytes_then_from_bytes (sb : Superblock.t) :
  let fits :=
    u32 (Superblock.magic sb) /\ u32 (Superblock.block_size sb) /\
    u32 (Superblock.total_blocks sb) /\ u32 (Superblock.inode_count sb) /\
    u32 (Superblock.free_blocks sb) /\ u32 (Superblock.root_inode sb) in
  (fits ->
   exists b,
     Superblock.to_bytes sb = Ok b /\ len b = BLOCK_SIZE /\
     Superblock.from_bytes b =
       Ok (Superblock.mk MAGIC_NUMBER (Superblock.block_size sb)
             (Superblock.total_blocks sb) (Superblock.inode_count sb)
             (Superblock.free_blocks sb) (Superblock.root_inode sb))) /\
  (~ fits -> Superblock.to_bytes sb = Raise StructError).
Proof.
  intros fits. split.
  - intros (H1 & H2 & H3 & H4 & H5 & H6). now apply superblock_round_trip.
  - intros Hn. destruct (Superblock.to_bytes sb) as [b|e] eqn:E.
    + exfalso. apply Hn. now apply superblock_to_bytes_range in E.
    + f_equal. now apply superblock_to_bytes_raises in E.
Qed.

(** X22: For an inode with twelve integer direct_blocks, Inode.to_bytes
    returns exactly when the 32-bit fields and slots and the 64-bit time
    stamps are in range; what it returns has 128 bytes and Inode.from_bytes
    of it is the inode itself. *)
Theorem inode_to_bytes_then_from_bytes (ino : Inode.t) (vs : list Z) :
  Inode.direct_blocks ino = map Some vs -> List.length vs = 12%nat ->
  (Forall u32 vs /\ u32 (Inode.size ino) /\ u32 (Inode.block_count ino) /\
   u32 (Inode.indirect_block ino) /\ u32 (Inode.double_indirect_block ino) /\
   u64 (Inode.created ino) /\ u64 (Inode.modified ino) /\ u64 (Inode.accessed ino)
   <-> exists b, Inode.to_bytes ino = Ok b) /\
  (forall b, Inode.to_bytes ino = Ok b ->
     len b = INODE_SIZE /\ Inode.from_bytes b = Ok ino).
Proof.
  intros Hd Hn.
  assert (Hl : List.length (Inode.direct_blocks ino) = 12%nat)
    by now rewrite Hd, length_map.
  split; [split|].
  - intros (Hv & H1 & H2 & H3 & H4 & H5 & H6 & H7).
    now apply (inode_to_bytes_ok ino vs).
  - intros [b Hb]. destruct (inode_to_bytes_inv ino b Hl Hb) as (vs' & [Hs Hv] & Hr).
    rewrite Hd in Hs.
    assert (vs' = vs).
    { clear - Hs. revert vs' Hs. induction vs as [|v vs IH]; intros [|v' vs'] H;
        try discriminate; [reflexivity|]. cbn [map] in H. injection H as -> H.
      f_equal. now apply IH. }
    subst vs'. now split.
  - intros b Hb. now apply inode_round_trip.
Qed.

Section DirEntryRoundTrip.
Context {codec : Utf8}.

(** X23: When DirEntry.to_bytes returns b for an entry whose name decodes
    back from its UTF-8 bytes, b has at least 8 bytes and
    DirEntry.from_bytes of b followed by any bytes gives the entry and
    len(b) as the bytes consumed; from_bytes of fewer than 8 bytes raises
    struct.error. *)
Theorem dir_entry_to_bytes_then_from_bytes (e : DirEntry.t) (b rest : bytes) :
  DirEntry.to_bytes e = Ok b ->
  (forall nb, encode_utf8 (DirEntry.name e) = Ok nb -> decode_utf8 nb = DirEntry.name e) ->
  8 <= len b /\
  DirEntry.from_bytes (b ++ rest) = Ok (e, len b) /\
  (forall data, len data < 8 -> DirEntry.from_bytes data = Raise StructError).
Proof.
  intros Hb Hdec.
  destruct (dir_entry_to_bytes_inv e b Hb) as (nb & He & Hi & Hn & ->).
  assert (Hlen : len (le_bytes 4 (DirEntry.inode_num e) ++ le_bytes 4 (len nb) ++ nb)
                 = 8 + len nb)
    by (rewrite !len_app, !len_le_bytes; lia).
  split; [rewrite Hlen; pose proof (len_nonneg nb); lia|]. split.
  - rewrite Hlen. apply dir_entry_from_bytes_app; auto.
  - intros data Hs. unfold DirEntry.from_bytes, slice.
    change (Z.to_nat (4 - 0)) with 4%nat. change (Z.to_nat 0) with 0%nat.
    change (Z.to_nat (8 - 4)) with 4%nat. change (Z.to_nat 4) with 4%nat.
    cbn [skipn]. unfold len in Hs.
    destruct data as [|b0 [|b1 [|b2 [|b3 [|b4 [|b5 [|b6 [|b7 r]]]]]]]];
      try reflexivity.
    cbn [List.length] in Hs. lia.
Qed.
End DirEntryRoundTrip.

(** ** Paths *)

Lemma components_cons_slash p : components (SLASH :: p) = components p.
Proof. exact (components_app [] p). Qed.

Lemma components_repeat_app k p : components (repeat SLASH k ++ p) = components p.
Proof.
  induction k as [|k IH]; [reflexivity|].
  cbn [repeat app]. now rewrite components_cons_slash.
Qed.

Section PathNormalisation.
Context {codec : Utf8}.

(** X24: _find_inode ignores leading and trailing '/' and treats a run of
    '/' inside a path as one separator; a path made of '/' only, the empty
    path included, resolves to the root inode. *)
Theorem find_inode_ignores_extra_slashes fs (a b : pystr) (i j k : nat) :
  _find_inode fs (repeat SLASH i ++ a ++ repeat SLASH (S j) ++ b ++ repeat SLASH k)
    = _find_inode fs (a ++ SLASH :: b) /\
  _find_inode fs (repeat SLASH i) =
    Ok (Some (Superblock.root_inode (superblock fs))).
Proof.
  split.
  - rewrite !find_inode_walk. f_equal.
    rewrite components_repeat_app.
    cbn [repeat app]. rewrite !components_app.
    rewrite components_repeat_app, components_app_slashes. reflexivity.
  - rewrite find_inode_walk.
    replace (repeat SLASH i) with (repeat SLASH i ++ []) by apply app_nil_r.
    rewrite components_repeat_app. reflexivity.
Qed.
End PathNormalisation.

(** ** More concrete runs *)

Section Witnesses.
#[local] Existing Instance ascii_codec.

Lemma inode_to_bytes_then_from_bytes_witness :
  exists b, Inode.to_bytes (root_directory 1000) = Ok b /\
            Inode.from_bytes b = Ok (root_directory 1000).
Proof.
  destruct (inode_to_bytes_then_from_bytes (root_directory 1000)
              (10 :: repeat 0 11) eq_refl eq_refl) as [[H _] Hrt].
  destruct H as [b Hb].
  - unfold u32, u64. cbn. repeat split; try lia. repeat constructor; lia.
  - exists b. split; [exact Hb|]. exact (proj2 (Hrt b Hb)).
Defined.

Lemma dir_entry_to_bytes_then_from_bytes_witness :
  DirEntry.to_bytes (DirEntry.mk 2 (py "f")) = Ok [2; 0; 0; 0; 1; 0; 0; 0; 102] /\
  DirEntry.from_bytes ([2; 0; 0; 0; 1; 0; 0; 0; 102] ++ zeros 8) =
    Ok (DirEntry.mk 2 (py "f"), 9).
Proof.
  split; [reflexivity|].
  refine (proj1 (proj2 (dir_entry_to_bytes_then_from_bytes (DirEntry.mk 2 (py "f"))
                          [2; 0; 0; 0; 1; 0; 0; 0; 102] (zeros 8) eq_refl _))).
  intros nb H. injection H as <-. reflexivity.
Defined.

Lemma set_allocated_then_is_allocated_witness :
  0 <= 10 /\
  BlockAllocator.is_allocated (BlockAllocator.set_allocated small_allocator 10 true) 10
    = true.
Proof.
  split; [lia|].
  refine (proj1 (proj1 (set_allocated_then_is_allocated small_allocator 10 true _) _));
    [lia|reflexivity].
Defined.

Lemma allocate_block_lowest_free_witness :
  BlockAllocator.allocate_block small_allocator
    = (Some 10, BlockAllocator.mk 12 [255; 7]) /\
  BlockAllocator.free_blocks (BlockAllocator.mk 12 [255; 7])
    = BlockAllocator.free_blocks small_allocator - 1.
Proof.
  split; [reflexivity|].
  refine (proj2 (proj2 (proj2 (proj2 (proj2
    (allocate_block_lowest_free small_allocator 10 (BlockAllocator.mk 12 [255; 7])
       eq_refl))) _))).
  reflexivity.
Defined.

Lemma allocate_block_beyond_bitmap_witness :
  8 * len (BlockAllocator.bitmap short_allocator) <= 8 /\
  BlockAllocator.allocate_block short_allocator = (Some 8, short_allocator).
Proof.
  assert (H : 8 * len (BlockAllocator.bitmap short_allocator) <= 8) by (cbn; lia).
  split; [exact H|].
  exact (proj2 (allocate_block_beyond_bitmap short_allocator 8 short_allocator
                  eq_refl H)).
Defined.

Lemma free_block_then_allocate_witness :
  0 <= 3 < BlockAllocator.total_blocks small_allocator /\
  BlockAllocator.is_allocated (BlockAllocator.free_block small_allocator 3) 3 = false.
Proof.
  split; [cbn; lia|].
  refine (proj1 (free_block_then_allocate small_allocator 3 _ _)); cbn; lia.
Defined.

Lemma write_block_then_read_block_witness :
  len (zeros 4095 ++ [7]) = BLOCK_SIZE /\
  BlockDevice.read_block (BlockDevice.write_block small_device 1 (zeros 4095 ++ [7])) 1
    = zeros 4095 ++ [7].
Proof.
  split; [reflexivity|].
  refine (proj1 (write_block_then_read_block small_device 1 1 (zeros 4095 ++ [7])
                   _ _ eq_refl) eq_refl); lia.
Defined.

Lemma device_create_zero_filled_witness :
  0 <= 1 /\
  BlockDevice.read_block (BlockDevice.create 1) 255 = zeros BLOCK_SIZE /\
  BlockDevice.read_block (BlockDevice.create 1) 256 = [].
Proof.
  split; [lia|].
  pose proof (device_create_zero_filled 1 ltac:(lia)) as (_ & _ & _ & H).
  split; [exact (H 255 ltac:(lia))|exact (H 256 ltac:(lia))].
Defined.

Lemma find_inode_of_split_path_witness :
  _split_path (py "/d/f") = Some (py "/d", py "f") /\
  _find_inode fresh_fs (py "/d/f") =
    (d <- _find_inode fresh_fs (py "/d") ;; _lookup_in_directory fresh_fs d (py "f"))%res.
Proof.
  split; [reflexivity|].
  refine (proj2 (find_inode_of_split_path fresh_fs (py "/d/f") (py "/d") (py "f")
                   eq_refl _)).
  discriminate.
Defined.

Lemma read_bin_file_value_witness :
  is_bytes [5; 1] /\
  Tools.read_bin_file ([5; 1] ++ zeros 3) = Tools.read_bin_file [5; 1].
Proof.
  assert (H : is_bytes [5; 1]) by (repeat constructor; lia).
  split; [exact H|].
  exact (proj2 (read_bin_file_value [5; 1] 3 H)).
Defined.

Lemma root_table_on_disk : table_on_disk [(1, root_directory 1000)].
Proof.
  split; [repeat constructor; cbn; tauto|].
  repeat constructor; cbn [fst snd]; try lia.
  apply root_directory_serialisable. unfold u64. lia.
Qed.

Lemma inode_table_survives_last_batch_witness :
  table_on_disk [(1, root_directory 1000)] /\
  exists device',
    _write_inode_table small_device [(1, root_directory 1000)] = (Ok tt, device') /\
    _read_inode_table device' = Ok [(1, root_directory 1000)].
Proof.
  split; [exact root_table_on_disk|].
  destruct (inode_table_survives_last_batch small_device [(1, root_directory 1000)]
              root_table_on_disk ltac:(discriminate)) as (d & Hw & _ & Hr).
  exists d. split; [exact Hw|]. apply Hr. cbn. lia.
Defined.

Lemma create_then_reopen_frees_root_block_witness :
  1 <= 1 < 16777216 /\
  exists fs fs',
    create 1 1000 = Ok fs /\ reopen fs = Ok fs' /\
    BlockAllocator.is_allocated (allocator fs) 10 = true /\
    BlockAllocator.is_allocated (allocator fs') 10 = false.
Proof.
  split; [lia|].
  destruct (create_then_reopen_frees_root_block 1 1000 ltac:(lia)
              ltac:(unfold u64; lia)) as (fs & fs' & H1 & H2 & _ & _ & H3 & H4 & _).
  exists fs, fs'. exact (conj H1 (conj H2 (conj H3 H4))).
Defined.

Lemma get_stats_of_reachable_witness :
  create 1 1000 = Ok fresh_fs /\
  FsStats.total_blocks (get_stats (run fresh_fs [CreateFile (py "/f") 1001])) = 256 /\
  FsStats.total_inodes (get_stats (run fresh_fs [CreateFile (py "/f") 1001])) = 1000.
Proof.
  split; [exact fresh_fs_created|].
  pose proof (get_stats_of_reachable 1 1000 fresh_fs [CreateFile (py "/f") 1001]
                fresh_fs_created) as (H1 & H2 & _).
  split; [exact H1|exact H2].
Defined.

Lemma sync_then_reopen_preserves_witness :
  table_on_disk (inode_table full_fs) /\
  exists fs' fs'',
    _sync full_fs = (Ok tt, fs') /\ reopen fs' = Ok fs'' /\
    inode_table fs'' = inode_table full_fs.
Proof.
  assert (Ht : inode_table full_fs = [(1, root_directory 0)]) by (lazy; reflexivity).
  assert (Hd : table_on_disk (inode_table full_fs)).
  { rewrite Ht. split; [repeat constructor; cbn; tauto|].
    repeat constructor; cbn [fst snd]; try lia.
    apply root_directory_serialisable. unfold u64. lia. }
  split; [exact Hd|].
  destruct (sync_then_reopen_preserves full_fs) as (fs' & fs'' & H1 & H2 & H3 & _).
  - lazy. repeat split; try discriminate; reflexivity.
  - lazy. reflexivity.
  - exact Hd.
  - rewrite Ht. discriminate.
  - rewrite Ht. cbn. lia.
  - exists fs', fs''. exact (conj H1 (conj H2 H3)).
Defined.

Lemma wrong_kind_is_silent_witness :
  _find_inode full_fs (py "/") = Ok (Some 1) /\
  read_file full_fs (py "/") = Ok [] /\
  write_file (py "/") [120] 1002 full_fs = (Ok tt, full_fs).
Proof.
  assert (Hf : _find_inode full_fs (py "/") = Ok (Some 1)) by (lazy; reflexivity).
  assert (Ht : table_get 1 (inode_table full_fs) = Some (root_directory 0))
    by (lazy; reflexivity).
  split; [exact Hf|].
  exact (proj1 (wrong_kind_is_silent full_fs (py "/") [120] 1002 1 (root_directory 0)
                  Hf Ht) eq_refl).
Defined.

Lemma sync_raises_on_none_slot_witness :
  In (2, poisoned_inode) (inode_table poisoned_fs) /\
  exists e fs', _sync poisoned_fs = (Raise e, fs').
Proof.
  assert (Ht : inode_table poisoned_fs = [(1, root_directory 0); (2, poisoned_inode)])
    by (lazy; reflexivity).
  assert (H : In (2, poisoned_inode) (inode_table poisoned_fs))
    by (rewrite Ht; right; left; reflexivity).
  split; [exact H|].
  destruct (sync_raises_on_none_slot poisoned_fs 2 poisoned_inode 0 H
              ltac:(lia) eq_refl) as (e & fs' & Hs & _).
  exists e, fs'. exact Hs.
Defined.

Lemma delete_file_removes_inode_witness :
  _lookup_in_directory full_with_file (Some 1) (py "f") = Ok (Some 2) /\
  table_get 2 (inode_table (snd (delete_file (py "/f") full_with_file))) = None.
Proof.
  assert (Hs : _split_path (py "/f") = Some (py "/", py "f")) by reflexivity.
  assert (Hp : _find_inode full_with_file (py "/") = Ok (Some 1)) by (lazy; reflexivity).
  assert (H : _lookup_in_directory full_with_file (Some 1) (py "f") = Ok (Some 2))
    by (lazy; reflexivity).
  assert (Ht : table_get 2 (inode_table full_with_file) = Some (Inode.init REGULAR 1001))
    by (lazy; reflexivity).
  assert (Hv : Forall (fun v => 0 <= v) (repeat 0 12)) by (repeat constructor; lia).
  split; [exact H|].
  exact (proj1 (proj2 (delete_file_removes_inode full_with_file (py "/f") (py "/")
                         (py "f") (Some 1) 2 (Inode.init REGULAR 1001) (repeat 0 12)
                         Hs Hp H Ht eq_refl eq_refl Hv))).
Defined.

Lemma execute_command_reports_success_witness :
  _lookup_in_directory full_with_file (Some 1) (py "f") = Ok (Some 2) /\
  Shell.execute_command (py "touch") (Some [py "/f"]) 1002 full_with_file =
    (Ok [(py "status", Shell.Str (py "success"));
         (py "message", Shell.Str (py "Created file: " ++ py "/f"))], full_with_file).
Proof.
  assert (Hs : _split_path (py "/f") = Some (py "/", py "f")) by reflexivity.
  assert (Hp : _find_inode full_with_file (py "/") = Ok (Some 1)) by (lazy; reflexivity).
  assert (H : _lookup_in_directory full_with_file (Some 1) (py "f") = Ok (Some 2))
    by (lazy; reflexivity).
  split; [exact H|].
  exact (proj1 (proj1 (execute_command_reports_success full_with_file (py "/f") 1002
                         (py "/") (py "f") (Some 1) Hs Hp) 2 H)).
Defined.
End Witnesses.
